(** * HCF device detector: the scoring ledger and the detection run

    A shallow embedding of the JavaScript sources

    - the engine module (detector/engine.js, whose text follows the media
      module in src/js/detector/media.js): [OSScoreSystem] and
      [DeviceDetectionEngine];
    - src/js/detector/webgl.js, nfc.js, media.js: the probe adapters;
    - the DOM utilities (utils/dom.js): [addStep], [updateConfidence],
      [updateScoreBoard];
    - the entry module (main.js): [DeviceDetectorApp];

    followed by the properties of the evidence-fusion engine: the tie-break
    and the no-evidence result of [getTopOS], the order of the observations,
    what [addScore] accepts, what a throwing step, a second run and a second
    call do, and the bounds on the confidence.

    Numbers.  Every weight in the sources is an integer literal (or
    [desktopAPIs * 2]), so the scores are integers; they are modelled in
    [Z], which is what doubles compute below 2^53.  The only values that are
    not integers are the quotient and the product in
    [Math.round((a / b) * 100)]: each is rounded to binary64 (53-bit
    significand, ties to even) as JavaScript rounds it.  The exponent range
    of binary64 is not modelled: for integers below 2^53 the quotient and
    the product are far from overflow and from the subnormal numbers.

    State.  The application, its engine and the page are one record that a
    small state-and-exception monad threads through the methods; an
    [async] method is the sequence of its pieces between [await]s. *)

From Stdlib Require Import ZArith QArith Qround Qabs Qpower Lia Lqa.
From Stdlib Require Import List String Ascii Bool Permutation Sorted.
From Stdlib Require Import Floats.SpecFloat.
Import ListNotations.

Open Scope string_scope.
Open Scope list_scope.
Open Scope Z_scope.

(** ** Outcomes of JavaScript calls *)

Record JSError := mkError { name : string; message : string }.

Inductive Outcome (A : Type) : Type :=
| Returns (a : A)
| Throws (e : JSError).

Arguments Returns {A} a.
Arguments Throws {A} e.

Definition TypeError (msg : string) : JSError := mkError "TypeError" msg.

(** ** JavaScript numbers *)

Module JSNumber.

(** [2^e] as a rational, for any integer exponent. *)
Definition pow2 (e : Z) : Q := Qpower 2 e.

(** [floor (log2 q)] for [q > 0]. *)
Definition ilog2 (q : Q) : Z :=
  let e := Z.log2 (Qnum q) - Z.log2 (Zpos (Qden q)) in
  if Qle_bool (pow2 e) q then e else e - 1.

(** Nearest integer, a tie going to the even one. *)
Definition round_even (x : Q) : Z :=
  let f := Qfloor x in
  match Qcompare (x - inject_Z f) (1 # 2) with
  | Lt => f
  | Gt => f + 1
  | Eq => if Z.even f then f else f + 1
  end.

(** The binary64 number nearest to a positive rational: the significand
    is the rational scaled into [2^52, 2^53) and rounded to an integer. *)
Definition b64_pos (q : Q) : Q :=
  let u := pow2 (ilog2 q - 52) in
  (inject_Z (round_even (q / u)) * u)%Q.

Definition b64 (q : Q) : Q :=
  match Qcompare q 0 with
  | Eq => 0%Q
  | Gt => b64_pos q
  | Lt => (- b64_pos (- q))%Q
  end.

(** [a / b] and [a * b] on doubles: the exact result, rounded once. *)
Definition div (a b : Q) : Q := b64 (a / b).
Definition mul (a b : Q) : Q := b64 (a * b).

(** [Math.round]: the nearest integer, a tie going up. *)
Definition Math_round (x : Q) : Z := Qfloor (x + (1 # 2)).

(** [Math.max(...l)]; [None] stands for [-Infinity], the value on no
    argument. *)
Definition Math_max (l : list Z) : option Z :=
  fold_left (fun acc x =>
               match acc with
               | None => Some x
               | Some a => Some (Z.max a x)
               end) l None.

(** The same operations in the Standard Library's IEEE 754 specification,
    to compare with. *)
Definition prec : Z := 53.
Definition emax : Z := 1024.

Definition SF_of_Z (z : Z) : spec_float := binary_normalize prec emax z 0 false.

Definition Q_of_SF (x : spec_float) : option Q :=
  match x with
  | S754_zero _ => Some 0%Q
  | S754_finite s m e =>
      Some ((if s then -1 else 1) * inject_Z (Zpos m) * pow2 e)%Q
  | _ => None
  end.

Definition SF_percent (a b : Z) : spec_float :=
  SFmul prec emax (SFdiv prec emax (SF_of_Z a) (SF_of_Z b)) (SF_of_Z 100).

End JSNumber.

(** ** JavaScript strings *)

Module JSString.

Definition lower_ascii (c : ascii) : ascii :=
  let n := nat_of_ascii c in
  if (Nat.leb 65 n && Nat.leb n 90)%bool then ascii_of_nat (n + 32) else c.

Definition upper_ascii (c : ascii) : ascii :=
  let n := nat_of_ascii c in
  if (Nat.leb 97 n && Nat.leb n 122)%bool then ascii_of_nat (n - 32) else c.

Fixpoint map_ascii (f : ascii -> ascii) (s : string) : string :=
  match s with
  | EmptyString => EmptyString
  | String c r => String (f c) (map_ascii f r)
  end.

(** [s.toLowerCase()], [s.toUpperCase()]: on the ASCII letters; user-agent
    and renderer strings are ASCII. *)
Definition toLowerCase (s : string) : string := map_ascii lower_ascii s.
Definition toUpperCase (s : string) : string := map_ascii upper_ascii s.

(** [s.includes(sub)] *)
Fixpoint includes (s sub : string) : bool :=
  if prefix sub s then true
  else match s with
       | EmptyString => false
       | String _ r => includes r sub
       end.

Definition is_digit (c : ascii) : bool :=
  let n := nat_of_ascii c in (Nat.leb 48 n && Nat.leb n 57)%bool.

(** The longest run of decimal digits at the head of [s], read as a number
    ([None] when there is no digit), and what follows it. *)
Fixpoint span_digits (acc : option Z) (s : string) : option Z * string :=
  match s with
  | String c r =>
      if is_digit c then
        let d := Z.of_nat (nat_of_ascii c - 48) in
        span_digits (Some (match acc with None => d | Some a => 10 * a + d end)) r
      else (acc, s)
  | EmptyString => (acc, s)
  end.

Definition drop3 (s : string) : string :=
  match s with
  | String _ (String _ (String _ r)) => r
  | _ => EmptyString
  end.

(** [parseInt(s.match(/os (\d+)_/)[1])], [None] when the pattern has no
    match: the leftmost place where "os " is followed by a run of digits
    and an underscore. *)
Fixpoint match_os_version (s : string) : option Z :=
  let here :=
    if prefix "os " s then
      match span_digits None (drop3 s) with
      | (Some v, String c _) => if Ascii.eqb c "_" then Some v else None
      | _ => None
      end
    else None in
  match here with
  | Some v => Some v
  | None => match s with
            | EmptyString => None
            | String _ r => match_os_version r
            end
  end.

(** [parts.join(sep)] *)
Definition join (sep : string) (parts : list string) : string :=
  String.concat sep parts.

End JSString.

(** ** OSScoreSystem (engine.js) *)

(** [this.scores]: an object with string keys.  [Object.values] and
    [Object.entries] enumerate the keys in insertion order, which the
    tie-break of [getTopOS] depends on, so the object is the list of its
    entries in that order.  The scores are integers here: the weights of
    the engine are small integers, and on integers within 2^53 no sum of
    the code is rounded.  [Scores64] below is the table with the rounding
    of binary64; [Binary64Facts.addScore_Z] and [Binary64Facts.getTopOS_Z]
    relate the two. *)
Definition Scores : Type := list (string * Z).

Module JSObject.

Definition hasOwnProperty (o : Scores) (k : string) : bool :=
  existsb (fun e => String.eqb (fst e) k) o.

(** [o[k]]; [None] is [undefined]. *)
Fixpoint get (o : Scores) (k : string) : option Z :=
  match o with
  | [] => None
  | (k', v) :: r => if String.eqb k' k then Some v else get r k
  end.

(** [o[k] = v]: an existing key keeps its place, a new one goes last (no
    key here is an array index). *)
Fixpoint set (o : Scores) (k : string) (v : Z) : Scores :=
  match o with
  | [] => [(k, v)]
  | (k', v') :: r =>
      if String.eqb k' k then (k', v) :: r else (k', v') :: set r k v
  end.

Definition keys (o : Scores) : list string := map fst o.
Definition values (o : Scores) : list Z := map snd o.

End JSObject.

(** The result object of [getTopOS]. *)
Record TopOS := { os : string; confidence : Z }.

Module OSScoreSystem.
Import JSObject.

(** The six keys of the constructor, in the order they are written. *)
Definition OS_names : list string :=
  ["macOS"; "Windows"; "Linux"; "iOS"; "iPadOS"; "Android"].

(** A zero table over any list of names; the constructor is the instance
    at [OS_names]. *)
Definition zero_scores (names : list string) : Scores :=
  map (fun n => (n, 0)) names.

Definition new : Scores := zero_scores OS_names.

(** The body of the [forEach] callback of [addScore]. *)
Definition addScore_target (weight : Z) (scores : Scores) (target : string) : Scores :=
  if hasOwnProperty scores target then
    match get scores target with
    | Some v => set scores target (v + weight)
    | None => scores
    end
  else scores.

Definition addScore (targets : list string) (weight : Z) (scores : Scores) : Scores :=
  fold_left (addScore_target weight) targets scores.

Definition unknown_os : string := "未知".

(** [Math.round((score / totalScore) * 100)] *)
Definition percent (score totalScore : Z) : Z :=
  JSNumber.Math_round
    (JSNumber.mul (JSNumber.div (inject_Z score) (inject_Z totalScore)) 100).

Definition totalOf (scores : Scores) : Z :=
  fold_left (fun a b => a + b) (values scores) 0.

Definition is_max (maxScore : option Z) (e : string * Z) : bool :=
  match maxScore with
  | Some m => Z.eqb (snd e) m
  | None => false
  end.

Definition getTopOS (scores : Scores) : Outcome TopOS :=
  let maxScore := JSNumber.Math_max (values scores) in
  let totalScore := totalOf scores in
  if (match maxScore with Some m => Z.eqb m 0 | None => false end) || Z.eqb totalScore 0
  then Returns {| os := unknown_os; confidence := 0 |}
  else
    match find (is_max maxScore) scores, maxScore with
    | Some entry, Some m =>
        Returns {| os := fst entry; confidence := percent m totalScore |}
    | _, _ => Throws (TypeError "Cannot read properties of undefined (reading '0')")
    end.

(** [{ ...this.scores }]: a copy. *)
Definition getAllScores (scores : Scores) : Scores := scores.

End OSScoreSystem.


(** ** The host environment

    What the browser answers to the probes of one detection run.  A probe
    that is a function call may throw; a property read or an [in] test may
    not. *)

(** The four [decodingInfo] configurations of media.js. *)
Inductive MediaConfig :=
| HEVC_1080p    (* video/mp4, hev1.1.6.L93.B0 *)
| VP9_1080p     (* video/webm, vp9 *)
| AV1_1080p     (* video/mp4, av01.0.04M.08 *)
| HDR10_2160p.  (* video/mp4, hev1.2.4.L153.B0, rec2020, pq *)

Record Host := {
  userAgent : string;                           (* navigator.userAgent *)
  maxTouchPoints : option Z;                    (* navigator.maxTouchPoints *)
  matchMedia : string -> Outcome bool;          (* matchMedia(query).matches *)
  style_has : string -> bool;                   (* name in document.documentElement.style *)
  window_has : string -> bool;                  (* name in window *)
  safari_has : string -> bool;                  (* name in window.safari *)
  navigator_has : string -> bool;               (* name in navigator *)
  navigator_standalone : bool;                  (* window.navigator.standalone === true *)
  CSS_supports : string -> string -> Outcome bool;
  devicePixelRatio : option Q;                  (* window.devicePixelRatio *)
  screen_size : Z * Z;                          (* screen.width, screen.height *)
  screen_avail : Z * Z;                         (* screen.availWidth, screen.availHeight *)
  screen_colorDepth : Z;
  screen_orientation : option Z;                (* screen.orientation.angle *)
  gl_strings : Outcome (option (string * string));
    (* the canvas probe of getWebGLInfo: it throws, or there is no context,
       or the vendor and renderer parameters after String(x || '') *)
  new_NDEFReader : Outcome unit;                (* new NDEFReader() *)
  decodingInfo : MediaConfig -> Outcome bool;   (* (await decodingInfo(config)).supported *)
  localStorage_setItem : Outcome unit           (* localStorage.setItem(key, value) *)
}.

(** ** webgl.js *)

Record WebGLInfo := { vendor : string; renderer : string }.

Module WebGL.
Import JSString.

Definition getWebGLInfo (h : Host) : option WebGLInfo :=
  match gl_strings h with
  | Returns (Some (v, r)) => Some {| vendor := v; renderer := r |}
  | Returns None => None
  | Throws _ => None              (* catch (e) { console.warn(...); return null } *)
  end.

Definition combined (i : WebGLInfo) : string :=
  toLowerCase (vendor i ++ " " ++ renderer i)%string.

Definition containsApple (webglInfo : option WebGLInfo) : bool :=
  match webglInfo with
  | None => false
  | Some i => includes (combined i) "apple" || includes (combined i) "metal"
  end.

Definition isAngleMetal (webglInfo : option WebGLInfo) : bool :=
  match webglInfo with
  | None => false
  | Some i => includes (toLowerCase (renderer i)) "angle"
              && includes (toLowerCase (renderer i)) "metal"
  end.

Definition getGPUVendor (webglInfo : option WebGLInfo) : string :=
  match webglInfo with
  | None => "unknown"
  | Some i =>
      let c := combined i in
      if includes c "nvidia" || includes c "geforce" then "nvidia"
      else if includes c "amd" || includes c "radeon" then "amd"
      else if includes c "intel" then "intel"
      else if includes c "apple" || includes c "metal" then "apple"
      else "unknown"
  end.

End WebGL.

(** ** nfc.js *)

Record NFCResult := {
  hasAPI : bool; apiType : string; canScan : bool; nfc_error : option string
}.

Module NFC.
Import JSString.

Definition checkNFCCapabilities (h : Host) : NFCResult :=
  let r0 := {| hasAPI := false; apiType := ""; canScan := false; nfc_error := None |} in
  let r1 :=
    if window_has h "NDEFReader" then
      match new_NDEFReader h with
      | Returns _ =>
          {| hasAPI := true; apiType := "NDEFReader"; canScan := true;
             nfc_error := None |}
      | Throws scanError =>
          {| hasAPI := true; apiType := "NDEFReader"; canScan := false;
             nfc_error := Some ("扫描权限检查失败: " ++ message scanError)%string |}
      end
    else r0 in
  if negb (hasAPI r1) then
    if navigator_has h "nfc" then
      {| hasAPI := true; apiType := "navigator.nfc"; canScan := canScan r1;
         nfc_error := nfc_error r1 |}
    else r1
  else r1.

Definition hasNFCSupport (h : Host) : bool :=
  let ua := toLowerCase (userAgent h) in
  if includes ua "android" then true
  else
    let ios := if includes ua "iphone" || includes ua "ipad"
               then match_os_version ua else None in
    match ios with
    | Some iosVersion => 11 <=? iosVersion
    | None => window_has h "NDEFReader" || navigator_has h "nfc"
    end.

Definition getNFCDetails (h : Host) : string :=
  let c1 := if window_has h "NDEFReader" then ["NDEF读写"] else [] in
  let c2 := if navigator_has h "nfc" then ["传统NFC API"] else [] in
  let ua := toLowerCase (userAgent h) in
  let c3 := if includes ua "android" then ["Android NFC"]
            else if includes ua "iphone" then ["Core NFC (读取)"] else [] in
  let capabilities := c1 ++ c2 ++ c3 in
  match capabilities with
  | [] => "无NFC支持"
  | _ => join ", " capabilities
  end.

End NFC.

(** ** media.js *)

(** A field is [None] for [null]. *)
Record MediaCapabilities := {
  hevc : option bool; vp9 : option bool; av1 : option bool; hdr : option bool
}.

Module Media.

(** [checkHEVCSupport], [checkVP9Support], [checkAV1Support] and
    [checkHDRSupport] differ in the configuration only. *)
Definition checkSupport (h : Host) (c : MediaConfig) : option bool :=
  if negb (navigator_has h "mediaCapabilities") then None
  else match decodingInfo h c with
       | Returns supported => Some supported
       | Throws _ => Some false                 (* catch (e) { return false } *)
       end.

Definition checkMediaCapabilities (h : Host) : MediaCapabilities :=
  if navigator_has h "mediaCapabilities" then
    {| hevc := checkSupport h HEVC_1080p;
       vp9 := checkSupport h VP9_1080p;
       av1 := checkSupport h AV1_1080p;
       hdr := checkSupport h HDR10_2160p |}
  else {| hevc := None; vp9 := None; av1 := None; hdr := None |}.

End Media.

(** ** The page (utils/dom.js)

    The elements the scripts write to.  The [detail] text of a step and the
    markup are presentation and are left out; the page is taken to contain
    the elements the scripts look up. *)

Record Step := {
  ok : bool; title : string; weight : option Z; targets : list string
}.

Inductive Summary :=
| Blank
| Detecting                                     (* 正在检测设备... *)
| Completed (os : string) (confidence : Z)      (* 检测完成 *)
| Failed (message : string).                    (* 检测失败 *)

Record ConfBar := { width : Z; loading : bool; error : bool }.

Record ScoreRow := { row_os : string; row_width : Z; row_score : Z }.

(** The page is the page of the application, on which the four elements
    [#summary], [#confBar], [#steps] and [#scoreBoard] exist.  The writes to
    the first, second and fourth are guarded by a test for the element in
    the sources; [addStep] is not, and on a page without [#steps] it throws
    a [TypeError].  That page is not modelled. *)
Record Page := {
  summary : Summary;
  confBar : ConfBar;
  steps : list Step;
  scoreBoard : list ScoreRow
}.

(** ** The state of the application *)

Record BasicSignals := {
  touchPoints : Z; coarse : bool; fine : bool; hover : bool
}.

Record AppleSignals := {
  webkitTouchCallout : bool; webkitOverflowScrolling : bool; applePay : bool;
  safariPush : bool; iOSPermissionShape : bool; pwaStandalone : bool
}.

Record AndroidSignals := {
  webNFC : bool; nfcDetails : string; relatedApps : bool
}.

Record DesktopSignals := { webSerial : bool; webHID : bool; webUSB : bool }.

Record DisplaySignals := {
  dpr : Q; screen : Z * Z; availScreen : Z * Z; colorDepth : Z;
  orientation : option Z
}.

(** [this.signals]; a field is [None] while it is the empty object of the
    constructor. *)
Record Signals := {
  basic : option BasicSignals;
  apple : option AppleSignals;
  android : option AndroidSignals;
  desktop : option DesktopSignals;
  display : option DisplaySignals
}.

(** A [DeviceDetectionEngine] instance. *)
Record Engine := { scoreSystem : Scores; signals : Signals }.

(** A [DeviceDetectorApp] instance with its page and its storage. *)
Record World := {
  engine : Engine;
  isDetecting : bool;
  page : Page;
  localStorage : option TopOS     (* the result saved under hcf_detection_result *)
}.

(** ** Computations on the state that may throw

    A thrown exception keeps the changes made before it. *)

Definition M (A : Type) : Type := World -> Outcome A * World.

Definition ret {A} (a : A) : M A := fun w => (Returns a, w).

Definition bind {A B} (m : M A) (k : A -> M B) : M B :=
  fun w => match m w with
           | (Returns a, w') => k a w'
           | (Throws e, w') => (Throws e, w')
           end.

Notation "x <- m ;; k" := (bind m (fun x => k))
  (at level 61, m at next level, right associativity).
Notation "m ;; k" := (bind m (fun _ => k))
  (at level 61, right associativity).

(** The value or the exception of a call into the host. *)
Definition host {A} (o : Outcome A) : M A := fun w => (o, w).

Definition when (b : bool) (m : M unit) : M unit := if b then m else ret tt.

(** [try { m } catch (e) { handler(e) }] *)
Definition try_catch {A} (m : M A) (handler : JSError -> M A) : M A :=
  fun w => match m w with
           | (Returns a, w') => (Returns a, w')
           | (Throws e, w') => handler e w'
           end.

(** [try { m } finally { f }], for an [f] that does not throw. *)
Definition try_finally {A} (m : M A) (f : World -> World) : M A :=
  fun w => let (o, w') := m w in (o, f w').

Definition update_engine (f : Engine -> Engine) : M unit :=
  fun w => (Returns tt,
            {| engine := f (engine w); isDetecting := isDetecting w;
               page := page w; localStorage := localStorage w |}).

Definition update_page (f : Page -> Page) : M unit :=
  fun w => (Returns tt,
            {| engine := engine w; isDetecting := isDetecting w;
               page := f (page w); localStorage := localStorage w |}).

Definition set_isDetecting (b : bool) (w : World) : World :=
  {| engine := engine w; isDetecting := b;
     page := page w; localStorage := localStorage w |}.

Definition update_signals (f : Signals -> Signals) : M unit :=
  update_engine (fun e => {| scoreSystem := scoreSystem e; signals := f (signals e) |}).

(** ** dom.js *)

Module Dom.

(** [$('#steps').appendChild(li)], on a page that has the list. *)
Definition addStep (s : Step) : M unit :=
  update_page (fun p => {| summary := summary p; confBar := confBar p;
                           steps := steps p ++ [s]; scoreBoard := scoreBoard p |}).

Definition updateConfidence (os : string) (confidence : Z) : M unit :=
  update_page (fun p =>
    {| summary := Completed os confidence;
       confBar := {| width := confidence; loading := loading (confBar p);
                     error := error (confBar p) |};
       steps := steps p; scoreBoard := scoreBoard p |}).

(** A stable sort by decreasing score: [.sort((a, b) => b[1] - a[1])]. *)
Fixpoint insert_desc (e : string * Z) (l : list (string * Z)) : list (string * Z) :=
  match l with
  | [] => [e]
  | x :: r => if snd x <=? snd e then e :: l else x :: insert_desc e r
  end.

Definition sort_desc (l : list (string * Z)) : list (string * Z) :=
  fold_right insert_desc [] l.

Definition updateScoreBoard (scores : Scores) : M unit :=
  let maxScore := JSNumber.Math_max (JSObject.values scores) in
  let row (e : string * Z) :=
    {| row_os := fst e;
       row_width := match maxScore with
                    | Some m => if 0 <? m then OSScoreSystem.percent (snd e) m else 0
                    | None => 0
                    end;
       row_score := snd e |} in
  update_page (fun p => {| summary := summary p; confBar := confBar p;
                           steps := steps p;
                           scoreBoard := map row (sort_desc scores) |}).

End Dom.

(** ** DeviceDetectionEngine (engine.js) *)

Module DeviceDetectionEngine.
Import JSString.

Definition noSignals : Signals :=
  {| basic := None; apple := None; android := None; desktop := None;
     display := None |}.

(** The constructor. *)
Definition new : Engine :=
  {| scoreSystem := OSScoreSystem.new; signals := noSignals |}.

(** [this.scoreSystem.addScore(targets, weight)] *)
Definition addScore (targets : list string) (weight : Z) : M unit :=
  update_engine (fun e =>
    {| scoreSystem := OSScoreSystem.addScore targets weight (scoreSystem e);
       signals := signals e |}).

(** One fired signal: the score and the step shown for it. *)
Definition fire (title : string) (targets : list string) (weight : Z) : M unit :=
  addScore targets weight ;;
  Dom.addStep {| ok := true; title := title; weight := Some weight;
                 targets := targets |}.

Definition collectBasicSignals (h : Host) : M unit :=
  c <- host (matchMedia h "(pointer: coarse)") ;;
  f <- host (matchMedia h "(pointer: fine)") ;;
  hv <- host (matchMedia h "(hover: hover)") ;;
  let s := {| touchPoints := match maxTouchPoints h with Some n => n | None => 0 end;
              coarse := c; fine := f; hover := hv |} in
  update_signals (fun g => {| basic := Some s; apple := apple g; android := android g;
                              desktop := desktop g; display := display g |}) ;;
  when ((0 <? touchPoints s) || coarse s)
    (fire "触摸设备特征" ["iOS"; "iPadOS"; "Android"] 2).

Definition collectAppleSignals (h : Host) : M unit :=
  shape <- host (CSS_supports h "shape-outside" "circle()") ;;
  standalone <- host (matchMedia h "(display-mode: standalone)") ;;
  let s := {| webkitTouchCallout := style_has h "webkitTouchCallout";
              webkitOverflowScrolling := style_has h "webkitOverflowScrolling";
              applePay := window_has h "ApplePaySession";
              safariPush := window_has h "safari" && safari_has h "pushNotification";
              iOSPermissionShape := shape;
              pwaStandalone := standalone || navigator_standalone h |} in
  update_signals (fun g => {| basic := basic g; apple := Some s; android := android g;
                              desktop := desktop g; display := display g |}) ;;
  when (applePay s)
    (fire "Apple Pay 支持" ["iOS"; "iPadOS"; "macOS"] 8) ;;
  when (webkitTouchCallout s || webkitOverflowScrolling s)
    (fire "WebKit CSS 特性" ["iOS"; "iPadOS"] 4) ;;
  when (safariPush s)
    (fire "Safari 推送通知" ["macOS"] 6).

Definition collectAndroidSignals (h : Host) : M unit :=
  let s := {| webNFC := window_has h "NDEFReader";
              nfcDetails := NFC.getNFCDetails h;
              relatedApps := navigator_has h "getInstalledRelatedApps" |} in
  update_signals (fun g => {| basic := basic g; apple := apple g; android := Some s;
                              desktop := desktop g; display := display g |}) ;;
  when (relatedApps s)
    (fire "Related Apps API" ["Android"] 5).

Definition collectDesktopSignals (h : Host) : M unit :=
  let s := {| webSerial := navigator_has h "serial";
              webHID := navigator_has h "hid";
              webUSB := navigator_has h "usb" |} in
  update_signals (fun g => {| basic := basic g; apple := apple g; android := android g;
                              desktop := Some s; display := display g |}) ;;
  let desktopAPIs :=
    Z.of_nat (List.length (filter (fun b : bool => b) [webSerial s; webHID s; webUSB s])) in
  when (0 <? desktopAPIs)
    (fire "桌面系统API" ["Windows"; "macOS"; "Linux"] (desktopAPIs * 2)).

Definition collectDisplaySignals (h : Host) : M unit :=
  let s := {| dpr := match devicePixelRatio h with
                     | Some d => if Qeq_bool d 0 then 1%Q else d
                     | None => 1%Q
                     end;
              screen := screen_size h;
              availScreen := screen_avail h;
              colorDepth := screen_colorDepth h;
              orientation := screen_orientation h |} in
  update_signals (fun g => {| basic := basic g; apple := apple g; android := android g;
                              desktop := desktop g; display := Some s |}) ;;
  when (Qle_bool 2 (dpr s))
    (fire "Retina显示屏" ["macOS"; "iOS"; "iPadOS"] 3).

Definition performWebGLDetection (h : Host) : M unit :=
  let webglInfo := WebGL.getWebGLInfo h in
  match webglInfo with
  | None => ret tt
  | Some _ =>
      when (WebGL.containsApple webglInfo)
        (fire "WebGL 渲染器含 Apple" ["macOS"; "iOS"; "iPadOS"] 6) ;;
      when (WebGL.isAngleMetal webglInfo)
        (fire "ANGLE(Metal) 迹象" ["macOS"] 4) ;;
      let gpuVendor := WebGL.getGPUVendor webglInfo in
      (if String.eqb gpuVendor "apple" then addScore ["macOS"; "iOS"; "iPadOS"] 5
       else if String.eqb gpuVendor "intel" then addScore ["Windows"; "macOS"; "Linux"] 3
       else if String.eqb gpuVendor "nvidia" then addScore ["Windows"; "Linux"] 4
       else if String.eqb gpuVendor "amd" then addScore ["Windows"; "Linux"] 3
       else ret tt) ;;
      when (negb (String.eqb gpuVendor "unknown"))
        (Dom.addStep
           {| ok := true;
              title := (toUpperCase gpuVendor ++ " GPU检测")%string;
              weight := Some (if String.eqb gpuVendor "apple" then 5 else 3);
              targets := if String.eqb gpuVendor "apple" then ["macOS"; "iOS"; "iPadOS"]
                         else if String.eqb gpuVendor "nvidia" || String.eqb gpuVendor "amd"
                              then ["Windows"; "Linux"]
                              else ["Windows"; "macOS"; "Linux"] |})
  end.

Definition performNFCDetection (h : Host) : M unit :=
  let nfcResult := NFC.checkNFCCapabilities h in
  when (hasAPI nfcResult)
    (fire "NFC API 支持" ["Android"] 4) ;;
  when (NFC.hasNFCSupport h)
    (if includes (toLowerCase (userAgent h)) "android" then addScore ["Android"] 2
     else if includes (toLowerCase (userAgent h)) "iphone" then addScore ["iOS"] 2
     else ret tt).

Definition is_true (b : option bool) : bool :=
  match b with Some true => true | _ => false end.

Definition performMediaDetection (h : Host) : M unit :=
  let mediaCapabilities := Media.checkMediaCapabilities h in
  when (is_true (hevc mediaCapabilities))
    (fire "HEVC/H.265 支持" ["macOS"; "iOS"; "iPadOS"] 4) ;;
  when (is_true (vp9 mediaCapabilities))
    (fire "VP9 编解码支持" ["Android"; "Windows"; "Linux"] 2).

Definition performUserAgentAnalysis (h : Host) : M unit :=
  let userAgent := toLowerCase (userAgent h) in
  when (includes userAgent "mac os x" || includes userAgent "macos")
    (fire "macOS 用户代理" ["macOS"] 6) ;;
  when (includes userAgent "windows nt")
    (fire "Windows 用户代理" ["Windows"] 6) ;;
  when (includes userAgent "linux" && negb (includes userAgent "android"))
    (fire "Linux 用户代理" ["Linux"] 6) ;;
  when (includes userAgent "iphone" || includes userAgent "ipod")
    (fire "iOS 设备标识" ["iOS"] 8) ;;
  when (includes userAgent "ipad")
    (fire "iPadOS 设备标识" ["iPadOS"] 8) ;;
  when (includes userAgent "android")
    (fire "Android 系统标识" ["Android"] 8).

Definition addSignalSnapshot : M unit :=
  Dom.addStep {| ok := true; title := "原始信号快照"; weight := None; targets := [] |}.

(** The steps that [startDetection] runs one after the other, each of the
    first eight behind an [await]. *)
Definition detection_steps (h : Host) : list (M unit) :=
  [ collectBasicSignals h; collectAppleSignals h; collectAndroidSignals h;
    collectDesktopSignals h; collectDisplaySignals h; performWebGLDetection h;
    performNFCDetection h; performMediaDetection h; performUserAgentAnalysis h ].

Fixpoint run_steps (l : list (M unit)) : M unit :=
  match l with
  | [] => ret tt
  | s :: r => s ;; run_steps r
  end.

(** The end of [startDetection]: the result is computed and shown. *)
Definition finish : M TopOS :=
  result <- (fun w => (OSScoreSystem.getTopOS (scoreSystem (engine w)), w)) ;;
  Dom.updateConfidence (os result) (confidence result) ;;
  scores <- (fun w => (Returns (OSScoreSystem.getAllScores (scoreSystem (engine w))), w)) ;;
  Dom.updateScoreBoard scores ;;
  addSignalSnapshot ;;
  ret result.

(** [startDetection] over any list of steps; the engine runs it on
    [detection_steps]. *)
Definition startDetection_with (l : list (M unit)) : M TopOS :=
  run_steps l ;; finish.

Definition startDetection (h : Host) : M TopOS :=
  startDetection_with (detection_steps h).

End DeviceDetectionEngine.

(** ** DeviceDetectorApp (main.js) *)

Module DeviceDetectorApp.

Definition blankPage : Page :=
  {| summary := Blank;
     confBar := {| width := 0; loading := false; error := false |};
     steps := []; scoreBoard := [] |}.

(** The constructor, on the page as it is loaded. *)
Definition new : World :=
  {| engine := DeviceDetectionEngine.new; isDetecting := false;
     page := blankPage; localStorage := None |}.

Definition showLoadingState : M unit :=
  update_page (fun p =>
    {| summary := Detecting;
       confBar := {| width := 0; loading := true; error := error (confBar p) |};
       steps := steps p; scoreBoard := scoreBoard p |}).

Definition clearSteps : M unit :=
  update_page (fun p => {| summary := summary p; confBar := confBar p;
                           steps := []; scoreBoard := scoreBoard p |}).

Definition removeLoading : M unit :=
  update_page (fun p =>
    {| summary := summary p;
       confBar := {| width := width (confBar p); loading := false;
                     error := error (confBar p) |};
       steps := steps p; scoreBoard := scoreBoard p |}).

(** The write is in a [try]; a failure is logged and dropped. *)
Definition saveDetectionResult (h : Host) (result : TopOS) : M unit :=
  fun w => match localStorage_setItem h with
           | Returns _ =>
               (Returns tt,
                {| engine := engine w; isDetecting := isDetecting w;
                   page := page w; localStorage := Some result |})
           | Throws _ => (Returns tt, w)
           end.

Definition showErrorState (e : JSError) : M unit :=
  update_page (fun p =>
    {| summary := Failed (message e);
       confBar := {| width := 0; loading := false; error := true |};
       steps := steps p; scoreBoard := scoreBoard p |}).

(** The [try] block of [startDetection], over the steps of the engine. *)
Definition detect_with (l : list (M unit)) (h : Host) : M unit :=
  clearSteps ;;
  result <- DeviceDetectionEngine.startDetection_with l ;;
  removeLoading ;;
  saveDetectionResult h result.

(** [startDetection], run from its call to its end with nothing in
    between.  The promise it returns is fulfilled with [undefined]. *)
Definition startDetection_with (l : list (M unit)) (h : Host) : M unit :=
  fun w =>
    if isDetecting w then (Returns tt, w)       (* console.warn(...); return *)
    else
      try_finally
        (try_catch (detect_with l h) showErrorState)
        (set_isDetecting false)
        (set_isDetecting true w).

Definition startDetection (h : Host) : M unit :=
  startDetection_with (DeviceDetectionEngine.detection_steps h) h.

(** [init], once the document is loaded; the delay is not modelled. *)
Definition init (h : Host) : M unit :=
  showLoadingState ;; startDetection h.

Definition restartDetection (h : Host) : M unit := startDetection h.

(** *** The run as the scheduler sees it

    An [async] function runs until its first [await] when it is called and
    then in pieces, one per [await]; between two pieces other calls can
    come in.  The first suspension of [startDetection] is at
    [await this.collectBasicSignals()] in the engine.  The pieces below are
    cut at the [await]s of the engine's [startDetection]; the [await]s
    inside the probes of nfc.js and media.js, and the one of the
    application on the engine's promise, fall inside a piece.  Nothing that
    a call reads ([isDetecting]) is written between them. *)

(** The state of the promise that a call returns. *)
Inductive Promise :=
| Pending
| Fulfilled              (* with undefined *)
| Rejected (e : JSError).

(** The pieces left to run after the first suspension. *)
Definition Task : Type := list (M unit).

Definition pieces (h : Host) : Task :=
  [ DeviceDetectionEngine.collectAppleSignals h;
    DeviceDetectionEngine.collectAndroidSignals h;
    DeviceDetectionEngine.collectDesktopSignals h;
    DeviceDetectionEngine.collectDisplaySignals h;
    DeviceDetectionEngine.performWebGLDetection h;
    DeviceDetectionEngine.performNFCDetection h;
    DeviceDetectionEngine.performMediaDetection h;
    (DeviceDetectionEngine.performUserAgentAnalysis h ;;
     result <- DeviceDetectionEngine.finish ;;
     removeLoading ;;
     saveDetectionResult h result) ].

Record System := { world : World; inflight : list Task }.

(** The [catch] and [finally] clauses, when a piece has ended the run. *)
Definition settle (o : Outcome unit) (w : World) : World :=
  set_isDetecting false
    (match o with
     | Returns _ => w
     | Throws e => snd (showErrorState e w)
     end).

(** A call of [app.startDetection()].  A call that is not refused runs up
    to [await this.collectBasicSignals()] and returns a pending promise,
    also when [collectBasicSignals] throws: the exception rejects the
    promise that is awaited, and the [catch] and [finally] clauses run when
    the call is resumed. *)
Definition invoke (h : Host) (s : System) : Promise * System :=
  if isDetecting (world s) then (Fulfilled, s)
  else
    match (clearSteps ;; DeviceDetectionEngine.collectBasicSignals h)
            (set_isDetecting true (world s)) with
    | (Returns _, w) =>
        (Pending, {| world := w; inflight := pieces h :: inflight s |})
    | (Throws e, w) =>
        (Pending, {| world := w; inflight := [host (Throws e)] :: inflight s |})
    end.

(** The scheduler resumes the run that was suspended first. *)
Definition resume (s : System) : System :=
  match inflight s with
  | [] => s
  | [] :: rest => {| world := world s; inflight := rest |}
  | (piece :: more) :: rest =>
      match piece (world s), more with
      | (Returns _, w), _ :: _ => {| world := w; inflight := more :: rest |}
      | (o, w), _ => {| world := settle o w; inflight := rest |}
      end
  end.

(** The page at load: [init] has shown the loading state and is about to
    call [startDetection]. *)
Definition start : System :=
  {| world := snd (showLoadingState new); inflight := [] |}.

(** What the page can do: call [startDetection] (at load through [init],
    later through [HCFDetector.restart]) and let a suspended run go on. *)
Inductive reachable : System -> Prop :=
| reach_start : reachable start
| reach_invoke h s : reachable s -> reachable (snd (invoke h s))
| reach_resume s : reachable s -> reachable (resume s).

End DeviceDetectorApp.

(** ** Sample hosts *)

Module Hosts.

(** A Chromium browser on an Android phone: touch screen, dense display,
    Web NFC, getInstalledRelatedApps, VP9 but no HEVC decoding, none of
    the serial, HID and USB interfaces. *)
Definition android_phone : Host :=
  {| userAgent :=
       "Mozilla/5.0 (Linux; Android 13; Pixel 7) AppleWebKit/537.36 (KHTML, like Gecko) Chrome/116.0.0.0 Mobile Safari/537.36";
     maxTouchPoints := Some 5;
     matchMedia := fun q => Returns (String.eqb q "(pointer: coarse)");
     style_has := fun _ => false;
     window_has := fun n => String.eqb n "NDEFReader";
     safari_has := fun _ => false;
     navigator_has := fun n => String.eqb n "getInstalledRelatedApps"
                               || String.eqb n "mediaCapabilities";
     navigator_standalone := false;
     CSS_supports := fun _ _ => Returns true;
     devicePixelRatio := Some (21 # 8);
     screen_size := (412, 915);
     screen_avail := (412, 915);
     screen_colorDepth := 24;
     screen_orientation := Some 0;
     gl_strings := Returns (Some ("Qualcomm", "Adreno (TM) 730"));
     new_NDEFReader := Returns tt;
     decodingInfo := fun c => Returns (match c with
                                       | VP9_1080p | AV1_1080p => true
                                       | _ => false
                                       end);
     localStorage_setItem := Returns tt |}.

(** A desktop browser on Windows that has no [CSS] object: the call of
    [CSS.supports] throws. *)
Definition windows_no_CSS : Host :=
  {| userAgent :=
       "Mozilla/5.0 (Windows NT 10.0; Win64; x64) AppleWebKit/537.36 (KHTML, like Gecko) Chrome/116.0.0.0 Safari/537.36";
     maxTouchPoints := Some 0;
     matchMedia := fun q => Returns (String.eqb q "(pointer: fine)"
                                     || String.eqb q "(hover: hover)");
     style_has := fun _ => false;
     window_has := fun _ => false;
     safari_has := fun _ => false;
     navigator_has := fun _ => false;
     navigator_standalone := false;
     CSS_supports := fun _ _ => Throws (mkError "ReferenceError" "CSS is not defined");
     devicePixelRatio := Some 1%Q;
     screen_size := (1920, 1080);
     screen_avail := (1920, 1040);
     screen_colorDepth := 24;
     screen_orientation := Some 0;
     gl_strings := Returns None;
     new_NDEFReader := Throws (mkError "ReferenceError" "NDEFReader is not defined");
     decodingInfo := fun _ => Returns false;
     localStorage_setItem := Returns tt |}.

(** A host on which no signal fires and no probe throws. *)
Definition silent : Host :=
  {| userAgent := "Mozilla/5.0";
     maxTouchPoints := None;
     matchMedia := fun _ => Returns false;
     style_has := fun _ => false;
     window_has := fun _ => false;
     safari_has := fun _ => false;
     navigator_has := fun _ => false;
     navigator_standalone := false;
     CSS_supports := fun _ _ => Returns false;
     devicePixelRatio := None;
     screen_size := (800, 600);
     screen_avail := (800, 600);
     screen_colorDepth := 24;
     screen_orientation := None;
     gl_strings := Returns None;
     new_NDEFReader := Throws (mkError "ReferenceError" "NDEFReader is not defined");
     decodingInfo := fun _ => Returns false;
     localStorage_setItem := Returns tt |}.

End Hosts.

(** ** The score table on binary64 numbers

    [this.scores[target] += weight] adds two doubles and rounds the sum.
    The table above keeps the scores in [Z], where no sum is rounded; that
    is the table of the code as long as scores and weights are integers
    within 2^53, which the weights of the engine (2 to 8) never leave.  The
    table below keeps the rounding.  A double is held as the rational it
    stands for, in lowest terms; a sum is the nearest double to the exact
    sum.  Infinities, NaN and the sign of zero are left out (the exponent of
    [JSNumber.b64] has no bound). *)
Definition Scores64 : Type := list (string * Q).

Module Binary64.

(** The double nearest to a rational; a numeric literal is read so. *)
Definition double (q : Q) : Q := Qred (JSNumber.b64 q).

(** [a + b] on doubles. *)
Definition add (a b : Q) : Q := double (a + b).

Definition hasOwnProperty (o : Scores64) (k : string) : bool :=
  existsb (fun e => String.eqb (fst e) k) o.

Fixpoint get (o : Scores64) (k : string) : option Q :=
  match o with
  | [] => None
  | (k', v) :: r => if String.eqb k' k then Some v else get r k
  end.

Fixpoint set (o : Scores64) (k : string) (v : Q) : Scores64 :=
  match o with
  | [] => [(k, v)]
  | (k', v') :: r =>
      if String.eqb k' k then (k', v) :: r else (k', v') :: set r k v
  end.

Definition values (o : Scores64) : list Q := map snd o.

Definition zero_scores (names : list string) : Scores64 :=
  map (fun n => (n, 0%Q)) names.

(** The body of the [forEach] callback of [addScore]. *)
Definition addScore_target (weight : Q) (scores : Scores64) (target : string) : Scores64 :=
  if hasOwnProperty scores target then
    match get scores target with
    | Some v => set scores target (add v weight)
    | None => scores
    end
  else scores.

Definition addScore (targets : list string) (weight : Q) (scores : Scores64) : Scores64 :=
  fold_left (addScore_target (double weight)) targets scores.

(** [Math.max(...l)] *)
Definition Math_max (l : list Q) : option Q :=
  fold_left (fun acc x =>
               match acc with
               | None => Some x
               | Some a => Some (if Qle_bool a x then x else a)
               end) l None.

(** [Object.values(this.scores).reduce((a, b) => a + b, 0)] *)
Definition totalOf (scores : Scores64) : Q :=
  fold_left add (values scores) 0%Q.

Definition is_max (maxScore : option Q) (e : string * Q) : bool :=
  match maxScore with
  | Some m => Qeq_bool (snd e) m
  | None => false
  end.

Definition getTopOS (scores : Scores64) : Outcome TopOS :=
  let maxScore := Math_max (values scores) in
  let totalScore := totalOf scores in
  if (match maxScore with Some m => Qeq_bool m 0 | None => false end)
     || Qeq_bool totalScore 0
  then Returns {| os := OSScoreSystem.unknown_os; confidence := 0 |}
  else
    match find (is_max maxScore) scores, maxScore with
    | Some entry, Some m =>
        Returns {| os := fst entry;
                   confidence :=
                     JSNumber.Math_round
                       (JSNumber.mul (JSNumber.div m totalScore) 100) |}
    | _, _ => Throws (TypeError "Cannot read properties of undefined (reading '0')")
    end.

(** One call [addScore(targets, weight)] after the other. *)
Definition applyObservations (obs : list (list string * Q)) (scores : Scores64) : Scores64 :=
  fold_left (fun s ob => addScore (fst ob) (snd ob) s) obs scores.

(** A table and observations with integer numbers, as doubles. *)
Definition of_scores (s : Scores) : Scores64 :=
  map (fun e => (fst e, inject_Z (snd e))) s.

Definition of_observations (obs : list (list string * Z)) : list (list string * Q) :=
  map (fun ob => (fst ob, inject_Z (snd ob))) obs.

End Binary64.

(** ** Notions of the specification *)

(** An observation is one call [addScore(targets, weight)]. *)
Definition Observation : Type := (list string * Z)%type.

Definition applyObservations (obs : list Observation) (scores : Scores) : Scores :=
  fold_left (fun s ob => OSScoreSystem.addScore (fst ob) (snd ob) s) obs scores.

(** Modelled from the spec: [confidenceOf(hypothesis)].  The source has no
    query per hypothesis: [getTopOS] computes the percentage of the top score
    only.  This is the formula and the guard of [getTopOS], at the score of
    any hypothesis. *)
Definition confidenceOf (scores : Scores) (hypothesis : string) : Z :=
  let totalScore := OSScoreSystem.totalOf scores in
  if totalScore =? 0 then 0
  else match JSObject.get scores hypothesis with
       | Some score => OSScoreSystem.percent score totalScore
       | None => 0
       end.

Fixpoint sumZ (l : list Z) : Z :=
  match l with
  | [] => 0
  | x :: r => x + sumZ r
  end.

(** [sum(confidenceOf(h) for h in hypotheses)] *)
Definition confidenceSum (scores : Scores) : Z :=
  sumZ (map (confidenceOf scores) (JSObject.keys scores)).

(** The score of an entry goes up by [w]; the first entry under the key, as
    an object has one. *)
Fixpoint bump (k : string) (w : Z) (o : Scores) : Scores :=
  match o with
  | [] => []
  | (k', v) :: r =>
      if String.eqb k' k then (k', v + w) :: r else (k', v) :: bump k w r
  end.

(** The number of times [k] is among the targets. *)
Definition hits (k : string) (targets : list string) : Z :=
  Z.of_nat (List.length (filter (String.eqb k) targets)).

(** The relative error of one rounding to binary64, and a bound on what the
    two roundings of a percentage add up to. *)
Definition eps : Q := JSNumber.pow2 (-53).
Definition delta : Q := JSNumber.pow2 (-45).

(** A computation that leaves the [isDetecting] flag as it is. *)
Definition keeps_flag {A} (m : M A) : Prop :=
  forall w, isDetecting (snd (m w)) = isDetecting w.

(** At most one run is in flight, and [isDetecting] is set exactly while
    there is one. *)
Definition guarded (s : DeviceDetectorApp.System) : Prop :=
  Forall (Forall keeps_flag) (DeviceDetectorApp.inflight s)
  /\ ((DeviceDetectorApp.inflight s = [] /\ isDetecting (DeviceDetectorApp.world s) = false)
      \/ (exists t, DeviceDetectorApp.inflight s = [t] /\ t <> []
                    /\ isDetecting (DeviceDetectorApp.world s) = true)).

(** The state after the first call at load, on the Android host: the run is
    suspended after [collectBasicSignals]. *)
Definition suspended : DeviceDetectorApp.System :=
  snd (DeviceDetectorApp.invoke Hosts.android_phone DeviceDetectorApp.start).

(** The percentage of [a] in [b] agrees with the Standard Library's IEEE 754
    operations. *)
Definition agrees_with_SpecFloat (a b : Z) : bool :=
  match JSNumber.Q_of_SF (JSNumber.SF_percent a b) with
  | Some q => Qeq_bool q (JSNumber.mul (JSNumber.div (inject_Z a) (inject_Z b)) 100)
  | None => false
  end.

Definition upto (n : nat) : list Z := map Z.of_nat (seq 1 n).

(** The scores of the engine: the six hypotheses in their order, none
    negative. *)
Definition valid_scores (s : Scores) : Prop :=
  JSObject.keys s = OSScoreSystem.OS_names /\ Forall (fun e => 0 <= snd e) s.

(** The hypothesis [k] has a score of [v] or more. *)
Definition at_least (k : string) (v : Z) (s : Scores) : Prop :=
  exists v', JSObject.get s k = Some v' /\ v <= v'.

(** A computation that keeps a property of the scores. *)
Definition keeps_scores (P : Scores -> Prop) {A} (m : M A) : Prop :=
  forall w, P (scoreSystem (engine w)) -> P (scoreSystem (engine (snd (m w)))).

(** [n] turns of the scheduler. *)
Fixpoint resume_n (n : nat) (s : DeviceDetectorApp.System) : DeviceDetectorApp.System :=
  match n with
  | O => s
  | S k => resume_n k (DeviceDetectorApp.resume s)
  end.

(** ** Notions for the further properties *)

(** Every score multiplied by [c]. *)
Definition scale (c : Z) (s : Scores) : Scores :=
  map (fun e => (fst e, c * snd e)) s.

(** The score of a hypothesis, 0 for a name outside the table. *)
Definition score_of (s : Scores) (k : string) : Z :=
  match JSObject.get s k with
  | Some v => v
  | None => 0
  end.

(** Two tables over the same hypotheses, the first ahead of the second by
    [c k] at every hypothesis [k]. *)
Definition offset (c : string -> Z) (s1 s2 : Scores) : Prop :=
  JSObject.keys s1 = JSObject.keys s2
  /\ forall k v, JSObject.get s2 k = Some v -> JSObject.get s1 k = Some (v + c k).

(** A computation that does not look at the state it runs in: from two
    states it ends the same way, and it moves both tables of scores by the
    same amounts. *)
Definition score_blind {A} (m : M A) : Prop :=
  forall c w1 w2,
    offset c (scoreSystem (engine w1)) (scoreSystem (engine w2)) ->
    fst (m w1) = fst (m w2)
    /\ offset c (scoreSystem (engine (snd (m w1)))) (scoreSystem (engine (snd (m w2)))).

(** A computation that keeps a property of the page. *)
Definition keeps_page (P : Page -> Prop) {A} (m : M A) : Prop :=
  forall w, P (page w) -> P (page (snd (m w))).

(** The entries of the score board, without the widths. *)
Definition board_entries (p : Page) : list (string * Z) :=
  map (fun r => (row_os r, row_score r)) (scoreBoard p).

(** The state in which the engine starts, in a call that is not refused. *)
Definition entered (w : World) : World :=
  snd (DeviceDetectorApp.clearSteps (set_isDetecting true w)).

(** The order of the score board: [a] may stand before [b]. *)
Definition by_score (a b : string * Z) : Prop := snd b <= snd a.

(** What the engine writes to the list of steps: a step marked as fired,
    either with a positive weight and at least one target, every target a
    hypothesis of the table, or with neither weight nor targets (the
    snapshot of the signals). *)
Definition well_formed_step (st : Step) : bool :=
  ok st
  && match weight st, targets st with
     | Some v, _ :: _ =>
         (0 <? v)
         && forallb (fun t => existsb (String.eqb t) OSScoreSystem.OS_names) (targets st)
     | None, [] => true
     | _, _ => false
     end.

(** The score that the list of steps shows: for every step its weight, once
    for each of its targets. *)
Definition listed (l : list Step) : Z :=
  sumZ (map (fun st => match weight st with
                       | Some v => v * Z.of_nat (List.length (targets st))
                       | None => 0
                       end) l).

(** The part of the scores that the list of steps does not show. *)
Definition gap (w : World) : Z :=
  OSScoreSystem.totalOf (scoreSystem (engine w)) - listed (steps (page w)).

(** A computation on the engine's table that, when it returns, has added
    [d] more to the scores than to the list of steps. *)
Definition accounts {A} (d : Z) (m : M A) : Prop :=
  forall w,
    JSObject.keys (scoreSystem (engine w)) = OSScoreSystem.OS_names ->
    JSObject.keys (scoreSystem (engine (snd (m w)))) = OSScoreSystem.OS_names
    /\ forall a, fst (m w) = Returns a -> gap (snd (m w)) = gap w + d.

(** Targets that are hypotheses of the engine's table. *)
Definition known_targets (targets : list string) : bool :=
  forallb (fun t => existsb (fun k => String.eqb k t) OSScoreSystem.OS_names) targets.

(** What a run on host [h] adds to the scores without showing it: one
    point each for Windows and Linux on an NVIDIA GPU, and the two points of
    the NFC support that is inferred from the user agent. *)
Definition unlisted (h : Host) : Z :=
  (if String.eqb (WebGL.getGPUVendor (WebGL.getWebGLInfo h)) "nvidia" then 2 else 0)
  + (if NFC.hasNFCSupport h
        && (JSString.includes (JSString.toLowerCase (userAgent h)) "android"
            || JSString.includes (JSString.toLowerCase (userAgent h)) "iphone")
     then 2 else 0).

(** What a list of observations can add to the scores at most: every
    weight, once for each of its targets. *)
Definition mass (obs : list Observation) : Z :=
  sumZ (map (fun ob => snd ob * Z.of_nat (List.length (fst ob))) obs).

(** The host on which the three probes that the sources wrap in [try] do
    not throw but report absence: the canvas gives no WebGL context, the
    [NDEFReader] constructor succeeds, [decodingInfo] answers that the
    configuration is not supported. *)
Definition without_probe_exceptions (h : Host) : Host :=
  {| userAgent := userAgent h;
     maxTouchPoints := maxTouchPoints h;
     matchMedia := matchMedia h;
     style_has := style_has h;
     window_has := window_has h;
     safari_has := safari_has h;
     navigator_has := navigator_has h;
     navigator_standalone := navigator_standalone h;
     CSS_supports := CSS_supports h;
     devicePixelRatio := devicePixelRatio h;
     screen_size := screen_size h;
     screen_avail := screen_avail h;
     screen_colorDepth := screen_colorDepth h;
     screen_orientation := screen_orientation h;
     gl_strings := match gl_strings h with
                   | Throws _ => Returns None
                   | o => o
                   end;
     new_NDEFReader := Returns tt;
     decodingInfo := fun c => match decodingInfo h c with
                              | Throws _ => Returns false
                              | o => o
                              end;
     localStorage_setItem := localStorage_setItem h |}.

(** * Properties *)

(** ** The score table *)

Module LedgerFacts.
Import JSObject OSScoreSystem.

Lemma addScore_target_bump (w : Z) (o : Scores) (k : string) :
  addScore_target w o k = bump k w o.
Proof.
  unfold addScore_target.
  induction o as [|[k' v] r IH]; cbn [hasOwnProperty existsb get set bump fst]; [reflexivity|].
  destruct (String.eqb k' k) eqn:E; cbn [orb]; [reflexivity|].
  rewrite <- IH. unfold hasOwnProperty.
  destruct (existsb _ r); [|reflexivity].
  destruct (get r k); reflexivity.
Qed.

Lemma bump_keys (k : string) (w : Z) (o : Scores) : keys (bump k w o) = keys o.
Proof.
  unfold keys.
  induction o as [|[k' v] r IH]; cbn [bump]; [reflexivity|].
  destruct (String.eqb k' k); cbn [map fst]; [reflexivity|].
  f_equal. exact IH.
Qed.

Lemma bump_comm (k1 k2 : string) (w1 w2 : Z) (o : Scores) :
  bump k1 w1 (bump k2 w2 o) = bump k2 w2 (bump k1 w1 o).
Proof.
  induction o as [|[k' v] r IH]; cbn [bump]; [reflexivity|].
  destruct (String.eqb k' k1) eqn:E1, (String.eqb k' k2) eqn:E2;
    cbn [bump]; rewrite ?E1, ?E2; try reflexivity.
  - f_equal. f_equal. ring.
  - f_equal. exact IH.
Qed.

Lemma addScore_bumps (targets : list string) (w : Z) (o : Scores) :
  addScore targets w o = fold_left (fun s k => bump k w s) targets o.
Proof.
  unfold addScore. revert o.
  induction targets as [|t r IH]; intros o; cbn [fold_left]; [reflexivity|].
  rewrite addScore_target_bump. apply IH.
Qed.

Lemma bump_fold_comm (k : string) (w w' : Z) (targets : list string) (o : Scores) :
  bump k w (fold_left (fun s t => bump t w' s) targets o)
  = fold_left (fun s t => bump t w' s) targets (bump k w o).
Proof.
  revert o. induction targets as [|t r IH]; intros o; cbn [fold_left]; [reflexivity|].
  rewrite IH, bump_comm. reflexivity.
Qed.

(** Two observations can be applied in either order. *)
Lemma addScore_comm (t1 t2 : list string) (w1 w2 : Z) (o : Scores) :
  addScore t1 w1 (addScore t2 w2 o) = addScore t2 w2 (addScore t1 w1 o).
Proof.
  rewrite !addScore_bumps. revert o.
  induction t1 as [|k r IH]; intros o; cbn [fold_left]; [reflexivity|].
  rewrite <- IH, bump_fold_comm. reflexivity.
Qed.

Lemma addScore_keys (targets : list string) (w : Z) (o : Scores) :
  keys (addScore targets w o) = keys o.
Proof.
  rewrite addScore_bumps. revert o.
  induction targets as [|t r IH]; intros o; cbn [fold_left]; [reflexivity|].
  rewrite IH. apply bump_keys.
Qed.

Lemma applyObservations_keys (obs : list Observation) (o : Scores) :
  keys (applyObservations obs o) = keys o.
Proof.
  unfold applyObservations. revert o.
  induction obs as [|ob r IH]; intros o; cbn [fold_left]; [reflexivity|].
  rewrite IH. apply addScore_keys.
Qed.

(** *** Reading a score after an update *)

Lemma get_bump (k h : string) (w : Z) (o : Scores) :
  get (bump k w o) h
  = match get o h with
    | Some v => Some (if String.eqb h k then v + w else v)
    | None => None
    end.
Proof.
  induction o as [|[k' v] r IH]; cbn [bump get]; [reflexivity|].
  destruct (String.eqb k' k) eqn:E1; cbn [get].
  - apply String.eqb_eq in E1. subst k'.
    destruct (String.eqb k h) eqn:E2.
    + apply String.eqb_eq in E2. subst h. rewrite String.eqb_refl. reflexivity.
    + destruct (get r h); [|reflexivity].
      rewrite String.eqb_sym, E2. reflexivity.
  - destruct (String.eqb k' h) eqn:E2.
    + apply String.eqb_eq in E2. subst h. rewrite E1. reflexivity.
    + exact IH.
Qed.

Lemma get_addScore (targets : list string) (w : Z) (o : Scores) (h : string) :
  get (addScore targets w o) h
  = match get o h with
    | Some v => Some (v + w * hits h targets)
    | None => None
    end.
Proof.
  rewrite addScore_bumps. unfold hits. revert o.
  induction targets as [|t r IH]; intros o; cbn [fold_left filter List.length].
  - destruct (get o h); [f_equal; cbn; ring|reflexivity].
  - rewrite IH, get_bump. destruct (get o h) as [v|]; [|reflexivity].
    destruct (String.eqb h t); f_equal.
    cbn [List.length]. rewrite Nat2Z.inj_succ. ring.
Qed.

Lemma get_None_not_key (o : Scores) (h : string) :
  get o h = None <-> ~ In h (keys o).
Proof.
  induction o as [|[k v] r IH]; cbn [get keys map fst In].
  - tauto.
  - destruct (String.eqb k h) eqn:E.
    + apply String.eqb_eq in E. split; [discriminate|]. intros N. exfalso. auto.
    + apply String.eqb_neq in E. rewrite IH. unfold keys. tauto.
Qed.

Lemma bump_not_key (k : string) (w : Z) (o : Scores) :
  ~ In k (keys o) -> bump k w o = o.
Proof.
  induction o as [|[k' v] r IH]; cbn [bump keys map fst In]; intros N; [reflexivity|].
  destruct (String.eqb k' k) eqn:E.
  - apply String.eqb_eq in E. exfalso. auto.
  - f_equal. apply IH. unfold keys. tauto.
Qed.

End LedgerFacts.

(** ** The top-hypothesis query *)

Module TopFacts.
Import JSObject OSScoreSystem.

Lemma fold_add (l : list Z) (a : Z) :
  fold_left (fun x y => x + y) l a = a + sumZ l.
Proof.
  revert a. induction l as [|x r IH]; intros a; cbn [fold_left sumZ].
  - ring.
  - rewrite IH. ring.
Qed.

Lemma totalOf_sum (s : Scores) : totalOf s = sumZ (values s).
Proof. unfold totalOf. rewrite fold_add. ring. Qed.

Lemma sumZ_app (l1 l2 : list Z) : sumZ (l1 ++ l2) = sumZ l1 + sumZ l2.
Proof.
  induction l1 as [|x r IH]; cbn [app sumZ]; [ring|].
  rewrite IH. ring.
Qed.

Lemma sumZ_nonneg (l : list Z) : Forall (fun x => 0 <= x) l -> 0 <= sumZ l.
Proof.
  induction 1 as [|x r Hx _ IH]; cbn [sumZ]; [lia|].
  lia.
Qed.

Lemma sumZ_bound (l : list Z) (m : Z) :
  Forall (fun x => x <= m) l -> sumZ l <= Z.of_nat (List.length l) * m.
Proof.
  induction 1 as [|x r Hx _ IH]; cbn [sumZ List.length]; [lia|].
  lia.
Qed.

Lemma In_le_sumZ (l : list Z) (x : Z) :
  Forall (fun y => 0 <= y) l -> In x l -> x <= sumZ l.
Proof.
  induction 1 as [|y r Hy Hr IH]; cbn [In sumZ]; [tauto|].
  pose proof (sumZ_nonneg r Hr).
  intros [->|Hin]; [lia|]. specialize (IH Hin). lia.
Qed.

Lemma sumZ_zero (l : list Z) : Forall (fun x => x = 0) l -> sumZ l = 0.
Proof.
  induction 1 as [|x r Hx _ IH]; cbn [sumZ]; [reflexivity|].
  lia.
Qed.

(** *** [Math.max] *)

Lemma max_fold_from (l : list Z) (a : Z) :
  fold_left (fun acc x => match acc with
                          | None => Some x
                          | Some b => Some (Z.max b x)
                          end) l (Some a)
  = Some (fold_left Z.max l a).
Proof.
  revert a. induction l as [|x r IH]; intros a; cbn [fold_left]; [reflexivity|].
  apply IH.
Qed.

Lemma fold_max_spec (l : list Z) (a : Z) :
  let m := fold_left Z.max l a in
  a <= m /\ Forall (fun x => x <= m) l /\ (m = a \/ In m l).
Proof.
  revert a. induction l as [|x r IH]; intros a; cbn [fold_left].
  - repeat split; [lia|constructor|left; reflexivity].
  - destruct (IH (Z.max a x)) as (H1 & H2 & H3).
    repeat split.
    + lia.
    + constructor; [lia|exact H2].
    + destruct H3 as [H3|H3]; [|right; right; exact H3].
      destruct (Z.max_spec a x) as [[_ E]|[_ E]].
      * right; left. rewrite H3. symmetry. exact E.
      * left. rewrite H3. exact E.
Qed.

Lemma Math_max_nil : JSNumber.Math_max [] = None.
Proof. reflexivity. Qed.

Lemma Math_max_spec (l : list Z) (m : Z) :
  JSNumber.Math_max l = Some m <-> In m l /\ Forall (fun x => x <= m) l.
Proof.
  destruct l as [|a r].
  - cbn. split; [discriminate|tauto].
  - unfold JSNumber.Math_max. cbn [fold_left]. rewrite max_fold_from.
    destruct (fold_max_spec r a) as (H1 & H2 & H3).
    set (m' := fold_left Z.max r a) in *. split.
    + intros E. injection E as <-. split.
      * destruct H3 as [->|H3]; [left; reflexivity|right; exact H3].
      * constructor; assumption.
    + intros [Hin Hall]. f_equal.
      assert (m' <= m).
      { destruct H3 as [->|H3].
        - inversion Hall; assumption.
        - rewrite Forall_forall in Hall. apply Hall. right. exact H3. }
      assert (m <= m').
      { destruct Hin as [<-|Hin]; [exact H1|].
        rewrite Forall_forall in H2. apply H2. exact Hin. }
      lia.
Qed.

Lemma Math_max_some (l : list Z) :
  l <> [] -> exists m, JSNumber.Math_max l = Some m.
Proof.
  destruct l as [|a r]; [congruence|]. intros _.
  unfold JSNumber.Math_max. cbn [fold_left]. rewrite max_fold_from. eauto.
Qed.

(** *** [find] on the entries *)

Lemma find_first_max (pre post : Scores) (k : string) (m : Z) :
  Forall (fun e => snd e < m) pre ->
  find (is_max (Some m)) (pre ++ (k, m) :: post) = Some (k, m).
Proof.
  induction 1 as [|e r He _ IH]; cbn [app find is_max snd].
  - rewrite Z.eqb_refl. reflexivity.
  - destruct (Z.eqb_spec (snd e) m); [lia|exact IH].
Qed.

Lemma find_max_some (s : Scores) (m : Z) :
  In m (values s) -> exists e, find (is_max (Some m)) s = Some e /\ snd e = m.
Proof.
  unfold values. induction s as [|e r IH]; cbn [map In find is_max]; [tauto|].
  intros H. destruct (Z.eqb_spec (snd e) m) as [E|E].
  - exists e. split; [reflexivity|exact E].
  - destruct H as [H|H]; [contradiction|]. apply IH. exact H.
Qed.

(** [getTopOS] returns on every table: [find] cannot miss, the maximum
    being one of the values. *)
Lemma getTopOS_returns (s : Scores) : exists r, getTopOS s = Returns r.
Proof.
  unfold getTopOS.
  destruct (JSNumber.Math_max (values s)) as [m|] eqn:E.
  - destruct ((m =? 0) || (totalOf s =? 0)); [eauto|].
    apply Math_max_spec in E. destruct E as [Hin _].
    destruct (find_max_some s m Hin) as (e & -> & _). eauto.
  - destruct s as [|e r]; [cbn; eauto|].
    destruct (Math_max_some (values (e :: r))) as [m Hm]; [discriminate|].
    congruence.
Qed.

Lemma values_app (a b : Scores) : values (a ++ b) = values a ++ values b.
Proof. apply map_app. Qed.

End TopFacts.

(** ** Binary64 rounding *)

Module NumberFacts.
Import JSNumber.
Local Open Scope Q_scope.

Lemma pow2_pos (e : Z) : 0 < pow2 e.
Proof. apply Qpower_0_lt. reflexivity. Qed.

Lemma pow2_add (a b : Z) : pow2 (a + b) == pow2 a * pow2 b.
Proof. apply Qpower_plus. discriminate. Qed.

Lemma pow2_inject (n : Z) : (0 <= n)%Z -> pow2 n == inject_Z (2 ^ n).
Proof. intros Hn. unfold pow2. rewrite Zpower_Qpower by exact Hn. reflexivity. Qed.

Lemma inject_Z_pos (z : Z) : (0 < z)%Z -> 0 < inject_Z z.
Proof. intros H. rewrite <- (Zlt_Qlt 0). exact H. Qed.

(** A quotient of powers of two against a quotient of positive integers. *)
Lemma pow2_sub_le (a b la lb : Z) :
  (0 < b)%Z -> (0 <= la)%Z -> (0 <= lb)%Z ->
  (2 ^ la <= a)%Z -> (b <= 2 ^ lb)%Z ->
  pow2 (la - lb) <= inject_Z a / inject_Z b.
Proof.
  intros Hb Hla Hlb H1 H2.
  unfold pow2. rewrite Qpower_minus by discriminate.
  fold (pow2 la). fold (pow2 lb). rewrite !pow2_inject by assumption.
  assert (Hpb : (0 < 2 ^ lb)%Z) by (apply Z.pow_pos_nonneg; lia).
  assert (Hpa : (0 < 2 ^ la)%Z) by (apply Z.pow_pos_nonneg; lia).
  apply Qle_shift_div_l; [apply inject_Z_pos; exact Hb|].
  unfold Qdiv. rewrite <- Qmult_assoc, (Qmult_comm (/ _)), Qmult_assoc.
  apply Qle_shift_div_r; [apply inject_Z_pos; exact Hpb|].
  rewrite <- !inject_Z_mult, <- Zle_Qle. nia.
Qed.

Lemma pow2_sub_gt (a b la lb : Z) :
  (0 < b)%Z -> (0 <= la)%Z -> (0 <= lb)%Z ->
  (a < 2 ^ la)%Z -> (2 ^ lb <= b)%Z ->
  inject_Z a / inject_Z b < pow2 (la - lb).
Proof.
  intros Hb Hla Hlb H1 H2.
  unfold pow2. rewrite Qpower_minus by discriminate.
  fold (pow2 la). fold (pow2 lb). rewrite !pow2_inject by assumption.
  assert (Hpb : (0 < 2 ^ lb)%Z) by (apply Z.pow_pos_nonneg; lia).
  apply Qlt_shift_div_r; [apply inject_Z_pos; exact Hb|].
  unfold Qdiv. rewrite <- Qmult_assoc, (Qmult_comm (/ _)), Qmult_assoc.
  apply Qlt_shift_div_l; [apply inject_Z_pos; exact Hpb|].
  rewrite <- !inject_Z_mult, <- Zlt_Qlt. nia.
Qed.

Lemma ilog2_spec (q : Q) :
  0 < q -> pow2 (ilog2 q) <= q /\ q < pow2 (ilog2 q + 1).
Proof.
  intros Hq. destruct q as [a b].
  assert (Ha : (0 < a)%Z) by (unfold Qlt in Hq; simpl in Hq; lia).
  destruct (Z.log2_spec a Ha) as [La Ua].
  destruct (Z.log2_spec (Zpos b) (Pos2Z.is_pos b)) as [Lb Ub].
  pose proof (Z.log2_nonneg a) as Na.
  pose proof (Z.log2_nonneg (Zpos b)) as Nb.
  unfold ilog2; cbn [Qnum Qden].
  set (la := Z.log2 a) in *. set (lb := Z.log2 (Zpos b)) in *.
  assert (E : a # b == inject_Z a / inject_Z (Zpos b)) by apply Qmake_Qdiv.
  destruct (Qle_bool (pow2 (la - lb)) (a # b)) eqn:C.
  - split; [apply Qle_bool_iff; exact C|].
    rewrite E. replace (la - lb + 1)%Z with (Z.succ la - lb)%Z by lia.
    apply pow2_sub_gt; lia.
  - split.
    + rewrite E. replace (la - lb - 1)%Z with (la - Z.succ lb)%Z by lia.
      apply pow2_sub_le; lia.
    + replace (la - lb - 1 + 1)%Z with (la - lb)%Z by lia.
      apply Qnot_le_lt. intros L. apply Qle_bool_iff in L. congruence.
Qed.

Lemma round_even_close (x : Q) :
  x - (1 # 2) <= inject_Z (round_even x) <= x + (1 # 2).
Proof.
  unfold round_even.
  pose proof (Qfloor_le x) as L. pose proof (Qlt_floor x) as U.
  rewrite inject_Z_plus in U. change (inject_Z 1) with 1 in U.
  set (f := Qfloor x) in *.
  destruct (Qcompare_spec (x - inject_Z f) (1 # 2)) as [E|E|E].
  - destruct (Z.even f).
    + lra.
    + rewrite inject_Z_plus. change (inject_Z 1) with 1. lra.
  - lra.
  - rewrite inject_Z_plus. change (inject_Z 1) with 1. lra.
Qed.

(** The relative error of one rounding is at most [2^-53]. *)
Lemma b64_pos_close (q : Q) :
  0 < q -> q - q * eps <= b64_pos q <= q + q * eps.
Proof.
  intros Hq. unfold b64_pos.
  destruct (ilog2_spec q Hq) as [L _].
  set (e := ilog2 q) in *. set (u := pow2 (e - 52)).
  assert (Hu : 0 < u) by apply pow2_pos.
  assert (Eu : u == pow2 e * (2 * eps)).
  { unfold u. replace (e - 52)%Z with (e + -52)%Z by lia.
    rewrite pow2_add. apply Qmult_comp; reflexivity. }
  pose proof (round_even_close (q / u)) as R.
  set (r := inject_Z (round_even (q / u))) in *.
  assert (Et : u * (q / u) == q) by (apply Qmult_div_r; lra).
  set (t := q / u) in *.
  assert (He : 0 < eps) by apply pow2_pos.
  set (p := pow2 e) in *.
  assert (Hp : 0 < p) by apply pow2_pos.
  nra.
Qed.

Lemma eps_value : eps == 1 # 9007199254740992.
Proof. vm_compute. reflexivity. Qed.

Lemma b64_close (q : Q) :
  0 <= q -> q - q * eps <= b64 q <= q + q * eps.
Proof.
  intros Hq. unfold b64. pose proof eps_value as E.
  destruct (Qcompare_spec q 0) as [C|C|C].
  - nra.
  - lra.
  - apply b64_pos_close; exact C.
Qed.

(** [Math.round] is within a half of its argument. *)
Lemma Math_round_close (x : Q) :
  x - (1 # 2) < inject_Z (Math_round x) <= x + (1 # 2).
Proof.
  unfold Math_round.
  pose proof (Qfloor_le (x + (1 # 2))) as L.
  pose proof (Qlt_floor (x + (1 # 2))) as U.
  rewrite inject_Z_plus in U. change (inject_Z 1) with 1 in U.
  lra.
Qed.

(** The two roundings together move the percentage by less than [2^-45]. *)
Lemma delta_value : delta == 1 # 35184372088832.
Proof. vm_compute. reflexivity. Qed.

Lemma ratio_bounds (s t : Z) :
  (0 <= s <= t)%Z -> (0 < t)%Z ->
  0 <= inject_Z s / inject_Z t <= 1.
Proof.
  intros Hs Ht. pose proof (inject_Z_pos t Ht) as Pt. split.
  - apply Qle_shift_div_l; [exact Pt|]. rewrite Qmult_0_l.
    rewrite <- (Zle_Qle 0). lia.
  - apply Qle_shift_div_r; [exact Pt|]. rewrite Qmult_1_l.
    rewrite <- Zle_Qle. lia.
Qed.

Lemma percent_of_ratio (x : Q) :
  0 <= x <= 1 ->
  100 * x - (1 # 2) - delta < inject_Z (Math_round (mul (b64 x) 100))
  /\ inject_Z (Math_round (mul (b64 x) 100)) <= 100 * x + (1 # 2) + delta.
Proof.
  intros Hx. unfold mul.
  pose proof eps_value as E. pose proof delta_value as D.
  pose proof (b64_close x (proj1 Hx)) as B1.
  set (d := b64 x) in *.
  assert (Hd : 0 <= d * 100) by nra.
  pose proof (b64_close (d * 100) Hd) as B2.
  set (p := b64 (d * 100)) in *.
  pose proof (Math_round_close p) as R.
  set (m := inject_Z (Math_round p)) in *.
  split; nra.
Qed.

(** The confidence is within a half, and the rounding error of the two
    operations, of the exact percentage. *)
Lemma percent_close (s t : Z) :
  (0 <= s <= t)%Z -> (0 < t)%Z ->
  100 * (inject_Z s / inject_Z t) - (1 # 2) - delta
  < inject_Z (OSScoreSystem.percent s t)
  /\ inject_Z (OSScoreSystem.percent s t)
     <= 100 * (inject_Z s / inject_Z t) + (1 # 2) + delta.
Proof.
  intros Hs Ht. unfold OSScoreSystem.percent, div.
  apply percent_of_ratio. apply ratio_bounds; assumption.
Qed.

Lemma percent_zero (t : Z) : OSScoreSystem.percent 0 t = 0%Z.
Proof.
  unfold OSScoreSystem.percent, div, mul.
  assert (E : inject_Z 0 / inject_Z t == 0) by (unfold Qdiv; ring).
  unfold b64 at 2. destruct (Qcompare_spec (inject_Z 0 / inject_Z t) 0) as [C|C|C].
  - reflexivity.
  - rewrite E in C. discriminate.
  - rewrite E in C. discriminate.
Qed.

(** The rounding above is the one of IEEE 754 binary64: on every pair of
    integers from 1 to 80 the percentage is the number that the Standard
    Library's [SFdiv] and [SFmul] compute. *)
Lemma percent_agrees_with_SpecFloat :
  forallb (fun b => forallb (fun a => agrees_with_SpecFloat a b) (upto 80)) (upto 80) = true.
Proof. vm_compute. reflexivity. Qed.

End NumberFacts.

(** ** Tie-break, no evidence, order of the observations *)

Section TopHypothesis.
Import JSObject OSScoreSystem TopFacts.

(** C2.  When several hypotheses share the highest score, which is not
    zero, [getTopOS] names the one declared first: if every entry before
    [(k, m)] scores strictly less than [m] and every entry after it scores
    at most [m] (the entries that tie with [k] are among these), the
    result names [k].  The result is a function of the scores, the same on
    every call.  The engine's table enumerates macOS, Windows, Linux, iOS,
    iPadOS, Android. *)
Theorem getTopOS_first_declared_wins (pre post : Scores) (k : string) (m : Z) :
  0 < m ->
  Forall (fun e => 0 <= snd e < m) pre ->
  Forall (fun e => 0 <= snd e <= m) post ->
  getTopOS (pre ++ (k, m) :: post)
  = Returns {| os := k;
               confidence := percent m (totalOf (pre ++ (k, m) :: post)) |}.
Proof.
  intros Hm Hpre Hpost.
  set (s := pre ++ (k, m) :: post).
  assert (Hv : values s = values pre ++ m :: values post).
  { unfold s. rewrite values_app. reflexivity. }
  assert (Hmax : JSNumber.Math_max (values s) = Some m).
  { apply Math_max_spec. rewrite Hv. split.
    - apply in_or_app. right. left. reflexivity.
    - apply Forall_app. split; [|constructor; [lia|]].
      + unfold values. apply Forall_map.
        eapply Forall_impl; [|exact Hpre]. cbn beta. intros a Ha. lia.
      + unfold values. apply Forall_map.
        eapply Forall_impl; [|exact Hpost]. cbn beta. intros a Ha. lia. }
  assert (Htot : m <= totalOf s).
  { rewrite totalOf_sum, Hv, sumZ_app. cbn [sumZ].
    assert (0 <= sumZ (values pre)).
    { apply sumZ_nonneg. unfold values. apply Forall_map.
      eapply Forall_impl; [|exact Hpre]. cbn beta. intros a Ha. lia. }
    assert (0 <= sumZ (values post)).
    { apply sumZ_nonneg. unfold values. apply Forall_map.
      eapply Forall_impl; [|exact Hpost]. cbn beta. intros a Ha. lia. }
    lia. }
  unfold getTopOS. rewrite Hmax.
  destruct (Z.eqb_spec m 0); [lia|].
  destruct (Z.eqb_spec (totalOf s) 0); [lia|].
  cbn [orb]. unfold s at 1. rewrite find_first_max.
  - reflexivity.
  - eapply Forall_impl; [|exact Hpre]. cbn beta. intros a Ha. lia.
Qed.

(** macOS and Windows tie at 5: macOS, declared first, is named. *)
Lemma getTopOS_first_declared_wins_witness :
  getTopOS [("macOS", 5); ("Windows", 5); ("Linux", 0); ("iOS", 0);
            ("iPadOS", 0); ("Android", 0)]
  = Returns {| os := "macOS"; confidence := 50 |}.
Proof.
  refine (eq_trans
    (getTopOS_first_declared_wins []
       [("Windows", 5); ("Linux", 0); ("iOS", 0); ("iPadOS", 0); ("Android", 0)]
       "macOS" 5 _ _ _) _).
  - lia.
  - constructor.
  - repeat constructor; cbn; lia.
  - vm_compute. reflexivity.
Defined.

(** C3.  When every score is 0, [getTopOS] returns the sentinel 未知 with
    confidence 0; it returns, it does not throw. *)
Theorem getTopOS_no_evidence (s : Scores) :
  Forall (fun e => snd e = 0) s ->
  getTopOS s = Returns {| os := unknown_os; confidence := 0 |}.
Proof.
  intros Hz. unfold getTopOS.
  assert (E : totalOf s = 0).
  { rewrite totalOf_sum. apply sumZ_zero. unfold values.
    apply Forall_map. exact Hz. }
  rewrite E. cbn [Z.eqb]. rewrite orb_true_r. reflexivity.
Qed.

Lemma getTopOS_no_evidence_witness :
  getTopOS OSScoreSystem.new = Returns {| os := unknown_os; confidence := 0 |}.
Proof.
  apply (getTopOS_no_evidence OSScoreSystem.new).
  repeat constructor.
Defined.

(** A run in which no signal fires ends with that result. *)
Lemma silent_run_is_unknown :
  fst (DeviceDetectionEngine.startDetection Hosts.silent DeviceDetectorApp.new)
  = Returns {| os := unknown_os; confidence := 0 |}.
Proof. vm_compute. reflexivity. Qed.

(** The tie of the specification: A and B at 5, C at 0. *)
Lemma tie_A_B :
  getTopOS (applyObservations [(["A"], 5); (["B"], 5)] (zero_scores ["A"; "B"; "C"]))
  = Returns {| os := "A"; confidence := 50 |}.
Proof. vm_compute. reflexivity. Qed.

End TopHypothesis.

Section Observations.
Import JSObject OSScoreSystem LedgerFacts.

Lemma applyObservations_perm (obs1 obs2 : list Observation) (s : Scores) :
  Permutation obs1 obs2 -> applyObservations obs1 s = applyObservations obs2 s.
Proof.
  unfold applyObservations. intros P. revert s.
  induction P as [|x l l' _ IH|x y l|l l' l'' _ IH1 _ IH2]; intros s; cbn [fold_left].
  - reflexivity.
  - apply IH.
  - rewrite addScore_comm. reflexivity.
  - rewrite IH1. apply IH2.
Qed.

End Observations.

(** ** What a step changes *)

Module RunFacts.
Import DeviceDetectionEngine.

Lemma keeps_ret {A} (a : A) : keeps_flag (ret a).
Proof. intros w. reflexivity. Qed.

Lemma keeps_bind {A B} (m : M A) (k : A -> M B) :
  keeps_flag m -> (forall a, keeps_flag (k a)) -> keeps_flag (bind m k).
Proof.
  intros Hm Hk w. unfold bind. specialize (Hm w).
  destruct (m w) as [[a|e] w']; cbn [snd] in *.
  - rewrite Hk. exact Hm.
  - exact Hm.
Qed.

Lemma keeps_host {A} (o : Outcome A) : keeps_flag (host o).
Proof. intros w. reflexivity. Qed.

Lemma keeps_update_engine (f : Engine -> Engine) : keeps_flag (update_engine f).
Proof. intros w. reflexivity. Qed.

Lemma keeps_update_page (f : Page -> Page) : keeps_flag (update_page f).
Proof. intros w. reflexivity. Qed.

Lemma keeps_when (b : bool) (m : M unit) : keeps_flag m -> keeps_flag (when b m).
Proof. intros Hm. destruct b; [exact Hm|apply keeps_ret]. Qed.

Lemma keeps_if {A} (b : bool) (m1 m2 : M A) :
  keeps_flag m1 -> keeps_flag m2 -> keeps_flag (if b then m1 else m2).
Proof. destruct b; auto. Qed.

Lemma keeps_read {A} (f : World -> Outcome A) : keeps_flag (fun w => (f w, w)).
Proof. intros w. reflexivity. Qed.

Lemma keeps_save (h : Host) (r : TopOS) :
  keeps_flag (DeviceDetectorApp.saveDetectionResult h r).
Proof.
  intros w. unfold DeviceDetectorApp.saveDetectionResult.
  destruct (localStorage_setItem h); reflexivity.
Qed.

Create HintDb flag.
#[local] Hint Resolve keeps_ret keeps_host keeps_update_engine keeps_update_page
  keeps_read keeps_save : flag.
#[local] Hint Extern 1 (keeps_flag (bind _ _)) => apply keeps_bind; [|intros ?] : flag.
#[local] Hint Extern 1 (keeps_flag (when _ _)) => apply keeps_when : flag.
#[local] Hint Extern 1 (keeps_flag (if _ then _ else _)) => apply keeps_if : flag.
Lemma keeps_fire title targets weight : keeps_flag (fire title targets weight).
Proof. unfold fire, addScore, Dom.addStep. auto 10 with flag. Qed.

#[local] Hint Resolve keeps_fire : flag.

Lemma keeps_collectBasicSignals h : keeps_flag (collectBasicSignals h).
Proof. unfold collectBasicSignals, update_signals. auto 20 with flag. Qed.

Lemma keeps_collectAppleSignals h : keeps_flag (collectAppleSignals h).
Proof. unfold collectAppleSignals, update_signals. auto 20 with flag. Qed.

Lemma keeps_collectAndroidSignals h : keeps_flag (collectAndroidSignals h).
Proof. unfold collectAndroidSignals, update_signals. auto 20 with flag. Qed.

Lemma keeps_collectDesktopSignals h : keeps_flag (collectDesktopSignals h).
Proof. unfold collectDesktopSignals, update_signals. auto 20 with flag. Qed.

Lemma keeps_collectDisplaySignals h : keeps_flag (collectDisplaySignals h).
Proof. unfold collectDisplaySignals, update_signals. auto 20 with flag. Qed.

Lemma keeps_performWebGLDetection h : keeps_flag (performWebGLDetection h).
Proof.
  unfold performWebGLDetection, addScore, Dom.addStep.
  destruct (WebGL.getWebGLInfo h); auto 30 with flag.
Qed.

Lemma keeps_performNFCDetection h : keeps_flag (performNFCDetection h).
Proof. unfold performNFCDetection, addScore. auto 20 with flag. Qed.

Lemma keeps_performMediaDetection h : keeps_flag (performMediaDetection h).
Proof. unfold performMediaDetection. auto 20 with flag. Qed.

Lemma keeps_performUserAgentAnalysis h : keeps_flag (performUserAgentAnalysis h).
Proof. unfold performUserAgentAnalysis. auto 30 with flag. Qed.

Lemma keeps_finish : keeps_flag finish.
Proof.
  unfold finish, Dom.updateConfidence, Dom.updateScoreBoard, addSignalSnapshot,
    Dom.addStep.
  auto 30 with flag.
Qed.

Lemma keeps_pieces h : Forall keeps_flag (DeviceDetectorApp.pieces h).
Proof.
  unfold DeviceDetectorApp.pieces.
  repeat constructor;
    auto using keeps_collectAppleSignals, keeps_collectAndroidSignals,
      keeps_collectDesktopSignals, keeps_collectDisplaySignals,
      keeps_performWebGLDetection, keeps_performNFCDetection,
      keeps_performMediaDetection.
  apply keeps_bind; [apply keeps_performUserAgentAnalysis|intros _].
  apply keeps_bind; [apply keeps_finish|intros r].
  unfold DeviceDetectorApp.removeLoading. auto 10 with flag.
Qed.

(** *** Sequencing *)

Lemma run_steps_app (l1 l2 : list (M unit)) (w : World) :
  run_steps (l1 ++ l2) w
  = match run_steps l1 w with
    | (Returns _, w') => run_steps l2 w'
    | (Throws e, w') => (Throws e, w')
    end.
Proof.
  revert w. induction l1 as [|s r IH]; intros w; cbn [app run_steps].
  - reflexivity.
  - unfold bind. destruct (s w) as [[[]|e] w']; [apply IH|reflexivity].
Qed.


(** *** What a run keeps of the scores *)

Lemma bump_nonneg (k : string) (w : Z) (o : Scores) :
  0 <= w -> Forall (fun e => 0 <= snd e) o -> Forall (fun e => 0 <= snd e) (bump k w o).
Proof.
  intros Hw. induction 1 as [|[k' v] r Hv Hr IH]; cbn [bump]; [constructor|].
  destruct (String.eqb k' k); constructor; cbn [snd] in *; try assumption. lia.
Qed.

Lemma addScore_valid (targets : list string) (w : Z) (s : Scores) :
  0 <= w -> valid_scores s -> valid_scores (OSScoreSystem.addScore targets w s).
Proof.
  intros Hw [Hk Hn]. split.
  - rewrite LedgerFacts.addScore_keys. exact Hk.
  - rewrite LedgerFacts.addScore_bumps. clear Hk. revert s Hn.
    induction targets as [|t r IH]; intros s Hn; cbn [fold_left]; [exact Hn|].
    apply IH. apply bump_nonneg; assumption.
Qed.

Lemma addScore_at_least (k : string) (v : Z) (targets : list string) (w : Z) (s : Scores) :
  0 <= w -> at_least k v s -> at_least k v (OSScoreSystem.addScore targets w s).
Proof.
  intros Hw (v' & Hg & Hle). unfold at_least.
  rewrite LedgerFacts.get_addScore, Hg. eexists. split; [reflexivity|].
  unfold hits. nia.
Qed.

Section ScoresInvariant.

(** A property of the scores that adding a weight that is not negative
    keeps. *)
Variable P : Scores -> Prop.
Hypothesis P_addScore :
  forall targets w s, 0 <= w -> P s -> P (OSScoreSystem.addScore targets w s).

Lemma inv_ret {A} (a : A) : keeps_scores P (ret a).
Proof. intros w H. exact H. Qed.

Lemma inv_bind {A B} (m : M A) (k : A -> M B) :
  keeps_scores P m -> (forall a, keeps_scores P (k a)) -> keeps_scores P (bind m k).
Proof.
  intros Hm Hk w H. unfold bind. specialize (Hm w H).
  destruct (m w) as [[a|e] w']; cbn [snd] in *.
  - apply Hk. exact Hm.
  - exact Hm.
Qed.

Lemma inv_host {A} (o : Outcome A) : keeps_scores P (host o).
Proof. intros w H. exact H. Qed.

Lemma inv_update_page (f : Page -> Page) : keeps_scores P (update_page f).
Proof. intros w H. exact H. Qed.

Lemma inv_update_signals (f : Signals -> Signals) : keeps_scores P (update_signals f).
Proof. intros w H. exact H. Qed.

Lemma inv_read {A} (f : World -> Outcome A) : keeps_scores P (fun w => (f w, w)).
Proof. intros w H. exact H. Qed.

Lemma inv_when (b : bool) (m : M unit) : keeps_scores P m -> keeps_scores P (when b m).
Proof. intros Hm. destruct b; [exact Hm|apply inv_ret]. Qed.

Lemma inv_if {A} (b : bool) (m1 m2 : M A) :
  keeps_scores P m1 -> keeps_scores P m2 -> keeps_scores P (if b then m1 else m2).
Proof. destruct b; auto. Qed.

Lemma inv_addScore (targets : list string) (w : Z) :
  0 <= w -> keeps_scores P (addScore targets w).
Proof. intros Hw world H. cbn. apply P_addScore; assumption. Qed.

Lemma inv_fire title targets w : 0 <= w -> keeps_scores P (fire title targets w).
Proof.
  intros Hw. unfold fire, Dom.addStep.
  apply inv_bind; [apply inv_addScore; exact Hw|intros _; apply inv_update_page].
Qed.

Lemma inv_save (h : Host) (r : TopOS) :
  keeps_scores P (DeviceDetectorApp.saveDetectionResult h r).
Proof.
  intros w H. unfold DeviceDetectorApp.saveDetectionResult.
  destruct (localStorage_setItem h); exact H.
Qed.

Create HintDb scores.
#[local] Hint Resolve inv_ret inv_host inv_update_page inv_update_signals
  inv_read inv_save : scores.
#[local] Hint Extern 1 (keeps_scores _ (bind _ _)) => apply inv_bind; [|intros ?] : scores.
#[local] Hint Extern 1 (keeps_scores _ (when _ _)) => apply inv_when : scores.
#[local] Hint Extern 1 (keeps_scores _ (if _ then _ else _)) => apply inv_if : scores.
#[local] Hint Extern 1 (keeps_scores _ (fire _ _ _)) => apply inv_fire; lia : scores.
#[local] Hint Extern 1 (keeps_scores _ (addScore _ _)) => apply inv_addScore; lia : scores.

(** Every step of the engine adds weights that are not negative. *)
Lemma inv_detection_steps (h : Host) : Forall (keeps_scores P) (detection_steps h).
Proof.
  unfold detection_steps.
  repeat match goal with
         | |- Forall _ (_ :: _) => apply Forall_cons
         | |- Forall _ [] => apply Forall_nil
         end.
  - unfold collectBasicSignals. auto 20 with scores.
  - unfold collectAppleSignals. auto 20 with scores.
  - unfold collectAndroidSignals. auto 20 with scores.
  - unfold collectDesktopSignals. auto 20 with scores.
  - unfold collectDisplaySignals. auto 20 with scores.
  - unfold performWebGLDetection, Dom.addStep.
    destruct (WebGL.getWebGLInfo h); auto 30 with scores.
  - unfold performNFCDetection. auto 20 with scores.
  - unfold performMediaDetection. auto 20 with scores.
  - unfold performUserAgentAnalysis. auto 30 with scores.
Qed.

Lemma inv_run_steps (l : list (M unit)) :
  Forall (keeps_scores P) l -> keeps_scores P (run_steps l).
Proof.
  induction 1 as [|s r Hs _ IH]; cbn [run_steps]; [apply inv_ret|].
  apply inv_bind; [exact Hs|intros _; exact IH].
Qed.

Lemma inv_finish : keeps_scores P finish.
Proof.
  unfold finish, Dom.updateConfidence, Dom.updateScoreBoard, addSignalSnapshot,
    Dom.addStep.
  auto 30 with scores.
Qed.

Lemma inv_startDetection (h : Host) : keeps_scores P (DeviceDetectorApp.startDetection h).
Proof.
  intros w H. unfold DeviceDetectorApp.startDetection, DeviceDetectorApp.startDetection_with.
  destruct (isDetecting w); [exact H|].
  unfold try_finally, try_catch.
  assert (K : keeps_scores P (DeviceDetectorApp.detect_with (detection_steps h) h)).
  { unfold DeviceDetectorApp.detect_with, DeviceDetectorApp.clearSteps,
      DeviceDetectorApp.removeLoading, startDetection_with.
    apply inv_bind; [apply inv_update_page|intros _].
    apply inv_bind.
    - apply inv_bind; [apply inv_run_steps, inv_detection_steps|intros _].
      apply inv_finish.
    - intros r. apply inv_bind; [apply inv_update_page|intros _]. apply inv_save. }
  specialize (K (set_isDetecting true w) H).
  destruct (DeviceDetectorApp.detect_with (detection_steps h) h (set_isDetecting true w))
    as [[[]|e] w']; cbn [snd] in *; exact K.
Qed.

End ScoresInvariant.

Lemma valid_new : valid_scores (scoreSystem (engine DeviceDetectorApp.new)).
Proof. split; [reflexivity|repeat constructor; cbn; lia]. Qed.

(** However many runs an application makes, whether they return or throw,
    the scores of its engine are those of the six hypotheses and none is
    negative. *)
Lemma startDetection_keeps_valid (h : Host) :
  keeps_scores valid_scores (DeviceDetectorApp.startDetection h).
Proof. apply inv_startDetection. intros. apply addScore_valid; assumption. Qed.

(** No run lowers a score: what a hypothesis has when [startDetection] is
    called, it still has, at least, when the call ends. *)
Lemma startDetection_never_lowers (h : Host) (k : string) (v : Z) :
  keeps_scores (at_least k v) (DeviceDetectorApp.startDetection h).
Proof. apply inv_startDetection. intros. apply addScore_at_least; assumption. Qed.

End RunFacts.

(** ** Observations out of contract *)

Section InvalidObservations.
Import JSObject OSScoreSystem LedgerFacts.



End InvalidObservations.

(** ** A source that throws *)

Section ThrowingSource.
Import DeviceDetectionEngine RunFacts.

(** C5, as stated, fails.  On a host whose [CSS.supports] throws,
    [collectAppleSignals] throws: the engine's run throws too, and the
    Windows user agent, read by a later step, scores nothing; the same run
    without [collectAppleSignals] returns Windows at 100. *)
Lemma throwing_source_changes_result :
  let h := Hosts.windows_no_CSS in
  let without := collectBasicSignals h :: tl (tl (detection_steps h)) in
  let r := startDetection h DeviceDetectorApp.new in
  let r' := startDetection_with without DeviceDetectorApp.new in
  fst r = Throws (mkError "ReferenceError" "CSS is not defined")
  /\ JSObject.get (scoreSystem (engine (snd r))) "Windows" = Some 0
  /\ fst r' = Returns {| os := "Windows"; confidence := 100 |}.
Proof. vm_compute. repeat split; reflexivity. Qed.

(** C5, amended.  A step that throws ends the run there: the engine's
    [startDetection] throws the same exception in the state the step left,
    whatever steps come after it, and computes no result.
    [DeviceDetectorApp.startDetection] catches the exception: it shows the
    failure on the page, clears [isDetecting] and returns. *)
Theorem throwing_step_ends_run
    (h : Host) (pre post : list (M unit)) (bad : M unit)
    (w w1 w2 : World) (e : JSError) :
  isDetecting w = false ->
  run_steps pre (snd (DeviceDetectorApp.clearSteps (set_isDetecting true w)))
  = (Returns tt, w1) ->
  bad w1 = (Throws e, w2) ->
  startDetection_with (pre ++ bad :: post)
    (snd (DeviceDetectorApp.clearSteps (set_isDetecting true w)))
  = (Throws e, w2)
  /\ DeviceDetectorApp.startDetection_with (pre ++ bad :: post) h w
     = (Returns tt, set_isDetecting false (snd (DeviceDetectorApp.showErrorState e w2))).
Proof.
  intros Hidle Hpre Hbad.
  assert (E : startDetection_with (pre ++ bad :: post)
                (snd (DeviceDetectorApp.clearSteps (set_isDetecting true w)))
              = (Throws e, w2)).
  { unfold startDetection_with, bind. rewrite run_steps_app, Hpre.
    cbn [run_steps]. unfold bind. rewrite Hbad. reflexivity. }
  split; [exact E|].
  unfold DeviceDetectorApp.startDetection_with. rewrite Hidle.
  unfold try_finally, try_catch, DeviceDetectorApp.detect_with.
  unfold bind at 1.
  change (DeviceDetectorApp.clearSteps (set_isDetecting true w))
    with (Returns tt, snd (DeviceDetectorApp.clearSteps (set_isDetecting true w))).
  unfold bind at 1. rewrite E. reflexivity.
Qed.

Lemma throwing_step_ends_run_witness :
  let r := DeviceDetectorApp.startDetection Hosts.windows_no_CSS DeviceDetectorApp.new in
  fst r = Returns tt
  /\ isDetecting (snd r) = false
  /\ summary (page (snd r)) = Failed "CSS is not defined".
Proof.
  set (h := Hosts.windows_no_CSS).
  pose (w0 := snd (DeviceDetectorApp.clearSteps (set_isDetecting true DeviceDetectorApp.new))).
  pose (w1 := snd (collectBasicSignals h w0)).
  pose (w2 := snd (collectAppleSignals h w1)).
  destruct (throwing_step_ends_run h [collectBasicSignals h]
              (tl (tl (detection_steps h))) (collectAppleSignals h)
              DeviceDetectorApp.new w1 w2
              (mkError "ReferenceError" "CSS is not defined")
              eq_refl eq_refl eq_refl) as [_ E].
  cbv zeta.
  change (DeviceDetectorApp.startDetection h DeviceDetectorApp.new)
    with (DeviceDetectorApp.startDetection_with
            ([collectBasicSignals h] ++ collectAppleSignals h :: tl (tl (detection_steps h)))
            h DeviceDetectorApp.new).
  rewrite E. repeat split; reflexivity.
Defined.

(** The probes that webgl.js wraps in [try] do isolate a failure: when the
    canvas probe throws, the WebGL step does nothing. *)
Lemma webgl_failure_is_swallowed (h : Host) (e : JSError) :
  gl_strings h = Throws e -> performWebGLDetection h = ret tt.
Proof.
  intros E. unfold performWebGLDetection, WebGL.getWebGLInfo. rewrite E. reflexivity.
Qed.

End ThrowingSource.

(** ** A second run on the same engine *)

Section SecondRun.

(** C6.  The scores of a run are not reset before the next one: on the
    Android host the first run ends with Android at 23 and, after
    [restartDetection] on the same application, Android is at 46, each
    score twice what a run from a new engine gives.  The list of steps,
    which [startDetection] does clear, is the same after both runs. *)
Theorem restart_adds_to_previous_scores :
  let h := Hosts.android_phone in
  let w1 := snd (DeviceDetectorApp.init h DeviceDetectorApp.new) in
  let w2 := snd (DeviceDetectorApp.restartDetection h w1) in
  scoreSystem (engine w1)
  = [("macOS", 3); ("Windows", 2); ("Linux", 2); ("iOS", 5); ("iPadOS", 5); ("Android", 23)]
  /\ scoreSystem (engine w2)
     = [("macOS", 6); ("Windows", 4); ("Linux", 4); ("iOS", 10); ("iPadOS", 10); ("Android", 46)]
  /\ steps (page w2) = steps (page w1)
  /\ isDetecting w1 = false.
Proof. vm_compute. repeat split; reflexivity. Qed.

End SecondRun.

(** ** A call while a run is in flight *)

Section Reentrancy.
Import DeviceDetectorApp RunFacts.

Lemma guarded_start : guarded start.
Proof. split; [constructor|left; split; reflexivity]. Qed.

Lemma isDetecting_settle (o : Outcome unit) (w : World) :
  isDetecting (settle o w) = false.
Proof. reflexivity. Qed.

Lemma guarded_invoke (h : Host) (s : System) :
  guarded s -> guarded (snd (invoke h s)).
Proof.
  intros G. pose proof G as [Hk Hs]. unfold invoke.
  destruct (isDetecting (world s)) eqn:D; [exact G|].
  destruct Hs as [[Hnil _]|(t & _ & _ & Ht)]; [|congruence].
  assert (K : keeps_flag (clearSteps ;; DeviceDetectionEngine.collectBasicSignals h)).
  { apply keeps_bind; [apply keeps_update_page|intros _].
    apply keeps_collectBasicSignals. }
  specialize (K (set_isDetecting true (world s))).
  destruct ((clearSteps ;; DeviceDetectionEngine.collectBasicSignals h)
              (set_isDetecting true (world s))) as [[[]|e] w]; cbn [snd world inflight] in *.
  - rewrite Hnil. split.
    + constructor; [apply keeps_pieces|constructor].
    + right. exists (pieces h). repeat split; [discriminate|exact K].
  - rewrite Hnil. split.
    + constructor; [constructor; [apply keeps_host|constructor]|constructor].
    + right. exists [host (Throws e)]. repeat split; [discriminate|exact K].
Qed.

Lemma guarded_resume (s : System) : guarded s -> guarded (resume s).
Proof.
  intros [Hk Hs]. unfold resume.
  destruct Hs as [[Hnil Hd]|(t & Ht & Hne & Hd)].
  - rewrite Hnil. split; [exact Hk|left; split; assumption].
  - rewrite Ht in *. destruct t as [|piece more]; [congruence|].
    inversion Hk as [|? ? Hkt _]; subst. inversion Hkt as [|? ? Hp Hmore]; subst.
    specialize (Hp (world s)).
    destruct (piece (world s)) as [[[]|e] w]; cbn [snd] in Hp.
    + destruct more as [|p' more'].
      * split; [constructor|]. left. split; [reflexivity|apply isDetecting_settle].
      * split; [constructor; [exact Hmore|constructor]|].
        right. exists (p' :: more'). cbn [world inflight].
        repeat split; [discriminate|congruence].
    + destruct more; (split; [constructor|]; left; split;
                      [reflexivity|apply isDetecting_settle]).
Qed.

Lemma reachable_guarded (s : System) : reachable s -> guarded s.
Proof.
  induction 1 as [|h s _ IH|s _ IH].
  - apply guarded_start.
  - apply guarded_invoke. exact IH.
  - apply guarded_resume. exact IH.
Qed.

(** C9, as stated, fails: with a run in flight, a second call returns a
    promise that is fulfilled, not rejected; no error reaches the
    caller. *)
Lemma second_call_is_not_rejected :
  inflight suspended <> []
  /\ fst (invoke Hosts.android_phone suspended) = Fulfilled
  /\ snd (invoke Hosts.android_phone suspended) = suspended.
Proof.
  repeat split. discriminate.
Qed.

(** C9, amended.  While a run is in flight, a call of [startDetection] is
    refused without an error: the promise it returns is fulfilled (with
    [undefined], after a warning on the console), and the state of the
    application and the suspended run are left exactly as they were, so
    the run goes on as if the call had not been made. *)
Theorem second_call_is_ignored (h : Host) (s : System) :
  reachable s -> inflight s <> [] -> invoke h s = (Fulfilled, s).
Proof.
  intros R Hin. destruct (reachable_guarded s R) as [_ [[Hnil _]|(t & _ & _ & Hd)]].
  - contradiction.
  - unfold invoke. rewrite Hd. reflexivity.
Qed.

Lemma second_call_is_ignored_witness :
  invoke Hosts.android_phone suspended = (Fulfilled, suspended).
Proof.
  apply (second_call_is_ignored Hosts.android_phone suspended).
  - apply (reach_invoke Hosts.android_phone start). apply reach_start.
  - discriminate.
Defined.

(** The two renderings of [startDetection] agree: from an idle
    application, a call and eight turns of the scheduler leave the state
    that the function run in one go leaves, with nothing in flight. *)
Lemma run_in_pieces (h : Host) (w : World) :
  isDetecting w = false ->
  resume_n 8 (snd (invoke h {| world := w; inflight := [] |}))
  = {| world := snd (startDetection h w); inflight := [] |}.
Proof.
  intros Hd.
  unfold startDetection, startDetection_with, detect_with,
    DeviceDetectionEngine.startDetection_with, DeviceDetectionEngine.detection_steps,
    invoke, pieces.
  cbn [world inflight]. rewrite Hd.
  generalize (set_isDetecting true w) as w0.
  generalize (saveDetectionResult h) as save.
  generalize DeviceDetectionEngine.finish as fin.
  generalize removeLoading as rl.
  generalize clearSteps as cs.
  generalize (DeviceDetectionEngine.collectBasicSignals h) as m1.
  generalize (DeviceDetectionEngine.collectAppleSignals h) as m2.
  generalize (DeviceDetectionEngine.collectAndroidSignals h) as m3.
  generalize (DeviceDetectionEngine.collectDesktopSignals h) as m4.
  generalize (DeviceDetectionEngine.collectDisplaySignals h) as m5.
  generalize (DeviceDetectionEngine.performWebGLDetection h) as m6.
  generalize (DeviceDetectionEngine.performNFCDetection h) as m7.
  generalize (DeviceDetectionEngine.performMediaDetection h) as m8.
  generalize (DeviceDetectionEngine.performUserAgentAnalysis h) as m9.
  intros.
  unfold try_finally, try_catch, settle, bind.
  cbn [DeviceDetectionEngine.run_steps]. unfold bind, ret.
  repeat match goal with
         | |- context [match ?m ?x with _ => _ end] =>
             is_var m; destruct (m x) as [[?|?] ?];
             cbn [resume_n resume world inflight fst snd]
         | |- context [match ?f ?a ?x with _ => _ end] =>
             is_var f; destruct (f a x) as [[?|?] ?];
             cbn [resume_n resume world inflight fst snd]
         end;
    reflexivity.
Qed.

(** X16.  No more than one run is ever in flight: in every state that calls
    of [startDetection] and turns of the scheduler can reach, at most one
    run is suspended. *)
Lemma at_most_one_run (s : System) :
  reachable s -> (List.length (inflight s) <= 1)%nat.
Proof.
  intros R. destruct (reachable_guarded s R) as [_ [[-> _]|(t & -> & _)]]; cbn; lia.
Qed.

End Reentrancy.

(** ** The confidence *)

Section Confidence.
Import JSObject OSScoreSystem TopFacts NumberFacts.

(** C1.  On the Android host the run ends with Android at 23 of a total
    of 40 and reports a confidence of 57, while [round(100 * 23 / 40)] is
    58: the quotient 23 / 40 is not a binary64 number, the nearest one is
    below it, and its product with 100 rounds to the binary64 number just
    below 57.5.  The Standard Library's IEEE 754 operations give the same
    product. *)
Theorem android_confidence_is_57 :
  let r := DeviceDetectionEngine.startDetection Hosts.android_phone DeviceDetectorApp.new in
  scoreSystem (engine (snd r))
  = [("macOS", 3); ("Windows", 2); ("Linux", 2); ("iOS", 5); ("iPadOS", 5); ("Android", 23)]
  /\ totalOf (scoreSystem (engine (snd r))) = 40
  /\ fst r = Returns {| os := "Android"; confidence := 57 |}
  /\ JSNumber.Math_round (100 * 23 / 40) = 58
  /\ Qred (JSNumber.mul (JSNumber.div 23 40) 100) = (8092405580431359 # 140737488355328)%Q
  /\ option_map Qred (JSNumber.Q_of_SF (JSNumber.SF_percent 23 40))
     = Some (8092405580431359 # 140737488355328)%Q.
Proof. vm_compute. repeat split; reflexivity. Qed.

(** The rest of C1 holds: the scenario of the specification, and the
    guard. *)
Lemma scenario_A_B_C :
  let s := applyObservations [(["A"], 8); (["A"; "B"], 6); (["C"], 2)]
             (zero_scores ["A"; "B"; "C"]) in
  s = [("A", 14); ("B", 6); ("C", 2)]
  /\ getTopOS s = Returns {| os := "A"; confidence := 64 |}.
Proof. vm_compute. split; reflexivity. Qed.

Lemma getTopOS_total_zero (s : Scores) :
  totalOf s = 0 -> getTopOS s = Returns {| os := unknown_os; confidence := 0 |}.
Proof.
  intros E. unfold getTopOS. rewrite E. cbn [Z.eqb]. rewrite orb_true_r. reflexivity.
Qed.

(** What [getTopOS] returns on a table of scores that are not negative and
    not all zero. *)
Lemma getTopOS_positive (s : Scores) :
  Forall (fun e => 0 <= snd e) s -> Exists (fun e => 0 < snd e) s ->
  exists e m,
    getTopOS s = Returns {| os := fst e; confidence := percent m (totalOf s) |}
    /\ In e s /\ snd e = m /\ 0 < m <= totalOf s
    /\ totalOf s <= Z.of_nat (List.length s) * m.
Proof.
  intros Hnn Hpos.
  assert (Hv : Forall (fun x => 0 <= x) (values s)) by (apply Forall_map; exact Hnn).
  destruct (Math_max_some (values s)) as [m Hm].
  { destruct Hpos; discriminate. }
  pose proof Hm as Hspec. apply Math_max_spec in Hspec. destruct Hspec as [Hin Hall].
  assert (Hm0 : 0 < m).
  { apply Exists_exists in Hpos. destruct Hpos as (e & He & Hlt).
    rewrite Forall_forall in Hall. specialize (Hall (snd e) (in_map snd s e He)). lia. }
  assert (Hmt : m <= totalOf s) by (rewrite totalOf_sum; apply In_le_sumZ; assumption).
  assert (Htm : totalOf s <= Z.of_nat (List.length s) * m).
  { rewrite totalOf_sum. pose proof (sumZ_bound (values s) m Hall) as B.
    unfold values in B. rewrite length_map in B. exact B. }
  destruct (find_max_some s m Hin) as (e & Hfind & He).
  exists e, m. repeat split; try assumption; try lia.
  - unfold getTopOS. rewrite Hm, Hfind.
    destruct (Z.eqb_spec m 0); [lia|].
    destruct (Z.eqb_spec (totalOf s) 0); [lia|]. reflexivity.
  - apply find_some in Hfind. tauto.
Qed.

(** C10.  On the six-hypothesis table, with no negative score and one
    that is positive, [getTopOS] names one of the six hypotheses with a
    confidence of at least 17. *)
Theorem top_confidence_at_least_17 (s : Scores) :
  keys s = OS_names ->
  Forall (fun e => 0 <= snd e) s ->
  Exists (fun e => 0 < snd e) s ->
  exists r, getTopOS s = Returns r /\ In (os r) OS_names /\ 17 <= confidence r.
Proof.
  intros Hk Hnn Hpos.
  destruct (getTopOS_positive s Hnn Hpos) as (e & m & Hr & Hin & He & Hm & Ht).
  assert (Hlen : List.length s = 6%nat).
  { unfold keys in Hk. rewrite <- (length_map fst), Hk. reflexivity. }
  rewrite Hlen in Ht.
  eexists. split; [exact Hr|]. cbn [os confidence]. split.
  - rewrite <- Hk. unfold keys. apply in_map. exact Hin.
  - set (t := totalOf s) in *.
    destruct (percent_close m t) as [L _]; [lia|lia|].
    pose proof delta_value as D.
    assert (X : (1 # 6 <= inject_Z m / inject_Z t)%Q).
    { apply Qle_shift_div_l; [apply inject_Z_pos; lia|].
      assert (Q6 : (inject_Z t <= inject_Z (6 * m))%Q) by (rewrite <- Zle_Qle; lia).
      rewrite inject_Z_mult in Q6. change (inject_Z 6) with 6%Q in Q6. lra. }
    assert (P : (inject_Z 16 < inject_Z (percent m t))%Q).
    { change (inject_Z 16) with 16%Q. lra. }
    rewrite <- Zlt_Qlt in P. lia.
Qed.

Lemma top_confidence_at_least_17_witness :
  exists r,
    getTopOS [("macOS", 1); ("Windows", 1); ("Linux", 1); ("iOS", 1);
              ("iPadOS", 1); ("Android", 1)] = Returns r
    /\ In (os r) OS_names /\ 17 <= confidence r.
Proof.
  apply (top_confidence_at_least_17
           [("macOS", 1); ("Windows", 1); ("Linux", 1); ("iOS", 1);
            ("iPadOS", 1); ("Android", 1)]).
  - reflexivity.
  - repeat constructor; cbn; lia.
  - constructor. cbn. lia.
Defined.

(** *** The sum of the confidences *)

Lemma get_keys (s : Scores) :
  NoDup (keys s) -> map (get s) (keys s) = map (fun e => Some (snd e)) s.
Proof.
  unfold keys. induction s as [|[k v] r IH]; cbn [map fst snd get]; intros N; [reflexivity|].
  inversion N as [|? ? Hnot Hr]; subst.
  rewrite String.eqb_refl. f_equal.
  rewrite <- (IH Hr). apply map_ext_in. intros h Hh.
  destruct (String.eqb_spec k h) as [->|_]; [contradiction|reflexivity].
Qed.

Lemma confidences_of_values (s : Scores) :
  NoDup (keys s) -> totalOf s <> 0 ->
  map (confidenceOf s) (keys s) = map (fun v => percent v (totalOf s)) (values s).
Proof.
  intros N T.
  assert (E : map (confidenceOf s) (keys s)
              = map (fun o => match o with
                              | Some v => percent v (totalOf s)
                              | None => 0
                              end) (map (get s) (keys s))).
  { rewrite map_map. apply map_ext. intros h. unfold confidenceOf.
    destruct (Z.eqb_spec (totalOf s) 0); [contradiction|reflexivity]. }
  rewrite E, (get_keys s N). unfold values. rewrite !map_map. reflexivity.
Qed.

Lemma sum_percent_bounds (l : list Z) (t : Z) :
  0 < t -> Forall (fun v => 0 <= v <= t) l ->
  (100 * (inject_Z (sumZ l) / inject_Z t)
   - inject_Z (Z.of_nat (List.length l)) * ((1 # 2) + delta)
   <= inject_Z (sumZ (map (fun v => percent v t) l))
   /\ inject_Z (sumZ (map (fun v => percent v t) l))
      <= 100 * (inject_Z (sumZ l) / inject_Z t)
         + inject_Z (Z.of_nat (List.length l)) * ((1 # 2) + delta))%Q.
Proof.
  intros Ht. pose proof delta_value as D.
  induction 1 as [|v r Hv _ IH]; cbn [sumZ map List.length].
  - unfold Qdiv. cbn [Z.of_nat]. change (inject_Z 0) with 0%Q. split; lra.
  - destruct (percent_close v t Hv Ht) as [L U].
    rewrite Nat2Z.inj_succ. unfold Z.succ. rewrite !inject_Z_plus.
    change (inject_Z 1) with 1%Q.
    unfold Qdiv in *. set (i := (/ inject_Z t)%Q) in *.
    set (p := inject_Z (percent v t)) in *.
    set (q := inject_Z (sumZ (map (fun v0 => percent v0 t) r))) in *.
    set (n := inject_Z (Z.of_nat (List.length r))) in *.
    split; lra.
Qed.

(** C8, as stated, fails: one observation of weight 1 for all six
    hypotheses gives each a confidence of 17, and the sum is 102. *)
Lemma confidence_sum_can_be_102 :
  let s := applyObservations [(OS_names, 1)] OSScoreSystem.new in
  0 < totalOf s /\ confidenceSum s = 102 /\ ~ (100 - 1 <= confidenceSum s <= 100 + 1).
Proof.
  vm_compute. repeat split.
  intros [_ H]. apply H. reflexivity.
Qed.

(** C8, amended.  On the six-hypothesis table with no negative score,
    either the total is 0 and the confidence of every hypothesis is 0, or
    the total is positive and the confidences of the six hypotheses sum to
    a value within 100 ± 3. *)
Theorem confidence_sum_within_3 (s : Scores) :
  keys s = OS_names ->
  Forall (fun e => 0 <= snd e) s ->
  (totalOf s = 0 /\ forall h, confidenceOf s h = 0)
  \/ (0 < totalOf s /\ 100 - 3 <= confidenceSum s <= 100 + 3).
Proof.
  intros Hk Hnn.
  assert (Hv : Forall (fun x => 0 <= x) (values s)) by (apply Forall_map; exact Hnn).
  pose proof (sumZ_nonneg _ Hv) as T0. rewrite <- totalOf_sum in T0.
  destruct (Z.eq_dec (totalOf s) 0) as [E|E].
  - left. split; [exact E|]. intros h. unfold confidenceOf. rewrite E. reflexivity.
  - right. split; [lia|].
    assert (N : NoDup (keys s)).
    { rewrite Hk. unfold OS_names.
      repeat (constructor; [cbn; intuition discriminate|]). constructor. }
    unfold confidenceSum. rewrite (confidences_of_values s N E).
    set (t := totalOf s) in *.
    assert (B : Forall (fun v => 0 <= v <= t) (values s)).
    { rewrite Forall_forall. intros v Hin. split.
      - rewrite Forall_forall in Hv. apply Hv. exact Hin.
      - unfold t. rewrite totalOf_sum. apply In_le_sumZ; assumption. }
    destruct (sum_percent_bounds (values s) t ltac:(lia) B) as [L U].
    assert (Hlen : List.length (values s) = 6%nat).
    { unfold values, keys in *. rewrite length_map, <- (length_map fst), Hk. reflexivity. }
    rewrite Hlen in L, U. rewrite <- totalOf_sum in L, U. fold t in L, U.
    assert (One : (inject_Z t / inject_Z t == 1)%Q).
    { apply Qmult_inv_r. intros Z0. apply E.
      apply (inject_Z_injective t 0). exact Z0. }
    rewrite One in L, U. pose proof delta_value as D.
    change (inject_Z (Z.of_nat 6)) with 6%Q in L, U.
    set (c := sumZ (map (fun v => percent v t) (values s))) in *.
    assert (L' : (inject_Z 96 < inject_Z c)%Q) by (change (inject_Z 96) with 96%Q; lra).
    assert (U' : (inject_Z c < inject_Z 104)%Q) by (change (inject_Z 104) with 104%Q; lra).
    rewrite <- Zlt_Qlt in L', U'. lia.
Qed.

Lemma confidence_sum_within_3_witness :
  (totalOf (applyObservations [(OS_names, 1)] OSScoreSystem.new) = 0
   /\ forall h, confidenceOf (applyObservations [(OS_names, 1)] OSScoreSystem.new) h = 0)
  \/ (0 < totalOf (applyObservations [(OS_names, 1)] OSScoreSystem.new)
      /\ 100 - 3 <= confidenceSum (applyObservations [(OS_names, 1)] OSScoreSystem.new)
         <= 100 + 3).
Proof.
  apply (confidence_sum_within_3 (applyObservations [(OS_names, 1)] OSScoreSystem.new)).
  - reflexivity.
  - repeat constructor; cbn; lia.
Defined.

(** The bound is reached: scores of 33, 33, 33, 33, 33 and 35 give
    confidences of 17, five times, and 18. *)
Lemma confidence_sum_can_be_103 :
  confidenceSum [("macOS", 33); ("Windows", 33); ("Linux", 33); ("iOS", 33);
                 ("iPadOS", 33); ("Android", 35)] = 103.
Proof. vm_compute. reflexivity. Qed.

End Confidence.

(** * Further properties *)

(** ** The rounding is a function of the value *)

Module RoundingFacts.
Import JSNumber NumberFacts.
Local Open Scope Q_scope.

Lemma pow2_le (a b : Z) : (a <= b)%Z -> pow2 a <= pow2 b.
Proof. intros H. apply Qpower_le_compat_l; [exact H|discriminate]. Qed.

Lemma ilog2_unique (q : Q) (e : Z) :
  0 < q -> pow2 e <= q -> q < pow2 (e + 1) -> ilog2 q = e.
Proof.
  intros Hq L U. destruct (ilog2_spec q Hq) as [L' U'].
  destruct (Z.lt_trichotomy (ilog2 q) e) as [C|[C|C]]; [|exact C|].
  - exfalso. assert (pow2 (ilog2 q + 1) <= pow2 e) by (apply pow2_le; lia). lra.
  - exfalso. assert (pow2 (e + 1) <= pow2 (ilog2 q)) by (apply pow2_le; lia). lra.
Qed.

Lemma ilog2_comp (q q' : Q) : 0 < q -> q == q' -> ilog2 q = ilog2 q'.
Proof.
  intros Hq E. assert (Hq' : 0 < q') by (rewrite <- E; exact Hq).
  destruct (ilog2_spec q' Hq') as [L U].
  apply ilog2_unique; [exact Hq|rewrite E; exact L|rewrite E; exact U].
Qed.

Lemma round_even_comp (x y : Q) : x == y -> round_even x = round_even y.
Proof.
  intros E. unfold round_even. rewrite (Qfloor_comp x y E).
  assert (E' : x - inject_Z (Qfloor y) == y - inject_Z (Qfloor y)) by (rewrite E; reflexivity).
  rewrite (Qcompare_comp _ _ E' (1 # 2) (1 # 2) (Qeq_refl _)). reflexivity.
Qed.

Lemma b64_pos_comp (q q' : Q) : 0 < q -> q == q' -> b64_pos q == b64_pos q'.
Proof.
  intros Hq E. unfold b64_pos. rewrite (ilog2_comp q q' Hq E).
  assert (E' : q / pow2 (ilog2 q' - 52) == q' / pow2 (ilog2 q' - 52))
    by (rewrite E; reflexivity).
  rewrite (round_even_comp _ _ E'). reflexivity.
Qed.

(** [b64] gives equal numbers on two fractions of the same value. *)
Lemma b64_comp (q q' : Q) : q == q' -> b64 q == b64 q'.
Proof.
  intros E. unfold b64.
  rewrite (Qcompare_comp q q' E 0 0 (Qeq_refl 0)).
  destruct (Qcompare_spec q' 0) as [C|C|C].
  - reflexivity.
  - apply Qopp_comp. apply b64_pos_comp.
    + rewrite E. lra.
    + rewrite E. reflexivity.
  - apply b64_pos_comp; [rewrite E; exact C|exact E].
Qed.

Lemma percent_comp (a b a' b' : Z) :
  inject_Z a / inject_Z b == inject_Z a' / inject_Z b' ->
  OSScoreSystem.percent a b = OSScoreSystem.percent a' b'.
Proof.
  intros E. unfold OSScoreSystem.percent, div, mul, Math_round.
  apply Qfloor_comp. apply Qplus_comp; [|reflexivity].
  apply b64_comp. apply Qmult_comp; [|reflexivity].
  apply b64_comp. exact E.
Qed.

(** The percentage of a part in a whole does not change when both are
    multiplied by the same number. *)
Lemma percent_scale (c a b : Z) :
  c <> 0%Z -> OSScoreSystem.percent (c * a) (c * b) = OSScoreSystem.percent a b.
Proof.
  intros Hc. apply percent_comp.
  rewrite !inject_Z_mult.
  assert (Hq : ~ inject_Z c == 0).
  { intros Z0. apply Hc. apply (inject_Z_injective c 0). exact Z0. }
  destruct (Z.eq_dec b 0) as [->|Hb].
  - unfold Qdiv. change (inject_Z 0) with 0. rewrite Qmult_0_r.
    change (/ 0) with 0. ring.
  - assert (Hb' : ~ inject_Z b == 0).
    { intros Z0. apply Hb. apply (inject_Z_injective b 0). exact Z0. }
    field. split; assumption.
Qed.

Lemma percent_range (s t : Z) :
  (0 <= s <= t)%Z -> (0 < t)%Z -> (0 <= OSScoreSystem.percent s t <= 100)%Z.
Proof.
  intros Hs Ht. destruct (percent_close s t Hs Ht) as [L U].
  destruct (ratio_bounds s t Hs Ht) as [R0 R1].
  pose proof delta_value as D.
  assert (L' : inject_Z (-1) < inject_Z (OSScoreSystem.percent s t))
    by (change (inject_Z (-1)) with (-1 # 1); lra).
  assert (U' : inject_Z (OSScoreSystem.percent s t) < inject_Z 101)
    by (change (inject_Z 101) with 101; lra).
  rewrite <- Zlt_Qlt in L', U'. lia.
Qed.

Lemma percent_whole (t : Z) : (0 < t)%Z -> OSScoreSystem.percent t t = 100%Z.
Proof.
  intros Ht. destruct (percent_close t t ltac:(lia) Ht) as [L U].
  assert (One : inject_Z t / inject_Z t == 1).
  { apply Qmult_inv_r. intros Z0.
    apply (inject_Z_injective t 0) in Z0. lia. }
  rewrite One in L, U. pose proof delta_value as D.
  assert (L' : inject_Z 99 < inject_Z (OSScoreSystem.percent t t))
    by (change (inject_Z 99) with 99; lra).
  assert (U' : inject_Z (OSScoreSystem.percent t t) < inject_Z 101)
    by (change (inject_Z 101) with 101; lra).
  rewrite <- Zlt_Qlt in L', U'. lia.
Qed.

End RoundingFacts.

(** ** More on the score table *)

Module TableFacts.
Import JSObject OSScoreSystem LedgerFacts TopFacts.

Lemma hasOwnProperty_keys (o : Scores) (k : string) :
  hasOwnProperty o k = existsb (fun k' => String.eqb k' k) (keys o).
Proof.
  unfold hasOwnProperty, keys. induction o as [|e r IH]; cbn [existsb map]; [reflexivity|].
  rewrite IH. reflexivity.
Qed.

Lemma sum_bump (k : string) (w : Z) (o : Scores) :
  sumZ (values (bump k w o))
  = sumZ (values o) + (if hasOwnProperty o k then w else 0).
Proof.
  unfold values, hasOwnProperty.
  induction o as [|[k' v] r IH]; cbn [bump map snd fst sumZ existsb]; [reflexivity|].
  destruct (String.eqb k' k); cbn [map snd sumZ orb].
  - ring.
  - rewrite IH. ring.
Qed.

Lemma totalOf_addScore (targets : list string) (w : Z) (s : Scores) :
  totalOf (addScore targets w s)
  = totalOf s + w * Z.of_nat (List.length (filter (hasOwnProperty s) targets)).
Proof.
  rewrite addScore_bumps, !totalOf_sum. revert s.
  induction targets as [|t r IH]; intros s; cbn [fold_left filter List.length].
  - cbn. ring.
  - rewrite IH, sum_bump.
    assert (E : filter (hasOwnProperty (bump t w s)) r = filter (hasOwnProperty s) r).
    { apply filter_ext. intros k. rewrite !hasOwnProperty_keys, bump_keys. reflexivity. }
    rewrite E. destruct (hasOwnProperty s t); cbn [List.length].
    + rewrite Nat2Z.inj_succ. ring.
    + ring.
Qed.

Lemma bump_bump (k : string) (w1 w2 : Z) (o : Scores) :
  bump k w1 (bump k w2 o) = bump k (w2 + w1) o.
Proof.
  induction o as [|[k' v] r IH]; cbn [bump]; [reflexivity|].
  destruct (String.eqb k' k) eqn:E; cbn [bump]; rewrite E.
  - f_equal. f_equal. ring.
  - f_equal. exact IH.
Qed.

(** *** Scaling *)

Lemma addScore_twice (targets : list string) (w1 w2 : Z) (s : Scores) :
  addScore targets w1 (addScore targets w2 s) = addScore targets (w2 + w1) s.
Proof.
  rewrite !addScore_bumps. revert s.
  induction targets as [|k r IH]; intros s; cbn [fold_left]; [reflexivity|].
  rewrite bump_fold_comm, bump_bump. apply IH.
Qed.

Lemma values_scale (c : Z) (s : Scores) : values (scale c s) = map (Z.mul c) (values s).
Proof. unfold values, scale. rewrite !map_map. reflexivity. Qed.

Lemma keys_scale (c : Z) (s : Scores) : keys (scale c s) = keys s.
Proof. unfold keys, scale. rewrite map_map. reflexivity. Qed.

Lemma sumZ_scale (c : Z) (l : list Z) : sumZ (map (Z.mul c) l) = c * sumZ l.
Proof. induction l as [|x r IH]; cbn [map sumZ]; [ring|rewrite IH; ring]. Qed.

Lemma Math_max_scale (c : Z) (l : list Z) :
  0 < c ->
  JSNumber.Math_max (map (Z.mul c) l) = option_map (Z.mul c) (JSNumber.Math_max l).
Proof.
  intros Hc. destruct l as [|a r]; [reflexivity|].
  destruct (Math_max_some (a :: r)) as [m Hm]; [discriminate|].
  rewrite Hm. cbn [option_map]. apply Math_max_spec in Hm. destruct Hm as [Hin Hall].
  apply Math_max_spec. split.
  - apply in_map. exact Hin.
  - apply Forall_map. eapply Forall_impl; [|exact Hall]. cbn beta. intros x Hx. nia.
Qed.

Lemma find_scale (c m : Z) (s : Scores) :
  0 < c ->
  find (is_max (Some (c * m))) (scale c s)
  = option_map (fun e => (fst e, c * snd e)) (find (is_max (Some m)) s).
Proof.
  intros Hc. unfold scale. induction s as [|e r IH]; cbn [map find is_max snd]; [reflexivity|].
  assert (E : (c * snd e =? c * m) = (snd e =? m)).
  { destruct (Z.eqb_spec (snd e) m) as [->|N]; [apply Z.eqb_refl|].
    apply Z.eqb_neq. nia. }
  rewrite E. destruct (snd e =? m); [reflexivity|exact IH].
Qed.

Lemma getTopOS_scale (c : Z) (s : Scores) :
  0 < c -> getTopOS (scale c s) = getTopOS s.
Proof.
  intros Hc. unfold getTopOS.
  rewrite values_scale, (Math_max_scale c _ Hc).
  assert (T : totalOf (scale c s) = c * totalOf s).
  { rewrite !totalOf_sum, values_scale. apply sumZ_scale. }
  rewrite T.
  assert (Z0 : (c * totalOf s =? 0) = (totalOf s =? 0)).
  { destruct (Z.eqb_spec (totalOf s) 0) as [->|N]; [rewrite Z.mul_0_r; reflexivity|].
    apply Z.eqb_neq. nia. }
  rewrite Z0.
  destruct (JSNumber.Math_max (values s)) as [m|] eqn:Hm; cbn [option_map].
  - assert (M0 : (c * m =? 0) = (m =? 0)).
    { destruct (Z.eqb_spec m 0) as [->|N]; [rewrite Z.mul_0_r; reflexivity|].
      apply Z.eqb_neq. nia. }
    rewrite M0. destruct ((m =? 0) || (totalOf s =? 0)); [reflexivity|].
    rewrite (find_scale c m s Hc).
    destruct (find (is_max (Some m)) s) as [e|]; cbn [option_map fst]; [|reflexivity].
    rewrite RoundingFacts.percent_scale by lia. reflexivity.
  - destruct s as [|e r]; [reflexivity|].
    destruct (Math_max_some (values (e :: r))) as [m Hm']; [discriminate|]. congruence.
Qed.

(** *** The hypothesis that [getTopOS] names *)

Lemma getTopOS_top (s : Scores) :
  Forall (fun e => 0 <= snd e) s -> Exists (fun e => 0 < snd e) s ->
  exists k m,
    getTopOS s = Returns {| os := k; confidence := percent m (totalOf s) |}
    /\ In (k, m) s /\ 0 < m <= totalOf s /\ Forall (fun e => snd e <= m) s.
Proof.
  intros Hnn Hpos.
  assert (Hv : Forall (fun x => 0 <= x) (values s)) by (apply Forall_map; exact Hnn).
  destruct (Math_max_some (values s)) as [m Hm].
  { destruct Hpos; discriminate. }
  pose proof Hm as Hspec. apply Math_max_spec in Hspec. destruct Hspec as [Hin Hall].
  assert (Hm0 : 0 < m).
  { apply Exists_exists in Hpos. destruct Hpos as (e & He & Hlt).
    rewrite Forall_forall in Hall. specialize (Hall (snd e) (in_map snd s e He)). lia. }
  assert (Hmt : m <= totalOf s) by (rewrite totalOf_sum; apply In_le_sumZ; assumption).
  destruct (find_max_some s m Hin) as ([k v] & Hfind & He). cbn [snd] in He. subst v.
  exists k, m. repeat split; try assumption.
  - unfold getTopOS. rewrite Hm, Hfind.
    destruct (Z.eqb_spec m 0); [lia|].
    destruct (Z.eqb_spec (totalOf s) 0); [lia|]. reflexivity.
  - apply find_some in Hfind. tauto.
  - unfold values in Hall. rewrite Forall_map in Hall. exact Hall.
Qed.

End TableFacts.

(** ** More on the run *)

Module BlindFacts.
Import JSObject DeviceDetectionEngine LedgerFacts.

Lemma offset_addScore (c : string -> Z) (targets : list string) (w : Z) (s1 s2 : Scores) :
  offset c s1 s2 ->
  offset c (OSScoreSystem.addScore targets w s1) (OSScoreSystem.addScore targets w s2).
Proof.
  intros [Hk Hg]. split.
  - rewrite !addScore_keys. exact Hk.
  - intros k v. rewrite !get_addScore.
    destruct (get s2 k) as [v0|] eqn:E; [|discriminate].
    intros V. injection V as <-. rewrite (Hg k v0 E). f_equal. ring.
Qed.

Lemma blind_ret {A} (a : A) : score_blind (ret a).
Proof. intros c w1 w2 H. split; [reflexivity|exact H]. Qed.

Lemma blind_bind {A B} (m : M A) (k : A -> M B) :
  score_blind m -> (forall a, score_blind (k a)) -> score_blind (bind m k).
Proof.
  intros Hm Hk c w1 w2 H. unfold bind. destruct (Hm c w1 w2 H) as [E O].
  destruct (m w1) as [[a1|e1] w1'], (m w2) as [[a2|e2] w2']; cbn [fst snd] in *;
    try discriminate.
  - injection E as <-. apply Hk. exact O.
  - injection E as <-. split; [reflexivity|exact O].
Qed.

Lemma blind_host {A} (o : Outcome A) : score_blind (host o).
Proof. intros c w1 w2 H. split; [reflexivity|exact H]. Qed.

Lemma blind_update_page (f : Page -> Page) : score_blind (update_page f).
Proof. intros c w1 w2 H. split; [reflexivity|exact H]. Qed.

Lemma blind_update_signals (f : Signals -> Signals) : score_blind (update_signals f).
Proof. intros c w1 w2 H. split; [reflexivity|exact H]. Qed.

Lemma blind_when (b : bool) (m : M unit) : score_blind m -> score_blind (when b m).
Proof. intros Hm. destruct b; [exact Hm|apply blind_ret]. Qed.

Lemma blind_if {A} (b : bool) (m1 m2 : M A) :
  score_blind m1 -> score_blind m2 -> score_blind (if b then m1 else m2).
Proof. destruct b; auto. Qed.

Lemma blind_addScore (targets : list string) (w : Z) : score_blind (addScore targets w).
Proof.
  intros c w1 w2 H. split; [reflexivity|]. cbn. apply offset_addScore. exact H.
Qed.

Lemma blind_fire title targets w : score_blind (fire title targets w).
Proof.
  unfold fire, Dom.addStep.
  apply blind_bind; [apply blind_addScore|intros _; apply blind_update_page].
Qed.

Create HintDb blind.
#[local] Hint Resolve blind_ret blind_host blind_update_page blind_update_signals
  blind_addScore blind_fire : blind.
#[local] Hint Extern 1 (score_blind (bind _ _)) => apply blind_bind; [|intros ?] : blind.
#[local] Hint Extern 1 (score_blind (when _ _)) => apply blind_when : blind.
#[local] Hint Extern 1 (score_blind (if _ then _ else _)) => apply blind_if : blind.

(** No step of the engine reads the scores, or anything else of the state. *)
Lemma blind_detection_steps (h : Host) : Forall score_blind (detection_steps h).
Proof.
  unfold detection_steps.
  repeat match goal with
         | |- Forall _ (_ :: _) => apply Forall_cons
         | |- Forall _ [] => apply Forall_nil
         end.
  - unfold collectBasicSignals. auto 20 with blind.
  - unfold collectAppleSignals. auto 20 with blind.
  - unfold collectAndroidSignals. auto 20 with blind.
  - unfold collectDesktopSignals. auto 20 with blind.
  - unfold collectDisplaySignals. auto 20 with blind.
  - unfold performWebGLDetection, Dom.addStep.
    destruct (WebGL.getWebGLInfo h); auto 30 with blind.
  - unfold performNFCDetection. auto 20 with blind.
  - unfold performMediaDetection. auto 20 with blind.
  - unfold performUserAgentAnalysis. auto 30 with blind.
Qed.

Lemma blind_run_steps (l : list (M unit)) :
  Forall score_blind l -> score_blind (run_steps l).
Proof.
  induction 1 as [|s r Hs _ IH]; cbn [run_steps]; [apply blind_ret|].
  apply blind_bind; [exact Hs|intros _; exact IH].
Qed.

(** A table is the table of zeros moved by its own scores. *)
Lemma offset_from_zero (s : Scores) :
  keys s = OSScoreSystem.OS_names -> offset (score_of s) s OSScoreSystem.new.
Proof.
  intros Hk. split; [exact Hk|]. intros k v Hz.
  assert (Hin : In k (keys s)).
  { rewrite Hk. destruct (get_None_not_key OSScoreSystem.new k) as [_ N].
    destruct (in_dec string_dec k OSScoreSystem.OS_names) as [I|I]; [exact I|].
    rewrite (N I) in Hz. discriminate. }
  assert (V0 : v = 0).
  { revert Hz. unfold OSScoreSystem.new, OSScoreSystem.zero_scores, OSScoreSystem.OS_names.
    cbn [map get].
    repeat match goal with
           | |- context [String.eqb ?a k] => destruct (String.eqb a k)
           end; intros Hz; try discriminate; injection Hz as <-; reflexivity. }
  subst v. unfold score_of.
  destruct (get s k) as [v|] eqn:E; [f_equal; ring|].
  apply get_None_not_key in E. contradiction.
Qed.

Lemma offset_score_of (c : string -> Z) (s1 s2 : Scores) (k : string) :
  offset c s1 s2 -> In k (keys s2) -> score_of s1 k = score_of s2 k + c k.
Proof.
  intros [_ Hg] Hin. unfold score_of.
  destruct (get s2 k) as [v|] eqn:E.
  - rewrite (Hg k v E). reflexivity.
  - apply get_None_not_key in E. contradiction.
Qed.

End BlindFacts.


Module AppFacts.
Import JSObject DeviceDetectionEngine LedgerFacts.

Lemma app_run_returns (l : list (M unit)) (h : Host) (w w1 : World) :
  isDetecting w = false ->
  run_steps l (entered w) = (Returns tt, w1) ->
  exists r W,
    OSScoreSystem.getTopOS (scoreSystem (engine w1)) = Returns r
    /\ DeviceDetectorApp.startDetection_with l h w = (Returns tt, W)
    /\ scoreSystem (engine W) = scoreSystem (engine w1)
    /\ summary (page W) = Completed (os r) (confidence r)
    /\ confBar (page W)
       = {| width := confidence r; loading := false; error := error (confBar (page w1)) |}
    /\ isDetecting W = false
    /\ localStorage W = match localStorage_setItem h with
                        | Returns _ => Some r
                        | Throws _ => localStorage w1
                        end.
Proof.
  intros Hidle Hrun.
  destruct (TopFacts.getTopOS_returns (scoreSystem (engine w1))) as [r Hr].
  exists r.
  unfold DeviceDetectorApp.startDetection_with. rewrite Hidle.
  unfold try_finally, try_catch, DeviceDetectorApp.detect_with, startDetection_with.
  unfold bind at 1.
  change (DeviceDetectorApp.clearSteps (set_isDetecting true w)) with (Returns tt, entered w).
  unfold bind at 1. unfold bind at 1. rewrite Hrun.
  unfold finish. unfold bind at 1. rewrite Hr.
  unfold DeviceDetectorApp.saveDetectionResult.
  destruct (localStorage_setItem h); eexists; (split; [reflexivity|]);
    cbn; repeat split; reflexivity.
Qed.

Lemma app_run_throws (l : list (M unit)) (h : Host) (w w1 : World) (e : JSError) :
  isDetecting w = false ->
  run_steps l (entered w) = (Throws e, w1) ->
  DeviceDetectorApp.startDetection_with l h w
  = (Returns tt, set_isDetecting false (snd (DeviceDetectorApp.showErrorState e w1))).
Proof.
  intros Hidle Hrun.
  unfold DeviceDetectorApp.startDetection_with. rewrite Hidle.
  unfold try_finally, try_catch, DeviceDetectorApp.detect_with, startDetection_with.
  unfold bind at 1.
  change (DeviceDetectorApp.clearSteps (set_isDetecting true w)) with (Returns tt, entered w).
  unfold bind at 1. unfold bind at 1. rewrite Hrun. reflexivity.
Qed.

(** The scores that a call leaves are those that the steps leave. *)
Lemma app_scores (l : list (M unit)) (h : Host) (w : World) :
  isDetecting w = false ->
  scoreSystem (engine (snd (DeviceDetectorApp.startDetection_with l h w)))
  = scoreSystem (engine (snd (run_steps l (entered w)))).
Proof.
  intros Hidle. destruct (run_steps l (entered w)) as [[[]|e] w1] eqn:Hrun.
  - destruct (app_run_returns l h w w1 Hidle Hrun) as (r & W & _ & -> & E & _). exact E.
  - rewrite (app_run_throws l h w w1 e Hidle Hrun). reflexivity.
Qed.

Lemma get_scale (c : Z) (s : Scores) (k : string) :
  get (scale c s) k = option_map (Z.mul c) (get s k).
Proof.
  unfold scale. induction s as [|[k' v] r IH]; cbn [map get fst snd]; [reflexivity|].
  destruct (String.eqb k' k); [reflexivity|exact IH].
Qed.

(** Two tables over the same hypotheses, each listed once, with the same
    score under every name, are the same table. *)
Lemma table_ext (a b : Scores) :
  keys a = keys b -> NoDup (keys a) -> (forall k, In k (keys a) -> get a k = get b k) ->
  a = b.
Proof.
  revert b. unfold keys.
  induction a as [|[k v] r IH]; intros [|[k' v'] r']; cbn [map fst];
    intros Hk Hn Hg; try discriminate; [reflexivity|].
  injection Hk as <- Hk. inversion Hn as [|? ? Hnot Hr]; subst.
  pose proof (Hg k (or_introl eq_refl)) as G. cbn [get] in G.
  rewrite String.eqb_refl in G. injection G as <-. f_equal.
  apply IH; [exact Hk|exact Hr|]. intros x Hx.
  specialize (Hg x (or_intror Hx)). cbn [get] in Hg.
  destruct (String.eqb_spec k x) as [->|_]; [contradiction|exact Hg].
Qed.

Lemma keys_run_steps (h : Host) (w : World) :
  keys (scoreSystem (engine (snd (run_steps (detection_steps h) w))))
  = keys (scoreSystem (engine w)).
Proof.
  apply (RunFacts.inv_run_steps
           (fun s => keys s = keys (scoreSystem (engine w)))).
  - apply RunFacts.inv_detection_steps. intros targets x s _ Hs.
    rewrite addScore_keys. exact Hs.
  - reflexivity.
Qed.

Lemma NoDup_OS_names : NoDup OSScoreSystem.OS_names.
Proof.
  unfold OSScoreSystem.OS_names.
  repeat (constructor; [cbn; intuition discriminate|]). constructor.
Qed.

End AppFacts.

(** ** The score board, the strings, the page *)

Module BoardFacts.
Import Dom.

Lemma insert_desc_perm (e : string * Z) (l : list (string * Z)) :
  Permutation (insert_desc e l) (e :: l).
Proof.
  induction l as [|x r IH]; cbn [insert_desc]; [apply Permutation_refl|].
  destruct (snd x <=? snd e); [apply Permutation_refl|].
  apply Permutation_trans with (x :: e :: r); [|apply perm_swap].
  apply perm_skip. exact IH.
Qed.

Lemma sort_desc_perm (l : list (string * Z)) : Permutation (sort_desc l) l.
Proof.
  unfold sort_desc. induction l as [|e r IH]; cbn [fold_right]; [apply Permutation_refl|].
  apply Permutation_trans with (e :: fold_right insert_desc [] r).
  - apply insert_desc_perm.
  - apply perm_skip. exact IH.
Qed.

Lemma insert_desc_sorted (e : string * Z) (l : list (string * Z)) :
  StronglySorted by_score l -> StronglySorted by_score (insert_desc e l).
Proof.
  induction 1 as [|x r Hr IH Hx]; cbn [insert_desc].
  - constructor; constructor.
  - destruct (Z.leb_spec (snd x) (snd e)) as [L|L].
    + constructor; [constructor; assumption|].
      constructor; [exact L|].
      eapply Forall_impl; [|exact Hx]. unfold by_score. intros a Ha. lia.
    + constructor; [exact IH|].
      apply (Permutation_Forall (Permutation_sym (insert_desc_perm e r))).
      constructor; [unfold by_score; lia|exact Hx].
Qed.

Lemma sort_desc_sorted (l : list (string * Z)) : StronglySorted by_score (sort_desc l).
Proof.
  unfold sort_desc. induction l as [|e r IH]; cbn [fold_right]; [constructor|].
  apply insert_desc_sorted. exact IH.
Qed.

Lemma insert_desc_filter (v : Z) (e : string * Z) (l : list (string * Z)) :
  StronglySorted by_score l ->
  filter (fun x => snd x =? v) (insert_desc e l)
  = filter (fun x => snd x =? v) (e :: l).
Proof.
  induction 1 as [|x r Hr IH Hx]; cbn [insert_desc]; [reflexivity|].
  destruct (Z.leb_spec (snd x) (snd e)) as [L|L]; [reflexivity|].
  cbn [filter] in *. rewrite IH.
  destruct (Z.eqb_spec (snd x) v) as [Ex|Nx], (Z.eqb_spec (snd e) v) as [Ee|Ne];
    try reflexivity.
  lia.
Qed.

Lemma sort_desc_stable (v : Z) (l : list (string * Z)) :
  filter (fun x => snd x =? v) (sort_desc l) = filter (fun x => snd x =? v) l.
Proof.
  unfold sort_desc. induction l as [|e r IH]; cbn [fold_right]; [reflexivity|].
  rewrite insert_desc_filter by apply sort_desc_sorted.
  cbn [filter]. unfold sort_desc in IH. rewrite IH. reflexivity.
Qed.

Lemma sort_desc_head (scores : Scores) (m : Z) :
  JSNumber.Math_max (JSObject.values scores) = Some m ->
  exists e rest, sort_desc scores = e :: rest /\ snd e = m
                 /\ Forall (fun x => snd x <= m) rest.
Proof.
  intros Hm. apply TopFacts.Math_max_spec in Hm. destruct Hm as [Hin Hall].
  pose proof (sort_desc_perm scores) as Hp.
  pose proof (sort_desc_sorted scores) as Hs.
  assert (Hall' : Forall (fun x => snd x <= m) (sort_desc scores)).
  { apply (Permutation_Forall (Permutation_sym Hp)).
    unfold JSObject.values in Hall. rewrite Forall_map in Hall. exact Hall. }
  assert (Hin' : exists x, In x (sort_desc scores) /\ snd x = m).
  { unfold JSObject.values in Hin. apply in_map_iff in Hin.
    destruct Hin as (x & Hx & Hi). exists x. split; [|exact Hx].
    apply (Permutation_in _ (Permutation_sym Hp)). exact Hi. }
  destruct (sort_desc scores) as [|e rest].
  - destruct Hin' as (x & [] & _).
  - exists e, rest. inversion Hall' as [|? ? He Hrest]; subst.
    inversion Hs as [|? ? _ Hhd]; subst.
    repeat split; [|exact Hrest].
    destruct Hin' as (x & [<-|Hi] & Hx); [exact Hx|].
    rewrite Forall_forall in Hhd. specialize (Hhd x Hi). unfold by_score in Hhd. lia.
Qed.

Lemma board_entries_updateScoreBoard (scores : Scores) (w : World) :
  board_entries (page (snd (updateScoreBoard scores w))) = sort_desc scores.
Proof.
  unfold board_entries, updateScoreBoard. cbn. rewrite map_map. cbn.
  rewrite <- (map_id (sort_desc scores)) at 2. apply map_ext. intros [k v]. reflexivity.
Qed.

End BoardFacts.

Module StringFacts.
Import JSString.

Lemma map_ascii_app (f : ascii -> ascii) (a b : string) :
  map_ascii f (a ++ b)%string = (map_ascii f a ++ map_ascii f b)%string.
Proof. induction a as [|c r IH]; cbn; [reflexivity|rewrite IH; reflexivity]. Qed.

Lemma includes_app_r (a s sub : string) :
  includes s sub = true -> includes (a ++ s)%string sub = true.
Proof.
  intros H. induction a as [|c r IH]; cbn [append]; [exact H|].
  cbn [includes]. rewrite IH. destruct (prefix sub (String c (r ++ s))); reflexivity.
Qed.

End StringFacts.

Module PageFacts.
Import DeviceDetectionEngine.

Section PageInvariant.

(** A property of the page that the writes of a run keep. *)
Variable P : Page -> Prop.
Hypothesis P_addStep :
  forall st, well_formed_step st = true -> keeps_page P (Dom.addStep st).
Hypothesis P_updateConfidence : forall o c, keeps_page P (Dom.updateConfidence o c).
Hypothesis P_updateScoreBoard : forall s, keeps_page P (Dom.updateScoreBoard s).
Hypothesis P_clearSteps : keeps_page P DeviceDetectorApp.clearSteps.
Hypothesis P_removeLoading : keeps_page P DeviceDetectorApp.removeLoading.
Hypothesis P_showErrorState : forall e, keeps_page P (DeviceDetectorApp.showErrorState e).

Lemma page_ret {A} (a : A) : keeps_page P (ret a).
Proof. intros w H. exact H. Qed.

Lemma page_bind {A B} (m : M A) (k : A -> M B) :
  keeps_page P m -> (forall a, keeps_page P (k a)) -> keeps_page P (bind m k).
Proof.
  intros Hm Hk w H. unfold bind. specialize (Hm w H).
  destruct (m w) as [[a|e] w']; cbn [snd] in *.
  - apply Hk. exact Hm.
  - exact Hm.
Qed.

Lemma page_host {A} (o : Outcome A) : keeps_page P (host o).
Proof. intros w H. exact H. Qed.

Lemma page_update_engine (f : Engine -> Engine) : keeps_page P (update_engine f).
Proof. intros w H. exact H. Qed.

Lemma page_read {A} (f : World -> Outcome A) : keeps_page P (fun w => (f w, w)).
Proof. intros w H. exact H. Qed.

Lemma page_when (b : bool) (m : M unit) : keeps_page P m -> keeps_page P (when b m).
Proof. intros Hm. destruct b; [exact Hm|apply page_ret]. Qed.

Lemma page_if {A} (b : bool) (m1 m2 : M A) :
  keeps_page P m1 -> keeps_page P m2 -> keeps_page P (if b then m1 else m2).
Proof. destruct b; auto. Qed.

Lemma page_addScore targets w : keeps_page P (addScore targets w).
Proof. apply page_update_engine. Qed.

Lemma page_save (h : Host) (r : TopOS) :
  keeps_page P (DeviceDetectorApp.saveDetectionResult h r).
Proof.
  intros w H. unfold DeviceDetectorApp.saveDetectionResult.
  destruct (localStorage_setItem h); exact H.
Qed.

Create HintDb page.
#[local] Hint Resolve page_ret page_host page_update_engine page_read page_addScore
  page_save : page.
#[local] Hint Extern 1 (keeps_page _ (bind _ _)) => apply page_bind; [|intros ?] : page.
#[local] Hint Extern 1 (keeps_page _ (when _ _)) => apply page_when : page.
#[local] Hint Extern 1 (keeps_page _ (if _ then _ else _)) => apply page_if : page.
#[local] Hint Extern 1 (keeps_page _ (fire _ _ _)) => unfold fire : page.
#[local] Hint Extern 1 (keeps_page _ (Dom.addStep _)) =>
  apply P_addStep;
  repeat match goal with
         | |- context [String.eqb ?a ?b] => destruct (String.eqb a b)
         end;
  reflexivity : page.
#[local] Hint Extern 1 (keeps_page _ (Dom.updateConfidence _ _)) =>
  apply P_updateConfidence : page.
#[local] Hint Extern 1 (keeps_page _ (Dom.updateScoreBoard _)) =>
  apply P_updateScoreBoard : page.

Lemma page_detection_steps (h : Host) : Forall (keeps_page P) (detection_steps h).
Proof.
  unfold detection_steps.
  repeat match goal with
         | |- Forall _ (_ :: _) => apply Forall_cons
         | |- Forall _ [] => apply Forall_nil
         end.
  - unfold collectBasicSignals, update_signals. auto 20 with page.
  - unfold collectAppleSignals, update_signals. auto 20 with page.
  - unfold collectAndroidSignals, update_signals. auto 20 with page.
  - unfold collectDesktopSignals, update_signals.
    apply page_bind; [apply page_update_engine|intros _].
    destruct (navigator_has h "serial"), (navigator_has h "hid"), (navigator_has h "usb");
      cbn -[fire]; auto with page.
  - unfold collectDisplaySignals, update_signals. auto 20 with page.
  - unfold performWebGLDetection.
    destruct (WebGL.getWebGLInfo h); auto 30 with page.
  - unfold performNFCDetection. auto 20 with page.
  - unfold performMediaDetection. auto 20 with page.
  - unfold performUserAgentAnalysis. auto 30 with page.
Qed.

Lemma page_run_steps (l : list (M unit)) :
  Forall (keeps_page P) l -> keeps_page P (run_steps l).
Proof.
  induction 1 as [|s r Hs _ IH]; cbn [run_steps]; [apply page_ret|].
  apply page_bind; [exact Hs|intros _; exact IH].
Qed.

Lemma page_finish : keeps_page P finish.
Proof. unfold finish, addSignalSnapshot. auto 30 with page. Qed.

Lemma page_startDetection (h : Host) : keeps_page P (DeviceDetectorApp.startDetection h).
Proof.
  intros w H. unfold DeviceDetectorApp.startDetection, DeviceDetectorApp.startDetection_with.
  destruct (isDetecting w); [exact H|].
  unfold try_finally, try_catch.
  assert (K : keeps_page P (DeviceDetectorApp.detect_with (detection_steps h) h)).
  { unfold DeviceDetectorApp.detect_with, startDetection_with.
    apply page_bind; [apply P_clearSteps|intros _].
    apply page_bind.
    - apply page_bind; [apply page_run_steps, page_detection_steps|intros _].
      apply page_finish.
    - intros r. apply page_bind; [apply P_removeLoading|intros _]. apply page_save. }
  specialize (K (set_isDetecting true w) H).
  destruct (DeviceDetectorApp.detect_with (detection_steps h) h (set_isDetecting true w))
    as [[[]|e] w']; cbn [snd] in *.
  - exact K.
  - apply (P_showErrorState e w' K).
Qed.

End PageInvariant.

End PageFacts.

(** ** Scores and listed steps *)

Module AccountFacts.
Import JSObject DeviceDetectionEngine.

Lemma acc_eq {A} (d d' : Z) (m : M A) : accounts d m -> d = d' -> accounts d' m.
Proof. intros H <-. exact H. Qed.

Lemma acc_ret {A} (a : A) : accounts 0 (ret a).
Proof. intros w Hk. split; [exact Hk|]. intros _ _. rewrite Z.add_0_r. reflexivity. Qed.

Lemma acc_host {A} (o : Outcome A) : accounts 0 (host o).
Proof. intros w Hk. split; [exact Hk|]. intros _ _. rewrite Z.add_0_r. reflexivity. Qed.

Lemma acc_read {A} (f : World -> Outcome A) : accounts 0 (fun w => (f w, w)).
Proof. intros w Hk. split; [exact Hk|]. intros _ _. rewrite Z.add_0_r. reflexivity. Qed.

Lemma acc_bind {A B} (d1 d2 : Z) (m : M A) (k : A -> M B) :
  accounts d1 m -> (forall a, accounts d2 (k a)) -> accounts (d1 + d2) (bind m k).
Proof.
  intros Hm Hk w Hw. unfold bind. destruct (Hm w Hw) as [K G].
  destruct (m w) as [[a|e] w1]; cbn [fst snd] in *.
  - destruct (Hk a w1 K) as [K' G']. split; [exact K'|].
    intros b Hb. rewrite (G' b Hb), (G a eq_refl). ring.
  - split; [exact K|]. intros b Hb. discriminate.
Qed.

Lemma acc_bind0 {A B} (m : M A) (k : A -> M B) :
  accounts 0 m -> (forall a, accounts 0 (k a)) -> accounts 0 (bind m k).
Proof. intros Hm Hk. apply (acc_eq (0 + 0)); [apply acc_bind; assumption|reflexivity]. Qed.

Lemma acc_when0 (b : bool) (m : M unit) : accounts 0 m -> accounts 0 (when b m).
Proof. intros H. destruct b; [exact H|apply acc_ret]. Qed.

Lemma acc_update_signals (f : Signals -> Signals) : accounts 0 (update_signals f).
Proof. intros w Hk. split; [exact Hk|]. intros _ _. rewrite Z.add_0_r. reflexivity. Qed.

Lemma filter_known (s : Scores) (targets : list string) :
  keys s = OSScoreSystem.OS_names -> known_targets targets = true ->
  filter (hasOwnProperty s) targets = targets.
Proof.
  intros Hk Ht. unfold known_targets in Ht. rewrite forallb_forall in Ht.
  induction targets as [|t r IH]; cbn [filter]; [reflexivity|].
  rewrite TableFacts.hasOwnProperty_keys, Hk, (Ht t (or_introl eq_refl)).
  rewrite IH; [reflexivity|]. intros x Hx. apply Ht. right. exact Hx.
Qed.

Lemma acc_addScore (targets : list string) (v : Z) :
  known_targets targets = true ->
  accounts (v * Z.of_nat (List.length targets)) (addScore targets v).
Proof.
  intros Ht w Hk. cbn. split.
  - rewrite LedgerFacts.addScore_keys. exact Hk.
  - intros _ _. unfold gap.
    cbn [addScore update_engine snd engine page scoreSystem].
    rewrite TableFacts.totalOf_addScore, (filter_known _ _ Hk Ht). ring.
Qed.

Lemma listed_app (l1 l2 : list Step) : listed (l1 ++ l2) = listed l1 + listed l2.
Proof. unfold listed. rewrite map_app. apply TopFacts.sumZ_app. Qed.

Lemma acc_addStep (st : Step) : accounts (- listed [st]) (Dom.addStep st).
Proof.
  intros w Hk. split; [exact Hk|]. intros _ _. unfold gap. cbn [Dom.addStep update_page snd
    engine page steps]. rewrite listed_app. ring.
Qed.

Lemma acc_fire (title : string) (targets : list string) (v : Z) :
  known_targets targets = true -> accounts 0 (fire title targets v).
Proof.
  intros Ht. unfold fire.
  eapply acc_eq; [apply acc_bind; [apply (acc_addScore _ _ Ht)|intros _; apply acc_addStep]|].
  unfold listed. cbn. ring.
Qed.

Lemma acc_updateConfidence (o : string) (c : Z) : accounts 0 (Dom.updateConfidence o c).
Proof. intros w Hk. split; [exact Hk|]. intros _ _. rewrite Z.add_0_r. reflexivity. Qed.

Lemma acc_updateScoreBoard (s : Scores) : accounts 0 (Dom.updateScoreBoard s).
Proof. intros w Hk. split; [exact Hk|]. intros _ _. rewrite Z.add_0_r. reflexivity. Qed.

Create HintDb account.
#[export] Hint Resolve acc_ret acc_host acc_read acc_update_signals acc_updateConfidence
  acc_updateScoreBoard : account.
#[export] Hint Extern 1 (accounts 0 (bind _ _)) => apply acc_bind0; [|intros ?] : account.
#[export] Hint Extern 1 (accounts 0 (when _ _)) => apply acc_when0 : account.
#[export] Hint Extern 1 (accounts 0 (fire _ _ _)) => apply acc_fire; reflexivity : account.

Lemma acc_collectBasicSignals (h : Host) : accounts 0 (collectBasicSignals h).
Proof. unfold collectBasicSignals. auto 20 with account. Qed.

Lemma acc_collectAppleSignals (h : Host) : accounts 0 (collectAppleSignals h).
Proof. unfold collectAppleSignals. auto 20 with account. Qed.

Lemma acc_collectAndroidSignals (h : Host) : accounts 0 (collectAndroidSignals h).
Proof. unfold collectAndroidSignals. auto 20 with account. Qed.

Lemma acc_collectDesktopSignals (h : Host) : accounts 0 (collectDesktopSignals h).
Proof. unfold collectDesktopSignals. auto 20 with account. Qed.

Lemma acc_collectDisplaySignals (h : Host) : accounts 0 (collectDisplaySignals h).
Proof. unfold collectDisplaySignals. auto 20 with account. Qed.

Lemma acc_performMediaDetection (h : Host) : accounts 0 (performMediaDetection h).
Proof. unfold performMediaDetection. auto 20 with account. Qed.

Lemma acc_performUserAgentAnalysis (h : Host) : accounts 0 (performUserAgentAnalysis h).
Proof. unfold performUserAgentAnalysis. auto 30 with account. Qed.

Lemma getGPUVendor_range (i : option WebGLInfo) :
  In (WebGL.getGPUVendor i) ["unknown"; "nvidia"; "amd"; "intel"; "apple"].
Proof.
  destruct i as [i|]; cbn [WebGL.getGPUVendor]; [|cbn; tauto].
  repeat match goal with
         | |- context [if ?b then _ else _] => destruct b
         end; cbn; tauto.
Qed.

Lemma acc_performWebGLDetection (h : Host) :
  accounts (if String.eqb (WebGL.getGPUVendor (WebGL.getWebGLInfo h)) "nvidia" then 2 else 0)
           (performWebGLDetection h).
Proof.
  unfold performWebGLDetection.
  destruct (WebGL.getWebGLInfo h) as [i|]; [|apply acc_ret].
  pose proof (getGPUVendor_range (Some i)) as R.
  destruct R as [<-|[<-|[<-|[<-|[<-|[]]]]]];
    cbv [String.eqb Ascii.eqb Bool.eqb andb negb orb];
    (eapply acc_eq;
     [apply acc_bind; [apply acc_when0, acc_fire; reflexivity|intros _];
      apply acc_bind; [apply acc_when0, acc_fire; reflexivity|intros _];
      unfold when;
      apply acc_bind;
      [first [apply acc_ret | apply acc_addScore; reflexivity]
      |intros _; first [apply acc_ret | apply acc_addStep]]
     |reflexivity]).
Qed.

Lemma acc_performNFCDetection (h : Host) :
  accounts (if NFC.hasNFCSupport h
               && (JSString.includes (JSString.toLowerCase (userAgent h)) "android"
                   || JSString.includes (JSString.toLowerCase (userAgent h)) "iphone")
            then 2 else 0)
           (performNFCDetection h).
Proof.
  unfold performNFCDetection.
  destruct (NFC.hasNFCSupport h),
    (JSString.includes (JSString.toLowerCase (userAgent h)) "android"),
    (JSString.includes (JSString.toLowerCase (userAgent h)) "iphone");
    cbn [when andb orb];
    (eapply acc_eq;
     [apply acc_bind; [apply acc_when0, acc_fire; reflexivity|intros _];
      first [apply acc_ret | apply acc_addScore; reflexivity]
     |reflexivity]).
Qed.

Lemma acc_finish : accounts 0 finish.
Proof.
  unfold finish, addSignalSnapshot.
  apply acc_bind0; [apply acc_read|intros result].
  apply acc_bind0; [apply acc_updateConfidence|intros _].
  apply acc_bind0; [apply acc_read|intros scores].
  apply acc_bind0; [apply acc_updateScoreBoard|intros _].
  apply acc_bind0; [|intros _; apply acc_ret].
  apply (acc_eq _ _ _ (acc_addStep _)). reflexivity.
Qed.

Lemma acc_startDetection (h : Host) : accounts (unlisted h) (startDetection h).
Proof.
  unfold startDetection, startDetection_with, detection_steps. cbn [run_steps].
  eapply acc_eq.
  - apply acc_bind; [|intros _; apply acc_finish].
    apply acc_bind; [apply acc_collectBasicSignals|intros _].
    apply acc_bind; [apply acc_collectAppleSignals|intros _].
    apply acc_bind; [apply acc_collectAndroidSignals|intros _].
    apply acc_bind; [apply acc_collectDesktopSignals|intros _].
    apply acc_bind; [apply acc_collectDisplaySignals|intros _].
    apply acc_bind; [apply acc_performWebGLDetection|intros _].
    apply acc_bind; [apply acc_performNFCDetection|intros _].
    apply acc_bind; [apply acc_performMediaDetection|intros _].
    apply acc_bind; [apply acc_performUserAgentAnalysis|intros _].
    apply acc_ret.
  - unfold unlisted. ring.
Qed.

End AccountFacts.

(** ** The table on binary64 numbers and the table on integers *)

Module Binary64Facts.
Import JSNumber NumberFacts RoundingFacts.

Lemma Qred_inject_Z (n : Z) : Qred (inject_Z n) = inject_Z n.
Proof.
  unfold Qred, inject_Z.
  pose proof (Z.ggcd_gcd n 1) as G. pose proof (Z.ggcd_correct_divisors n 1) as D.
  destruct (Z.ggcd n 1) as [g [aa bb]]. cbn [fst snd] in *.
  rewrite Z.gcd_1_r in G. subst g. destruct D as [Da Db].
  rewrite Z.mul_1_l in Da, Db. subst aa bb. reflexivity.
Qed.

Lemma round_even_Z (x : Q) (k : Z) : (x == inject_Z k)%Q -> round_even x = k.
Proof.
  intros E. rewrite (round_even_comp x (inject_Z k) E). unfold round_even.
  rewrite Qfloor_Z.
  assert (E0 : (inject_Z k - inject_Z k == 0)%Q) by ring.
  rewrite (Qcompare_comp _ _ E0 (1 # 2)%Q (1 # 2)%Q (Qeq_refl _)). reflexivity.
Qed.

(** A positive number that is a whole multiple of the unit of its binade
    is a double. *)
Lemma b64_pos_multiple (q : Q) (k : Z) :
  (q == inject_Z k * pow2 (ilog2 q - 52))%Q -> (b64_pos q == q)%Q.
Proof.
  intros E. unfold b64_pos.
  pose proof (pow2_pos (ilog2 q - 52)) as U.
  set (u := pow2 (ilog2 q - 52)) in *.
  assert (Ek : (q / u == inject_Z k)%Q).
  { rewrite E. field. lra. }
  rewrite (round_even_Z _ _ Ek). symmetry. exact E.
Qed.

Lemma pow2_0 : (pow2 0 == 1)%Q.
Proof. reflexivity. Qed.

Lemma b64_Z (n : Z) : 0 <= n <= 2 ^ 53 -> (b64 (inject_Z n) == inject_Z n)%Q.
Proof.
  intros [H0 H1]. unfold b64.
  destruct (Qcompare_spec (inject_Z n) 0) as [C|C|C].
  - symmetry. exact C.
  - exfalso. unfold Qlt in C. simpl in C. lia.
  - assert (Hn : 0 < n) by (unfold Qlt in C; simpl in C; lia).
    destruct (ilog2_spec (inject_Z n) C) as [L U].
    set (e := ilog2 (inject_Z n)) in *.
    assert (He0 : 0 <= e).
    { destruct (Z_lt_le_dec e 0) as [N|N]; [exfalso|exact N].
      assert (P : (pow2 (e + 1) <= pow2 0)%Q) by (apply pow2_le; lia).
      rewrite pow2_0 in P.
      assert (Q1 : (inject_Z 1 <= inject_Z n)%Q) by (rewrite <- Zle_Qle; lia).
      change (inject_Z 1) with 1%Q in Q1.
      lra. }
    assert (He1 : e <= 53).
    { destruct (Z_le_gt_dec e 53) as [N|N]; [exact N|exfalso].
      assert (P : (pow2 54 <= pow2 e)%Q) by (apply pow2_le; lia).
      rewrite (pow2_inject 54) in P by lia.
      assert (Q1 : (inject_Z n < inject_Z (2 ^ 54))%Q) by (rewrite <- Zlt_Qlt; lia).
      lra. }
    destruct (Z.eq_dec e 53) as [E53|N53].
    + assert (En : n = 2 ^ 53).
      { rewrite E53, (pow2_inject 53) in L by lia. rewrite <- Zle_Qle in L. lia. }
      apply (b64_pos_multiple _ (2 ^ 52)). fold e. rewrite E53, En.
      change (53 - 52) with 1. rewrite (pow2_inject 1) by lia.
      rewrite <- inject_Z_mult. reflexivity.
    + apply (b64_pos_multiple _ (n * 2 ^ (52 - e))). fold e.
      rewrite inject_Z_mult, <- (pow2_inject (52 - e)) by lia.
      rewrite <- Qmult_assoc, <- pow2_add.
      replace (52 - e + (e - 52)) with 0 by lia. rewrite pow2_0. ring.
Qed.

Lemma double_Z (n : Z) : 0 <= n <= 2 ^ 53 -> Binary64.double (inject_Z n) = inject_Z n.
Proof.
  intros H. unfold Binary64.double.
  rewrite (Qred_complete _ _ (b64_Z n H)). apply Qred_inject_Z.
Qed.

Lemma add_Z (a b : Z) :
  0 <= a + b <= 2 ^ 53 -> Binary64.add (inject_Z a) (inject_Z b) = inject_Z (a + b).
Proof.
  intros H. unfold Binary64.add, Binary64.double.
  assert (E : (inject_Z a + inject_Z b == inject_Z (a + b))%Q)
    by (rewrite inject_Z_plus; reflexivity).
  rewrite (Qred_complete _ _ (b64_comp _ _ E)).
  apply (double_Z (a + b) H).
Qed.

(** *** [addScore] *)

Lemma addScore_target_Z (w : Z) (s : Scores) (k : string) :
  Forall (fun e => 0 <= snd e + w <= 2 ^ 53) s ->
  Binary64.addScore_target (inject_Z w) (Binary64.of_scores s) k
  = Binary64.of_scores (bump k w s).
Proof.
  unfold Binary64.addScore_target.
  induction 1 as [|[k' v] r Hv Hr IH];
    cbn [Binary64.of_scores map Binary64.hasOwnProperty existsb Binary64.get Binary64.set
         bump fst snd];
    [reflexivity|].
  destruct (String.eqb k' k) eqn:E; cbn [orb map fst snd].
  - rewrite (add_Z v w Hv). reflexivity.
  - change (map (fun e : string * Z => (fst e, inject_Z (snd e))) (bump k w r))
      with (Binary64.of_scores (bump k w r)).
    change (map (fun e : string * Z => (fst e, inject_Z (snd e))) r)
      with (Binary64.of_scores r).
    rewrite <- IH. unfold Binary64.hasOwnProperty.
    destruct (existsb _ (Binary64.of_scores r)); [|reflexivity].
    destruct (Binary64.get (Binary64.of_scores r) k); reflexivity.
Qed.

Lemma values_le_sum (s : Scores) :
  Forall (fun e => 0 <= snd e) s ->
  Forall (fun e => snd e <= sumZ (JSObject.values s)) s.
Proof.
  intros Hn. rewrite Forall_forall in *. intros e He.
  apply TopFacts.In_le_sumZ.
  - unfold JSObject.values. rewrite Forall_map, Forall_forall. exact Hn.
  - unfold JSObject.values. apply in_map. exact He.
Qed.

Lemma sum_bump_le (k : string) (w : Z) (s : Scores) :
  0 <= w -> sumZ (JSObject.values (bump k w s)) <= sumZ (JSObject.values s) + w.
Proof.
  intros Hw. rewrite TableFacts.sum_bump. destruct (JSObject.hasOwnProperty s k); lia.
Qed.

Lemma bumps_Z (targets : list string) (w : Z) (s : Scores) :
  0 <= w -> Forall (fun e => 0 <= snd e) s ->
  sumZ (JSObject.values s) + w * Z.of_nat (List.length targets) <= 2 ^ 53 ->
  fold_left (Binary64.addScore_target (inject_Z w)) targets (Binary64.of_scores s)
  = Binary64.of_scores (fold_left (fun o k => bump k w o) targets s).
Proof.
  intros Hw. revert s.
  induction targets as [|t r IH]; intros s Hn Hb; cbn [fold_left]; [reflexivity|].
  cbn [List.length] in Hb. rewrite Nat2Z.inj_succ in Hb.
  rewrite addScore_target_Z.
  - apply IH.
    + apply RunFacts.bump_nonneg; assumption.
    + pose proof (sum_bump_le t w s Hw). nia.
  - pose proof (values_le_sum s Hn) as Hle. rewrite Forall_forall in *.
    intros e He. specialize (Hn e He). specialize (Hle e He). nia.
Qed.

(** On integers that stay within 2^53, no sum of [addScore] is rounded. *)
Lemma addScore_Z (targets : list string) (w : Z) (s : Scores) :
  0 <= w -> Forall (fun e => 0 <= snd e) s ->
  sumZ (JSObject.values s) + w * Z.of_nat (List.length targets) <= 2 ^ 53 ->
  Binary64.addScore targets (inject_Z w) (Binary64.of_scores s)
  = Binary64.of_scores (OSScoreSystem.addScore targets w s).
Proof.
  intros Hw Hn Hb. unfold Binary64.addScore. rewrite LedgerFacts.addScore_bumps.
  destruct targets as [|t r]; [reflexivity|].
  rewrite double_Z.
  - apply bumps_Z; assumption.
  - pose proof (TopFacts.sumZ_nonneg (JSObject.values s)) as S0.
    assert (0 <= sumZ (JSObject.values s)).
    { apply S0. unfold JSObject.values. rewrite Forall_map. exact Hn. }
    cbn [List.length] in Hb. rewrite Nat2Z.inj_succ in Hb. nia.
Qed.

Lemma addScore_nonneg (targets : list string) (w : Z) (s : Scores) :
  0 <= w -> Forall (fun e => 0 <= snd e) s ->
  Forall (fun e => 0 <= snd e) (OSScoreSystem.addScore targets w s).
Proof.
  intros Hw. rewrite LedgerFacts.addScore_bumps. revert s.
  induction targets as [|t r IH]; intros s Hn; cbn [fold_left]; [exact Hn|].
  apply IH. apply RunFacts.bump_nonneg; assumption.
Qed.

Lemma sum_addScore_le (targets : list string) (w : Z) (s : Scores) :
  0 <= w ->
  sumZ (JSObject.values (OSScoreSystem.addScore targets w s))
  <= sumZ (JSObject.values s) + w * Z.of_nat (List.length targets).
Proof.
  intros Hw. rewrite <- !TopFacts.totalOf_sum, TableFacts.totalOf_addScore.
  pose proof (filter_length_le (JSObject.hasOwnProperty s) targets). nia.
Qed.

(** *** A list of observations *)

Lemma mass_nonneg (obs : list Observation) :
  Forall (fun ob => 0 <= snd ob) obs -> 0 <= mass obs.
Proof.
  unfold mass. induction 1 as [|ob r Hob _ IH]; cbn [map sumZ]; [lia|]. nia.
Qed.

Lemma mass_perm (obs obs' : list Observation) :
  Permutation obs obs' -> mass obs = mass obs'.
Proof.
  unfold mass. induction 1 as [|x l l' _ IH|x y l|l l' l'' _ IH1 _ IH2]; cbn [map sumZ].
  - reflexivity.
  - rewrite IH. reflexivity.
  - ring.
  - rewrite IH1. exact IH2.
Qed.

Lemma applyObservations_Z (obs : list Observation) (s : Scores) :
  Forall (fun ob => 0 <= snd ob) obs -> Forall (fun e => 0 <= snd e) s ->
  sumZ (JSObject.values s) + mass obs <= 2 ^ 53 ->
  Binary64.applyObservations (Binary64.of_observations obs) (Binary64.of_scores s)
  = Binary64.of_scores (applyObservations obs s).
Proof.
  unfold Binary64.applyObservations, applyObservations, Binary64.of_observations.
  intros Hw. revert s.
  induction Hw as [|[t w] r Hob Hr IH]; intros s Hn Hb; cbn [map fold_left fst snd];
    [reflexivity|].
  cbn [snd] in Hob. unfold mass in Hb. cbn [map sumZ fst snd] in Hb. fold (mass r) in Hb.
  pose proof (mass_nonneg r Hr) as M0.
  rewrite addScore_Z by (try assumption; lia).
  apply IH.
  - apply addScore_nonneg; assumption.
  - pose proof (sum_addScore_le t w s Hob). lia.
Qed.

Lemma zero_scores_Z (names : list string) :
  Binary64.zero_scores names = Binary64.of_scores (OSScoreSystem.zero_scores names).
Proof.
  unfold Binary64.zero_scores, Binary64.of_scores, OSScoreSystem.zero_scores.
  rewrite map_map. reflexivity.
Qed.

Lemma zero_scores_nonneg (names : list string) :
  Forall (fun e => 0 <= snd e) (OSScoreSystem.zero_scores names).
Proof.
  unfold OSScoreSystem.zero_scores. rewrite Forall_map, Forall_forall. intros n _. cbn. lia.
Qed.

Lemma zero_scores_sum (names : list string) :
  sumZ (JSObject.values (OSScoreSystem.zero_scores names)) = 0.
Proof.
  apply TopFacts.sumZ_zero. unfold JSObject.values, OSScoreSystem.zero_scores.
  rewrite !Forall_map, Forall_forall. intros n _. reflexivity.
Qed.

(** From a table of zeros, observations with non-negative integer weights
    of a mass within 2^53 leave on doubles the table they leave on
    integers. *)
Lemma run_Z (names : list string) (obs : list Observation) :
  Forall (fun ob => 0 <= snd ob) obs -> mass obs <= 2 ^ 53 ->
  Binary64.applyObservations (Binary64.of_observations obs) (Binary64.zero_scores names)
  = Binary64.of_scores (applyObservations obs (OSScoreSystem.zero_scores names)).
Proof.
  intros Hw Hm. rewrite zero_scores_Z. apply applyObservations_Z.
  - exact Hw.
  - apply zero_scores_nonneg.
  - rewrite zero_scores_sum. lia.
Qed.

(** *** [getTopOS] *)

Lemma values_Z (s : Scores) :
  Binary64.values (Binary64.of_scores s) = map inject_Z (JSObject.values s).
Proof.
  unfold Binary64.values, Binary64.of_scores, JSObject.values. rewrite !map_map. reflexivity.
Qed.

Lemma Qeq_bool_Z (a b : Z) : Qeq_bool (inject_Z a) (inject_Z b) = Z.eqb a b.
Proof.
  apply eq_true_iff_eq. rewrite Qeq_bool_iff, Z.eqb_eq. split.
  - apply inject_Z_injective.
  - intros ->. reflexivity.
Qed.

Lemma Qle_bool_Z (a b : Z) : Qle_bool (inject_Z a) (inject_Z b) = Z.leb a b.
Proof.
  apply eq_true_iff_eq. rewrite Qle_bool_iff, Z.leb_le, <- Zle_Qle. reflexivity.
Qed.

Lemma Math_max_from_Z (l : list Z) (acc : option Z) :
  fold_left (fun acc x =>
               match acc with
               | None => Some x
               | Some a => Some (if Qle_bool a x then x else a)
               end) (map inject_Z l) (option_map inject_Z acc)
  = option_map inject_Z
      (fold_left (fun acc x =>
                    match acc with
                    | None => Some x
                    | Some a => Some (Z.max a x)
                    end) l acc).
Proof.
  revert acc. induction l as [|x r IH]; intros acc; cbn [map fold_left]; [reflexivity|].
  destruct acc as [a|]; cbn [option_map].
  - rewrite Qle_bool_Z.
    replace (if a <=? x then inject_Z x else inject_Z a) with (inject_Z (Z.max a x))
      by (destruct (Z.leb_spec a x); f_equal; lia).
    apply (IH (Some (Z.max a x))).
  - apply (IH (Some x)).
Qed.

Lemma Math_max_Z (l : list Z) :
  Binary64.Math_max (map inject_Z l) = option_map inject_Z (JSNumber.Math_max l).
Proof. apply (Math_max_from_Z l None). Qed.

Lemma total_from_Z (l : list Z) (a : Z) :
  0 <= a -> Forall (fun x => 0 <= x) l -> a + sumZ l <= 2 ^ 53 ->
  fold_left Binary64.add (map inject_Z l) (inject_Z a) = inject_Z (a + sumZ l).
Proof.
  intros Ha Hl. revert a Ha.
  induction Hl as [|x r Hx Hr IH]; intros a Ha Hb; cbn [map fold_left sumZ] in *.
  - rewrite Z.add_0_r. reflexivity.
  - pose proof (TopFacts.sumZ_nonneg r Hr).
    rewrite add_Z by lia. rewrite IH by lia. f_equal. ring.
Qed.

Lemma totalOf_Z (s : Scores) :
  Forall (fun e => 0 <= snd e) s -> sumZ (JSObject.values s) <= 2 ^ 53 ->
  Binary64.totalOf (Binary64.of_scores s) = inject_Z (OSScoreSystem.totalOf s).
Proof.
  intros Hn Hb. unfold Binary64.totalOf. rewrite values_Z, TopFacts.totalOf_sum.
  change 0%Q with (inject_Z 0). rewrite total_from_Z; [reflexivity|lia| |lia].
  unfold JSObject.values. rewrite Forall_map. exact Hn.
Qed.

Lemma find_Z (m : option Z) (s : Scores) :
  find (Binary64.is_max (option_map inject_Z m)) (Binary64.of_scores s)
  = option_map (fun e => (fst e, inject_Z (snd e))) (find (OSScoreSystem.is_max m) s).
Proof.
  induction s as [|[k v] r IH]; cbn [Binary64.of_scores map find fst snd]; [reflexivity|].
  assert (E : Binary64.is_max (option_map inject_Z m) (k, inject_Z v)
              = OSScoreSystem.is_max m (k, v)).
  { destruct m as [m|]; cbn; [apply Qeq_bool_Z|reflexivity]. }
  rewrite E. destruct (OSScoreSystem.is_max m (k, v)); [reflexivity|]. exact IH.
Qed.

(** On a table of non-negative integers with a total within 2^53,
    [getTopOS] on doubles is [getTopOS] on integers. *)
Lemma getTopOS_Z (s : Scores) :
  Forall (fun e => 0 <= snd e) s -> sumZ (JSObject.values s) <= 2 ^ 53 ->
  Binary64.getTopOS (Binary64.of_scores s) = OSScoreSystem.getTopOS s.
Proof.
  intros Hn Hb. unfold Binary64.getTopOS, OSScoreSystem.getTopOS.
  rewrite values_Z, Math_max_Z, (totalOf_Z s Hn Hb), find_Z.
  change 0%Q with (inject_Z 0). rewrite Qeq_bool_Z.
  destruct (JSNumber.Math_max (JSObject.values s)) as [m|]; cbn [option_map].
  - rewrite Qeq_bool_Z.
    destruct ((m =? 0) || (OSScoreSystem.totalOf s =? 0)); [reflexivity|].
    destruct (find (OSScoreSystem.is_max (Some m)) s) as [[k v]|]; reflexivity.
  - destruct (false || (OSScoreSystem.totalOf s =? 0)); [reflexivity|].
    destruct (find (OSScoreSystem.is_max None) s) as [[k v]|]; reflexivity.
Qed.

End Binary64Facts.

(** ** The order of the observations *)

Section ObservationOrder.
Import Binary64Facts.

(** C7, as stated, fails: the sums of [addScore] are rounded, so the order
    of the observations can change the scores and the hypothesis that
    [getTopOS] names.  With the weights 0.1, 0.2 and 0.3 for A and 0.6 for
    B, over the hypotheses B and A, one order leaves A above B and the
    other leaves them equal; with the weights 2^53, 1 and 1 for A and
    2^53 + 2 for B, over A and B, one order leaves A below B and the other
    leaves them equal. *)
Lemma observation_order_changes_result :
  let obs := [(["A"], 1 # 10); (["A"], 2 # 10); (["A"], 3 # 10); (["B"], 6 # 10)]%Q in
  let obs' := [(["A"], 3 # 10); (["A"], 2 # 10); (["A"], 1 # 10); (["B"], 6 # 10)]%Q in
  let big := [(["A"], inject_Z (2 ^ 53)); (["A"], 1%Q); (["A"], 1%Q);
              (["B"], inject_Z (2 ^ 53 + 2))] in
  let big' := [(["A"], 1%Q); (["A"], 1%Q); (["A"], inject_Z (2 ^ 53));
               (["B"], inject_Z (2 ^ 53 + 2))] in
  let run names l := Binary64.applyObservations l (Binary64.zero_scores names) in
  (Permutation obs obs'
   /\ Binary64.get (run ["B"; "A"] obs) "A" <> Binary64.get (run ["B"; "A"] obs') "A"
   /\ Binary64.getTopOS (run ["B"; "A"] obs) = Returns {| os := "A"; confidence := 50 |}
   /\ Binary64.getTopOS (run ["B"; "A"] obs') = Returns {| os := "B"; confidence := 50 |})
  /\ (Permutation big big'
      /\ Binary64.get (run ["A"; "B"] big) "A" = Some (inject_Z (2 ^ 53))
      /\ Binary64.get (run ["A"; "B"] big') "A" = Some (inject_Z (2 ^ 53 + 2))
      /\ Binary64.getTopOS (run ["A"; "B"] big) = Returns {| os := "B"; confidence := 50 |}
      /\ Binary64.getTopOS (run ["A"; "B"] big')
         = Returns {| os := "A"; confidence := 50 |}).
Proof.
  cbv zeta. split.
  - split.
    + eapply perm_trans; [apply perm_swap|].
      eapply perm_trans; [apply perm_skip, perm_swap|]. apply perm_swap.
    + split; [vm_compute; discriminate|]. split; vm_compute; reflexivity.
  - split.
    + eapply perm_trans; [apply perm_swap|]. apply perm_skip, perm_swap.
    + repeat split; vm_compute; reflexivity.
Qed.

(** C7, amended.  For observations whose weights are integers, none
    negative, and add up to no more than 2^53 over all their targets, no sum
    is rounded: two orders of the same observations, applied to a table of
    zeros, give the same scores, hence the same result of [getTopOS], and
    these are the scores and the result computed on the integers. *)
Theorem observation_order_irrelevant_within_2_53
    (names : list string) (obs1 obs2 : list Observation) :
  Permutation obs1 obs2 ->
  Forall (fun ob => 0 <= snd ob) obs1 ->
  mass obs1 <= 2 ^ 53 ->
  let s1 := Binary64.applyObservations (Binary64.of_observations obs1)
              (Binary64.zero_scores names) in
  let s2 := Binary64.applyObservations (Binary64.of_observations obs2)
              (Binary64.zero_scores names) in
  s1 = s2
  /\ Binary64.getTopOS s1 = Binary64.getTopOS s2
  /\ s1 = Binary64.of_scores (applyObservations obs1 (OSScoreSystem.zero_scores names))
  /\ Binary64.getTopOS s1
     = OSScoreSystem.getTopOS (applyObservations obs1 (OSScoreSystem.zero_scores names)).
Proof.
  intros P Hw Hm s1 s2.
  assert (E1 : s1 = Binary64.of_scores
                      (applyObservations obs1 (OSScoreSystem.zero_scores names)))
    by (apply run_Z; assumption).
  assert (E2 : s2 = Binary64.of_scores
                      (applyObservations obs2 (OSScoreSystem.zero_scores names))).
  { apply run_Z.
    - apply (Permutation_Forall P). exact Hw.
    - rewrite <- (mass_perm _ _ P). exact Hm. }
  rewrite <- (applyObservations_perm obs1 obs2 _ P) in E2.
  assert (E : s1 = s2) by congruence.
  split; [exact E|]. split; [rewrite E; reflexivity|]. split; [exact E1|].
  rewrite E1. apply getTopOS_Z.
  - clear E1 E2 E s1 s2 P Hm. generalize (zero_scores_nonneg names).
    generalize (OSScoreSystem.zero_scores names) as s.
    unfold applyObservations.
    induction Hw as [|[t w] r Hob _ IH]; intros s Hs; cbn [fold_left]; [exact Hs|].
    apply IH. apply addScore_nonneg; assumption.
  - clear E1 E2 E s1 s2 P.
    assert (G : forall s, Forall (fun e => 0 <= snd e) s ->
                  sumZ (JSObject.values (applyObservations obs1 s))
                  <= sumZ (JSObject.values s) + mass obs1).
    { clear Hm. unfold applyObservations.
      induction Hw as [|[t w] r Hob _ IH]; intros s Hs; cbn [fold_left].
      - unfold mass. cbn. lia.
      - cbn [fst snd] in *. unfold mass. cbn [map sumZ fst snd]. fold (mass r).
        specialize (IH (OSScoreSystem.addScore t w s) (addScore_nonneg t w s Hob Hs)).
        pose proof (sum_addScore_le t w s Hob). lia. }
    specialize (G _ (zero_scores_nonneg names)). rewrite zero_scores_sum in G. lia.
Qed.

Lemma observation_order_irrelevant_within_2_53_witness :
  Binary64.applyObservations
    (Binary64.of_observations [(["A"], 8); (["A"; "B"], 6); (["C"], 2)])
    (Binary64.zero_scores ["A"; "B"; "C"])
  = Binary64.applyObservations
      (Binary64.of_observations [(["C"], 2); (["A"], 8); (["A"; "B"], 6)])
      (Binary64.zero_scores ["A"; "B"; "C"]).
Proof.
  apply (observation_order_irrelevant_within_2_53 ["A"; "B"; "C"]
           [(["A"], 8); (["A"; "B"], 6); (["C"], 2)]
           [(["C"], 2); (["A"], 8); (["A"; "B"], 6)]).
  - apply Permutation_sym.
    apply (Permutation_cons_app [(["A"], 8); (["A"; "B"], 6)] [] (["C"], 2)).
    rewrite app_nil_r. apply Permutation_refl.
  - repeat constructor; cbn; lia.
  - vm_compute. discriminate.
Defined.

End ObservationOrder.

(** ** The score table: totals, repeated observations, scaling *)

Section TableProperties.
Import JSObject OSScoreSystem LedgerFacts TopFacts TableFacts.


(** X2.  On doubles, with integer scores and weights none of which is
    negative and sums that stay within 2^53, the same targets observed twice
    count as one observation with the sum of the two weights: nothing is
    deduplicated.  (Beyond 2^53, or with fractional weights, the two
    roundings of the repeated observation need not give the one rounding of
    the single one.) *)
Theorem addScore_weights_add (targets : list string) (w1 w2 : Z) (s : Scores) :
  0 <= w1 -> 0 <= w2 -> Forall (fun e => 0 <= snd e) s ->
  totalOf s + (w2 + w1) * Z.of_nat (List.length targets) <= 2 ^ 53 ->
  Binary64.addScore targets (inject_Z w1)
    (Binary64.addScore targets (inject_Z w2) (Binary64.of_scores s))
  = Binary64.addScore targets (inject_Z (w2 + w1)) (Binary64.of_scores s).
Proof.
  intros H1 H2 Hn Hb. rewrite totalOf_sum in Hb.
  pose proof (Binary64Facts.sum_addScore_le targets w2 s H2) as Hs.
  pose proof (Binary64Facts.addScore_nonneg targets w2 s H2 Hn) as Hn2.
  rewrite (Binary64Facts.addScore_Z targets w2 s H2 Hn) by nia.
  rewrite (Binary64Facts.addScore_Z targets w1 _ H1 Hn2) by nia.
  rewrite (Binary64Facts.addScore_Z targets (w2 + w1) s) by (assumption || lia).
  rewrite addScore_twice. reflexivity.
Qed.

Lemma addScore_weights_add_witness :
  Binary64.addScore ["macOS"; "iOS"] (inject_Z 4)
    (Binary64.addScore ["macOS"; "iOS"] (inject_Z 6) (Binary64.of_scores new))
  = Binary64.addScore ["macOS"; "iOS"] (inject_Z (6 + 4)) (Binary64.of_scores new).
Proof.
  apply (addScore_weights_add ["macOS"; "iOS"] 4 6 new).
  - lia.
  - lia.
  - repeat constructor; cbn; lia.
  - vm_compute. discriminate.
Defined.

(** X3.  Multiplying every score by the same positive integer changes
    neither the hypothesis that [getTopOS] names nor its confidence. *)
Theorem getTopOS_ignores_scale (c : Z) (s : Scores) :
  0 < c -> getTopOS (scale c s) = getTopOS s.
Proof. apply getTopOS_scale. Qed.

Lemma getTopOS_ignores_scale_witness :
  getTopOS [("macOS", 6); ("Windows", 4); ("Linux", 4); ("iOS", 10);
            ("iPadOS", 10); ("Android", 46)]
  = getTopOS [("macOS", 3); ("Windows", 2); ("Linux", 2); ("iOS", 5);
              ("iPadOS", 5); ("Android", 23)].
Proof.
  apply (getTopOS_ignores_scale 2
           [("macOS", 3); ("Windows", 2); ("Linux", 2); ("iOS", 5);
            ("iPadOS", 5); ("Android", 23)]).
  lia.
Defined.

End TableProperties.

(** ** What [getTopOS] names, and with what confidence *)

Section TopProperties.
Import JSObject OSScoreSystem TopFacts TableFacts NumberFacts.

(** X4.  On a table with no negative score and one that is positive,
    [getTopOS] names a hypothesis of the table whose score is positive and
    that no other score exceeds. *)
Theorem getTopOS_names_a_maximum (s : Scores) :
  Forall (fun e => 0 <= snd e) s -> Exists (fun e => 0 < snd e) s ->
  exists r m,
    getTopOS s = Returns r
    /\ In (os r, m) s /\ 0 < m /\ Forall (fun e => snd e <= m) s.
Proof.
  intros Hnn Hpos.
  destruct (getTopOS_top s Hnn Hpos) as (k & m & Hr & Hin & Hm & Hall).
  eexists. exists m. split; [exact Hr|]. cbn [os]. repeat split; try assumption. lia.
Qed.

Lemma getTopOS_names_a_maximum_witness :
  exists r m,
    getTopOS [("macOS", 3); ("Windows", 2); ("Linux", 2); ("iOS", 5);
              ("iPadOS", 5); ("Android", 23)] = Returns r
    /\ In (os r, m) [("macOS", 3); ("Windows", 2); ("Linux", 2); ("iOS", 5);
                     ("iPadOS", 5); ("Android", 23)]
    /\ 0 < m
    /\ Forall (fun e => snd e <= m)
         [("macOS", 3); ("Windows", 2); ("Linux", 2); ("iOS", 5);
          ("iPadOS", 5); ("Android", 23)].
Proof.
  apply (getTopOS_names_a_maximum
           [("macOS", 3); ("Windows", 2); ("Linux", 2); ("iOS", 5);
            ("iPadOS", 5); ("Android", 23)]).
  - repeat constructor; cbn; lia.
  - constructor. cbn. lia.
Defined.

(** X5.  On the engine's table, with no negative score, [getTopOS] answers
    未知 with confidence 0 exactly when every score is 0. *)
Theorem getTopOS_unknown_iff_no_evidence (s : Scores) :
  valid_scores s ->
  getTopOS s = Returns {| os := unknown_os; confidence := 0 |}
  <-> Forall (fun e => snd e = 0) s.
Proof.
  intros [Hk Hnn]. split.
  - intros Hr. apply Forall_forall. intros e He.
    destruct (Z.eq_dec (snd e) 0) as [E|N]; [exact E|exfalso].
    assert (Hpos : Exists (fun e => 0 < snd e) s).
    { apply Exists_exists. exists e. split; [exact He|].
      rewrite Forall_forall in Hnn. specialize (Hnn e He). cbn beta in Hnn. lia. }
    destruct (getTopOS_top s Hnn Hpos) as (k & m & Hr' & Hin & _).
    rewrite Hr in Hr'. injection Hr' as Ek _.
    assert (Kin : In k OS_names).
    { rewrite <- Hk. unfold keys. apply (in_map fst s (k, m)). exact Hin. }
    rewrite <- Ek in Kin. unfold OS_names, unknown_os in Kin. cbn [In] in Kin.
    repeat (destruct Kin as [Kin|Kin]; [discriminate|]). exact Kin.
  - intros Hz. unfold getTopOS.
    assert (E : totalOf s = 0).
    { rewrite totalOf_sum. apply sumZ_zero. unfold values. apply Forall_map. exact Hz. }
    rewrite E. cbn [Z.eqb]. rewrite orb_true_r. reflexivity.
Qed.

Lemma getTopOS_unknown_iff_no_evidence_witness :
  getTopOS OSScoreSystem.new = Returns {| os := unknown_os; confidence := 0 |}
  <-> Forall (fun e => snd e = 0) OSScoreSystem.new.
Proof.
  apply (getTopOS_unknown_iff_no_evidence OSScoreSystem.new).
  split; [reflexivity|repeat constructor; cbn; lia].
Defined.

(** X6.  On a table with no negative score the confidence that [getTopOS]
    returns is an integer from 0 to 100. *)
Theorem confidence_is_a_percentage (s : Scores) :
  Forall (fun e => 0 <= snd e) s ->
  exists r, getTopOS s = Returns r /\ 0 <= confidence r <= 100.
Proof.
  intros Hnn.
  destruct (Exists_dec (fun e => 0 < snd e) s) as [Hpos|Hno].
  { intros e. destruct (Z_lt_dec 0 (snd e)); [left|right]; assumption. }
  - destruct (getTopOS_top s Hnn Hpos) as (k & m & Hr & _ & Hm & _).
    eexists. split; [exact Hr|]. cbn [confidence].
    apply RoundingFacts.percent_range; lia.
  - exists {| os := unknown_os; confidence := 0 |}. split; [|cbn; lia].
    unfold getTopOS.
    assert (E : totalOf s = 0).
    { rewrite totalOf_sum. apply sumZ_zero. unfold values. apply Forall_map.
      apply Forall_forall. intros e He.
      rewrite Forall_forall in Hnn. specialize (Hnn e He). cbn beta in Hnn.
      destruct (Z.eq_dec (snd e) 0) as [E|N]; [exact E|exfalso].
      apply Hno. apply Exists_exists. exists e. split; [exact He|lia]. }
    rewrite E. cbn [Z.eqb]. rewrite orb_true_r. reflexivity.
Qed.

Lemma confidence_is_a_percentage_witness :
  exists r,
    getTopOS [("macOS", 3); ("Windows", 2); ("Linux", 2); ("iOS", 5);
              ("iPadOS", 5); ("Android", 23)] = Returns r
    /\ 0 <= confidence r <= 100.
Proof.
  apply (confidence_is_a_percentage
           [("macOS", 3); ("Windows", 2); ("Linux", 2); ("iOS", 5);
            ("iPadOS", 5); ("Android", 23)]).
  repeat constructor; cbn; lia.
Defined.

(** X7.  The confidence is never further than a half, and the error of the
    two binary64 roundings (less than 2^-45), from the exact percentage of
    the top score in the total. *)
Theorem confidence_is_near_the_share (s : Scores) :
  Forall (fun e => 0 <= snd e) s -> Exists (fun e => 0 < snd e) s ->
  exists r m,
    getTopOS s = Returns r /\ In (os r, m) s
    /\ (Qabs (inject_Z (confidence r) - 100 * (inject_Z m / inject_Z (totalOf s)))
        <= (1 # 2) + delta)%Q.
Proof.
  intros Hnn Hpos.
  destruct (getTopOS_top s Hnn Hpos) as (k & m & Hr & Hin & Hm & _).
  eexists. exists m. split; [exact Hr|]. cbn [os confidence]. split; [exact Hin|].
  destruct (percent_close m (totalOf s)) as [L U]; [lia|lia|].
  apply Qabs_Qle_condition. split; lra.
Qed.

Lemma confidence_is_near_the_share_witness :
  exists r m,
    getTopOS [("macOS", 0); ("Windows", 17); ("Linux", 0); ("iOS", 0);
              ("iPadOS", 0); ("Android", 23)] = Returns r
    /\ In (os r, m) [("macOS", 0); ("Windows", 17); ("Linux", 0); ("iOS", 0);
                     ("iPadOS", 0); ("Android", 23)]
    /\ (Qabs (inject_Z (confidence r)
              - 100 * (inject_Z m
                       / inject_Z (totalOf ([("macOS", 0); ("Windows", 17); ("Linux", 0);
                                             ("iOS", 0); ("iPadOS", 0); ("Android", 23)])%Z)))
        <= (1 # 2) + delta)%Q.
Proof.
  apply (confidence_is_near_the_share
           [("macOS", 0); ("Windows", 17); ("Linux", 0); ("iOS", 0);
            ("iPadOS", 0); ("Android", 23)]).
  - repeat constructor; cbn; lia.
  - constructor 2. constructor. cbn. lia.
Defined.

(** X8.  When one hypothesis holds all the evidence, the others being at 0,
    [getTopOS] names it with a confidence of 100. *)
Theorem sole_evidence_is_certain (pre post : Scores) (k : string) (m : Z) :
  0 < m ->
  Forall (fun e => snd e = 0) pre -> Forall (fun e => snd e = 0) post ->
  getTopOS (pre ++ (k, m) :: post) = Returns {| os := k; confidence := 100 |}.
Proof.
  intros Hm Hpre Hpost.
  set (s := pre ++ (k, m) :: post).
  assert (Hv : values s = values pre ++ m :: values post).
  { unfold s. rewrite values_app. reflexivity. }
  assert (Zpre : Forall (fun x => x = 0) (values pre)) by (apply Forall_map; exact Hpre).
  assert (Zpost : Forall (fun x => x = 0) (values post)) by (apply Forall_map; exact Hpost).
  assert (Hmax : JSNumber.Math_max (values s) = Some m).
  { apply Math_max_spec. rewrite Hv. split.
    - apply in_or_app. right. left. reflexivity.
    - apply Forall_app. split; [|constructor; [lia|]].
      + eapply Forall_impl; [|exact Zpre]. cbn beta. intros a Ha. lia.
      + eapply Forall_impl; [|exact Zpost]. cbn beta. intros a Ha. lia. }
  assert (Htot : totalOf s = m).
  { rewrite totalOf_sum, Hv, sumZ_app. cbn [sumZ].
    rewrite (sumZ_zero _ Zpre), (sumZ_zero _ Zpost). ring. }
  unfold getTopOS. rewrite Hmax, Htot.
  destruct (Z.eqb_spec m 0); [lia|]. cbn [orb].
  unfold s. rewrite find_first_max.
  - cbn [fst]. rewrite RoundingFacts.percent_whole by exact Hm. reflexivity.
  - eapply Forall_impl; [|exact Hpre]. cbn beta. intros a Ha. lia.
Qed.

Lemma sole_evidence_is_certain_witness :
  getTopOS [("macOS", 0); ("Windows", 6); ("Linux", 0); ("iOS", 0);
            ("iPadOS", 0); ("Android", 0)]
  = Returns {| os := "Windows"; confidence := 100 |}.
Proof.
  apply (sole_evidence_is_certain [("macOS", 0)]
           [("Linux", 0); ("iOS", 0); ("iPadOS", 0); ("Android", 0)] "Windows" 6).
  - lia.
  - repeat constructor.
  - repeat constructor.
Defined.

End TopProperties.

(** ** What a run adds, keeps and shows *)

Section RunProperties.
Import JSObject DeviceDetectionEngine LedgerFacts RunFacts BlindFacts AppFacts.

(** X9.  What a run adds to the score of a hypothesis does not depend on the
    state it starts in: started from any scores, a call of [startDetection]
    leaves each hypothesis with the score it had plus the score that the same
    call gives it from a table of zeros. *)
Theorem run_adds_the_same (h : Host) (w w0 : World) (k : string) :
  isDetecting w = false -> isDetecting w0 = false ->
  keys (scoreSystem (engine w)) = OSScoreSystem.OS_names ->
  scoreSystem (engine w0) = OSScoreSystem.new ->
  In k OSScoreSystem.OS_names ->
  score_of (scoreSystem (engine (snd (DeviceDetectorApp.startDetection h w)))) k
  = score_of (scoreSystem (engine w)) k
    + score_of (scoreSystem (engine (snd (DeviceDetectorApp.startDetection h w0)))) k.
Proof.
  intros Hw Hw0 Hk Hz Hin. unfold DeviceDetectorApp.startDetection.
  rewrite !app_scores by assumption.
  assert (O : offset (score_of (scoreSystem (engine w)))
                (scoreSystem (engine (entered w))) (scoreSystem (engine (entered w0)))).
  { change (scoreSystem (engine (entered w))) with (scoreSystem (engine w)).
    change (scoreSystem (engine (entered w0))) with (scoreSystem (engine w0)).
    rewrite Hz. apply offset_from_zero. exact Hk. }
  destruct (blind_run_steps _ (blind_detection_steps h) _ _ _ O) as [_ O'].
  rewrite (offset_score_of _ _ _ k O').
  - ring.
  - rewrite keys_run_steps.
    change (scoreSystem (engine (entered w0))) with (scoreSystem (engine w0)).
    rewrite Hz. exact Hin.
Qed.

Lemma run_adds_the_same_witness :
  score_of (scoreSystem (engine (snd (DeviceDetectorApp.startDetection Hosts.android_phone
     (snd (DeviceDetectorApp.startDetection Hosts.android_phone DeviceDetectorApp.new))))))
    "Android"
  = score_of (scoreSystem (engine
       (snd (DeviceDetectorApp.startDetection Hosts.android_phone DeviceDetectorApp.new))))
      "Android"
    + score_of (scoreSystem (engine
         (snd (DeviceDetectorApp.startDetection Hosts.android_phone DeviceDetectorApp.new))))
        "Android".
Proof.
  apply (run_adds_the_same Hosts.android_phone
           (snd (DeviceDetectorApp.startDetection Hosts.android_phone DeviceDetectorApp.new))
           DeviceDetectorApp.new "Android").
  - reflexivity.
  - reflexivity.
  - vm_compute. reflexivity.
  - reflexivity.
  - vm_compute. tauto.
Defined.

(** X10.  A second run on a host that has not changed shows the same
    summary as the first (the same hypothesis and confidence, or the same
    failure), although it leaves every score doubled. *)
Theorem restart_shows_the_same (h : Host) (w0 : World) :
  isDetecting w0 = false ->
  scoreSystem (engine w0) = OSScoreSystem.new ->
  let w1 := snd (DeviceDetectorApp.startDetection h w0) in
  let w2 := snd (DeviceDetectorApp.restartDetection h w1) in
  summary (page w2) = summary (page w1)
  /\ scoreSystem (engine w2) = scale 2 (scoreSystem (engine w1)).
Proof.
  intros Hidle Hz. cbv zeta.
  unfold DeviceDetectorApp.restartDetection, DeviceDetectorApp.startDetection.
  set (l := detection_steps h).
  destruct (run_steps l (entered w0)) as [o1 a1] eqn:R1.
  assert (S1 : scoreSystem (engine (snd (DeviceDetectorApp.startDetection_with l h w0)))
               = scoreSystem (engine a1)).
  { rewrite app_scores by exact Hidle. rewrite R1. reflexivity. }
  assert (K1 : keys (scoreSystem (engine a1)) = OSScoreSystem.OS_names).
  { pose proof (keys_run_steps h (entered w0)) as K. fold l in K. rewrite R1 in K.
    cbn [snd] in K. rewrite K.
    change (scoreSystem (engine (entered w0))) with (scoreSystem (engine w0)).
    rewrite Hz. reflexivity. }
  assert (I1 : isDetecting (snd (DeviceDetectorApp.startDetection_with l h w0)) = false).
  { destruct o1 as [[]|e].
    - destruct (app_run_returns l h w0 a1 Hidle R1) as (r & W & _ & -> & _ & _ & _ & I & _).
      exact I.
    - rewrite (app_run_throws l h w0 a1 e Hidle R1). reflexivity. }
  set (w1 := snd (DeviceDetectorApp.startDetection_with l h w0)) in *.
  assert (O : offset (score_of (scoreSystem (engine a1)))
                (scoreSystem (engine (entered w1))) (scoreSystem (engine (entered w0)))).
  { change (scoreSystem (engine (entered w1))) with (scoreSystem (engine w1)).
    change (scoreSystem (engine (entered w0))) with (scoreSystem (engine w0)).
    rewrite S1, Hz. apply offset_from_zero. exact K1. }
  destruct (blind_run_steps l (blind_detection_steps h) _ _ _ O) as [E O'].
  rewrite R1 in E, O'. cbn [fst snd] in E, O'.
  destruct (run_steps l (entered w1)) as [o2 a2] eqn:R2. cbn [fst snd] in E, O'. subst o2.
  assert (S2 : scoreSystem (engine a2) = scale 2 (scoreSystem (engine a1))).
  { destruct O' as [Ok Og]. apply table_ext.
    - rewrite TableFacts.keys_scale. exact Ok.
    - rewrite Ok, K1. apply NoDup_OS_names.
    - intros k Hin. rewrite get_scale.
      destruct (get (scoreSystem (engine a1)) k) as [v|] eqn:G.
      + rewrite (Og k v G). unfold score_of. rewrite G. cbn [option_map]. f_equal. ring.
      + apply get_None_not_key in G. rewrite Ok in Hin. contradiction. }
  destruct o1 as [[]|e].
  - destruct (app_run_returns l h w0 a1 Hidle R1) as (r1 & W1 & T1 & E1 & _ & Y1 & _).
    destruct (app_run_returns l h w1 a2 I1 R2) as (r2 & W2 & T2 & E2 & Z2 & Y2 & _).
    rewrite E2. cbn [snd]. unfold w1. rewrite E1. cbn [snd].
    assert (W1s : scoreSystem (engine W1) = scoreSystem (engine a1)).
    { unfold w1 in S1. rewrite E1 in S1. exact S1. }
    rewrite S2, TableFacts.getTopOS_scale, T1 in T2 by lia. injection T2 as <-.
    split; [rewrite Y1, Y2; reflexivity|].
    rewrite Z2, S2, W1s. reflexivity.
  - rewrite (app_run_throws l h w1 a2 e I1 R2).
    unfold w1. rewrite (app_run_throws l h w0 a1 e Hidle R1).
    split; [reflexivity|]. cbn. exact S2.
Qed.

Lemma restart_shows_the_same_witness :
  let w1 := snd (DeviceDetectorApp.startDetection Hosts.android_phone DeviceDetectorApp.new) in
  let w2 := snd (DeviceDetectorApp.restartDetection Hosts.android_phone w1) in
  summary (page w2) = summary (page w1)
  /\ scoreSystem (engine w2) = scale 2 (scoreSystem (engine w1)).
Proof.
  apply (restart_shows_the_same Hosts.android_phone DeviceDetectorApp.new).
  - reflexivity.
  - reflexivity.
Defined.

(** X11.  No call of [startDetection] lowers a score: a hypothesis that has
    [v] when the call is made has [v] or more when it ends, whether the run
    returned, threw or was refused. *)
Theorem scores_never_go_down (h : Host) (w : World) (k : string) (v : Z) :
  get (scoreSystem (engine w)) k = Some v ->
  exists v',
    get (scoreSystem (engine (snd (DeviceDetectorApp.startDetection h w)))) k = Some v'
    /\ v <= v'.
Proof.
  intros G.
  apply (inv_startDetection (at_least k v)).
  - intros. apply addScore_at_least; assumption.
  - exists v. split; [exact G|lia].
Qed.

Lemma scores_never_go_down_witness :
  exists v',
    get (scoreSystem (engine (snd (DeviceDetectorApp.startDetection Hosts.android_phone
                                     DeviceDetectorApp.new)))) "Android" = Some v'
    /\ 0 <= v'.
Proof.
  apply (scores_never_go_down Hosts.android_phone DeviceDetectorApp.new "Android" 0).
  reflexivity.
Defined.

(** X12.  The table of the engine keeps its shape: after any call of
    [startDetection] it still holds the six hypotheses in their order, none
    with a negative score. *)
Theorem scores_stay_valid (h : Host) (w : World) :
  valid_scores (scoreSystem (engine w)) ->
  valid_scores (scoreSystem (engine (snd (DeviceDetectorApp.startDetection h w)))).
Proof.
  apply (inv_startDetection valid_scores).
  intros. apply addScore_valid; assumption.
Qed.

Lemma scores_stay_valid_witness :
  valid_scores (scoreSystem (engine (snd (DeviceDetectorApp.startDetection
                                            Hosts.windows_no_CSS DeviceDetectorApp.new)))).
Proof.
  apply (scores_stay_valid Hosts.windows_no_CSS DeviceDetectorApp.new).
  split; [reflexivity|repeat constructor; cbn; lia].
Defined.

(** X13.  When the engine's [startDetection] returns a result in a call
    that is not refused, that result is what the page shows and what is
    saved, and it is the result of [getTopOS] on the scores the call leaves:
    the summary names its hypothesis and confidence, the bar has that width
    and is no longer loading, and the storage holds it when the write
    succeeds and is left as it was when the write throws. *)
Theorem shown_result_is_top_of_scores (h : Host) (w w1 : World) (r : TopOS) :
  isDetecting w = false ->
  startDetection h (entered w) = (Returns r, w1) ->
  let W := snd (DeviceDetectorApp.startDetection h w) in
  OSScoreSystem.getTopOS (scoreSystem (engine W)) = Returns r
  /\ summary (page W) = Completed (os r) (confidence r)
  /\ width (confBar (page W)) = confidence r
  /\ loading (confBar (page W)) = false
  /\ localStorage W = match localStorage_setItem h with
                      | Returns _ => Some r
                      | Throws _ => localStorage w1
                      end.
Proof.
  intros Hidle Hrun. cbv zeta.
  unfold startDetection, startDetection_with in Hrun. unfold bind at 1 in Hrun.
  destruct (run_steps (detection_steps h) (entered w)) as [[[]|e] w0] eqn:Hsteps;
    [|discriminate].
  destruct (app_run_returns _ h w w0 Hidle Hsteps) as (r' & W & T & E & S & Y & B & _ & L).
  unfold DeviceDetectorApp.startDetection. rewrite E. cbn [snd].
  unfold finish in Hrun. unfold bind at 1 in Hrun. rewrite T in Hrun.
  cbn in Hrun. injection Hrun as <- <-.
  rewrite S, Y, B, L. cbn [width loading localStorage].
  repeat split; assumption.
Qed.

Lemma shown_result_is_top_of_scores_witness :
  let W := snd (DeviceDetectorApp.startDetection Hosts.android_phone DeviceDetectorApp.new) in
  OSScoreSystem.getTopOS (scoreSystem (engine W))
  = Returns {| os := "Android"; confidence := 57 |}
  /\ summary (page W) = Completed "Android" 57
  /\ width (confBar (page W)) = 57
  /\ loading (confBar (page W)) = false
  /\ localStorage W
     = match localStorage_setItem Hosts.android_phone with
       | Returns _ => Some {| os := "Android"; confidence := 57 |}
       | Throws _ =>
           localStorage (snd (startDetection Hosts.android_phone
                                (entered DeviceDetectorApp.new)))
       end.
Proof.
  apply (shown_result_is_top_of_scores Hosts.android_phone DeviceDetectorApp.new
           (snd (startDetection Hosts.android_phone (entered DeviceDetectorApp.new)))
           {| os := "Android"; confidence := 57 |}).
  - reflexivity.
  - vm_compute. reflexivity.
Defined.

(** X14.  A call of [startDetection] on an idle application always returns:
    whatever the host does, nothing is thrown to the caller, [isDetecting] is
    false again and the bar is no longer in its loading state. *)
Theorem startDetection_always_settles (h : Host) (w : World) :
  isDetecting w = false ->
  let r := DeviceDetectorApp.startDetection h w in
  fst r = Returns tt
  /\ isDetecting (snd r) = false
  /\ loading (confBar (page (snd r))) = false.
Proof.
  intros Hidle. cbv zeta. unfold DeviceDetectorApp.startDetection.
  destruct (run_steps (detection_steps h) (entered w)) as [[[]|e] w1] eqn:Hrun.
  - destruct (app_run_returns _ h w w1 Hidle Hrun) as (r & W & _ & -> & _ & _ & B & I & _).
    cbn [fst snd]. rewrite B. repeat split; assumption.
  - rewrite (app_run_throws _ h w w1 e Hidle Hrun). repeat split; reflexivity.
Qed.

Lemma startDetection_always_settles_witness :
  let r := DeviceDetectorApp.startDetection Hosts.windows_no_CSS DeviceDetectorApp.new in
  fst r = Returns tt
  /\ isDetecting (snd r) = false
  /\ loading (confBar (page (snd r))) = false.
Proof.
  apply (startDetection_always_settles Hosts.windows_no_CSS DeviceDetectorApp.new).
  reflexivity.
Defined.

(** X15.  An exception in one of the three probes that the sources wrap
    in [try] never reaches the engine: the run is the run on the host where
    the canvas gives no WebGL context instead of throwing, the [NDEFReader]
    constructor succeeds, and [decodingInfo] answers "not supported" instead
    of throwing.  The result, the state left and an exception of another
    origin are the same on both hosts. *)
Theorem probe_exceptions_count_as_absence (h : Host) (w : World) :
  startDetection (without_probe_exceptions h) w = startDetection h w.
Proof.
  assert (G : WebGL.getWebGLInfo (without_probe_exceptions h) = WebGL.getWebGLInfo h).
  { unfold WebGL.getWebGLInfo. cbn [gl_strings without_probe_exceptions].
    destruct (gl_strings h) as [[[v r]|]|e]; reflexivity. }
  assert (N : hasAPI (NFC.checkNFCCapabilities (without_probe_exceptions h))
              = hasAPI (NFC.checkNFCCapabilities h)).
  { unfold NFC.checkNFCCapabilities.
    cbn [window_has navigator_has new_NDEFReader without_probe_exceptions].
    destruct (window_has h "NDEFReader"), (new_NDEFReader h), (navigator_has h "nfc");
      reflexivity. }
  assert (M : Media.checkMediaCapabilities (without_probe_exceptions h)
              = Media.checkMediaCapabilities h).
  { unfold Media.checkMediaCapabilities, Media.checkSupport.
    cbn [navigator_has decodingInfo without_probe_exceptions].
    destruct (navigator_has h "mediaCapabilities"); [|reflexivity].
    cbn [negb].
    destruct (decodingInfo h HEVC_1080p), (decodingInfo h VP9_1080p),
      (decodingInfo h AV1_1080p), (decodingInfo h HDR10_2160p); reflexivity. }
  assert (S6 : performWebGLDetection (without_probe_exceptions h) = performWebGLDetection h).
  { unfold performWebGLDetection. rewrite G. reflexivity. }
  assert (S7 : performNFCDetection (without_probe_exceptions h) = performNFCDetection h).
  { unfold performNFCDetection. rewrite N. reflexivity. }
  assert (S8 : performMediaDetection (without_probe_exceptions h) = performMediaDetection h).
  { unfold performMediaDetection. rewrite M. reflexivity. }
  unfold startDetection, detection_steps. rewrite S6, S7, S8. reflexivity.
Qed.

End RunProperties.

(** ** The guard of the application *)

Section GuardProperties.
Import DeviceDetectorApp RunFacts.

Lemma at_most_one_run_witness : (List.length (inflight suspended) <= 1)%nat.
Proof.
  apply (at_most_one_run suspended).
  apply (reach_invoke Hosts.android_phone start). apply reach_start.
Defined.

(** X18.  The guard never sticks: in every state the application can
    reach, when no run is in flight [isDetecting] is false, and a call is
    then accepted: it returns a pending promise and leaves one run in flight
    with [isDetecting] set. *)
Theorem idle_application_accepts_a_call (h : Host) (s : System) :
  reachable s -> inflight s = [] ->
  isDetecting (world s) = false
  /\ fst (invoke h s) = Pending
  /\ isDetecting (world (snd (invoke h s))) = true
  /\ exists t, inflight (snd (invoke h s)) = [t] /\ t <> [].
Proof.
  intros R Hnil.
  destruct (reachable_guarded s R) as [_ [[_ Hd]|(t & Ht & _)]]; [|congruence].
  split; [exact Hd|].
  assert (K : keeps_flag (clearSteps ;; DeviceDetectionEngine.collectBasicSignals h)).
  { apply keeps_bind; [apply keeps_update_page|intros _].
    apply keeps_collectBasicSignals. }
  specialize (K (set_isDetecting true (world s))).
  unfold invoke. rewrite Hd.
  destruct ((clearSteps;; DeviceDetectionEngine.collectBasicSignals h)
              (set_isDetecting true (world s))) as [[[]|e] w];
    cbn [fst snd inflight world] in *; rewrite Hnil;
    (split; [reflexivity|]; split; [exact K|]; eexists; split; [reflexivity|discriminate]).
Qed.

Lemma idle_application_accepts_a_call_witness :
  isDetecting (world start) = false
  /\ fst (invoke Hosts.windows_no_CSS start) = Pending
  /\ isDetecting (world (snd (invoke Hosts.windows_no_CSS start))) = true
  /\ exists t, inflight (snd (invoke Hosts.windows_no_CSS start)) = [t] /\ t <> [].
Proof.
  apply (idle_application_accepts_a_call Hosts.windows_no_CSS start).
  - apply reach_start.
  - reflexivity.
Defined.

End GuardProperties.

(** ** The page *)

Section PageProperties.
Import JSObject BoardFacts PageFacts.

(** X19.  The score board lists the entries of the table it is given, each
    once, by decreasing score; entries with equal scores keep the order they
    have in the table. *)
Theorem score_board_is_the_sorted_table (scores : Scores) (w : World) :
  let board := board_entries (page (snd (Dom.updateScoreBoard scores w))) in
  Permutation board scores
  /\ StronglySorted by_score board
  /\ forall v, filter (fun e => snd e =? v) board = filter (fun e => snd e =? v) scores.
Proof.
  cbv zeta. rewrite board_entries_updateScoreBoard. repeat split.
  - apply sort_desc_perm.
  - apply sort_desc_sorted.
  - intros v. apply sort_desc_stable.
Qed.

(** X20.  When no score is negative and some score is positive, the first
    row of the score board has the full width of 100, and every other row
    has a width between 0 and 100 and a score no greater than the first. *)
Theorem score_board_widths (scores : Scores) (w : World) :
  Forall (fun v => 0 <= v) (values scores) ->
  Exists (fun v => 0 < v) (values scores) ->
  exists r rest,
    scoreBoard (page (snd (Dom.updateScoreBoard scores w))) = r :: rest
    /\ row_width r = 100
    /\ Forall (fun x => 0 <= row_width x <= 100 /\ row_score x <= row_score r) rest.
Proof.
  intros Hnn Hpos.
  destruct (TopFacts.Math_max_some (values scores)) as [m Hm].
  { intros E. rewrite E in Hpos. inversion Hpos. }
  assert (Hmpos : 0 < m).
  { apply TopFacts.Math_max_spec in Hm. destruct Hm as [_ Hall].
    apply Exists_exists in Hpos. destruct Hpos as (v & Hv & Hv0).
    rewrite Forall_forall in Hall. specialize (Hall v Hv). lia. }
  destruct (sort_desc_head scores m Hm) as (e & rest & Hs & He & Hrest).
  assert (Hrest0 : Forall (fun x => 0 <= snd x) rest).
  { assert (H0 : Forall (fun x => 0 <= snd x) (Dom.sort_desc scores)).
    { apply (Permutation_Forall (Permutation_sym (sort_desc_perm scores))).
      unfold values in Hnn. rewrite Forall_map in Hnn. exact Hnn. }
    rewrite Hs in H0. inversion H0; assumption. }
  unfold Dom.updateScoreBoard. cbn [update_page snd page scoreBoard].
  rewrite Hm, Hs. cbn [map].
  destruct (Z.ltb_spec 0 m) as [_|]; [|lia].
  eexists. eexists. split; [reflexivity|]. cbn [row_width row_score]. split.
  - rewrite He. apply RoundingFacts.percent_whole. exact Hmpos.
  - rewrite Forall_map. rewrite Forall_forall in *. intros x Hx.
    cbn [row_width row_score]. specialize (Hrest x Hx). specialize (Hrest0 x Hx).
    split; [|lia]. apply RoundingFacts.percent_range; lia.
Qed.

Lemma score_board_widths_witness :
  exists r rest,
    scoreBoard (page (snd (Dom.updateScoreBoard
        [("macOS", 3); ("Windows", 2); ("Linux", 2); ("iOS", 5); ("iPadOS", 5);
         ("Android", 23)] DeviceDetectorApp.new))) = r :: rest
    /\ row_width r = 100
    /\ Forall (fun x => 0 <= row_width x <= 100 /\ row_score x <= row_score r) rest.
Proof.
  apply (score_board_widths
           [("macOS", 3); ("Windows", 2); ("Linux", 2); ("iOS", 5); ("iPadOS", 5);
            ("Android", 23)] DeviceDetectorApp.new).
  - repeat constructor; cbn; lia.
  - apply Exists_cons_hd. cbn. lia.
Defined.

(** X23.  Nothing removes the error mark of the confidence bar: once a run
    has failed, the bar keeps the mark through every later call of
    [startDetection], also through a run that completes. *)
Theorem error_mark_is_never_removed (h : Host) (w : World) :
  error (confBar (page w)) = true ->
  error (confBar (page (snd (DeviceDetectorApp.startDetection h w)))) = true.
Proof.
  intros H.
  refine (page_startDetection (fun p => error (confBar p) = true) _ _ _ _ _ _ h w H);
    unfold keeps_page; intros; first [assumption | reflexivity].
Qed.

Lemma error_mark_is_never_removed_witness :
  error (confBar (page (snd (DeviceDetectorApp.startDetection Hosts.android_phone
     (snd (DeviceDetectorApp.startDetection Hosts.windows_no_CSS DeviceDetectorApp.new))))))
  = true.
Proof.
  apply (error_mark_is_never_removed Hosts.android_phone
           (snd (DeviceDetectorApp.startDetection Hosts.windows_no_CSS DeviceDetectorApp.new))).
  vm_compute. reflexivity.
Defined.

(** X24.  A call of [startDetection] lists only fired signals: when every
    step in the list is marked as fired and carries either a positive weight
    with one or more targets, all of them hypotheses of the table, or
    neither a weight nor targets, the same holds of the list that the call
    leaves (a refused call leaves the list as it is). *)
Theorem every_listed_step_is_a_fired_signal (h : Host) (w : World) :
  Forall (fun st => well_formed_step st = true) (steps (page w)) ->
  Forall (fun st => well_formed_step st = true)
         (steps (page (snd (DeviceDetectorApp.startDetection h w)))).
Proof.
  intros H.
  refine (page_startDetection
            (fun p => Forall (fun st => well_formed_step st = true) (steps p))
            _ _ _ _ _ _ h w H);
    unfold keeps_page; intros; try assumption.
  - cbn. apply Forall_app. split; [assumption|].
    constructor; [assumption|constructor].
  - constructor.
Qed.

Lemma every_listed_step_is_a_fired_signal_witness :
  Forall (fun st => well_formed_step st = true)
         (steps (page (snd (DeviceDetectorApp.startDetection Hosts.android_phone
                              DeviceDetectorApp.new)))).
Proof.
  apply (every_listed_step_is_a_fired_signal Hosts.android_phone DeviceDetectorApp.new).
  constructor.
Defined.

End PageProperties.

(** ** The probes *)

Section ProbeProperties.
Import JSString JSObject StringFacts.

(** X21.  Whenever the renderer counts as ANGLE on Metal, or the GPU vendor
    is found to be Apple, the information also counts as naming Apple. *)
Theorem apple_gpu_is_an_apple_renderer (i : option WebGLInfo) :
  WebGL.isAngleMetal i = true \/ WebGL.getGPUVendor i = "apple" ->
  WebGL.containsApple i = true.
Proof.
  destruct i as [i|]; cbn [WebGL.isAngleMetal WebGL.getGPUVendor WebGL.containsApple].
  - intros [H|H].
    + apply andb_true_iff in H. destruct H as [_ H].
      apply orb_true_iff. right. unfold WebGL.combined, toLowerCase in *.
      rewrite !map_ascii_app. do 2 apply includes_app_r. exact H.
    + destruct (includes (WebGL.combined i) "nvidia" || includes (WebGL.combined i) "geforce");
        [discriminate|].
      destruct (includes (WebGL.combined i) "amd" || includes (WebGL.combined i) "radeon");
        [discriminate|].
      destruct (includes (WebGL.combined i) "intel"); [discriminate|].
      destruct (includes (WebGL.combined i) "apple" || includes (WebGL.combined i) "metal");
        [reflexivity|discriminate].
  - intros [H|H]; discriminate.
Qed.

Lemma apple_gpu_is_an_apple_renderer_witness :
  WebGL.containsApple
    (Some {| vendor := "Google Inc. (Apple)";
             renderer := "ANGLE (Apple, ANGLE Metal Renderer: Apple M1, Unspecified Version)" |})
  = true.
Proof.
  apply (apple_gpu_is_an_apple_renderer
           (Some {| vendor := "Google Inc. (Apple)";
                    renderer := "ANGLE (Apple, ANGLE Metal Renderer: Apple M1, Unspecified Version)" |})).
  left. vm_compute. reflexivity.
Defined.

(** X22.  For an NVIDIA GPU the step that is listed understates the score:
    the engine adds 4 to Windows (and to Linux), and the step it lists last
    shows the weight 3. *)
Theorem nvidia_step_shows_3_for_4 (h : Host) (w : World) (i : WebGLInfo) (v : Z) :
  WebGL.getWebGLInfo h = Some i ->
  WebGL.getGPUVendor (Some i) = "nvidia" ->
  get (scoreSystem (engine w)) "Windows" = Some v ->
  let w' := snd (DeviceDetectionEngine.performWebGLDetection h w) in
  get (scoreSystem (engine w')) "Windows" = Some (v + 4)
  /\ exists before,
       steps (page w')
       = before ++ [{| ok := true; title := "NVIDIA GPU检测"; weight := Some 3;
                       targets := ["Windows"; "Linux"] |}].
Proof.
  intros Hi Hv Hg. cbv zeta. unfold DeviceDetectionEngine.performWebGLDetection.
  rewrite Hi, Hv.
  change (String.eqb "nvidia" "apple") with false.
  change (String.eqb "nvidia" "intel") with false.
  change (String.eqb "nvidia" "nvidia") with true.
  change (String.eqb "nvidia" "unknown") with false.
  change (toUpperCase "nvidia") with "NVIDIA".
  cbn [negb orb].
  unfold when, DeviceDetectionEngine.fire, DeviceDetectionEngine.addScore, Dom.addStep,
    update_engine, update_page, bind, ret.
  destruct (WebGL.containsApple (Some i)), (WebGL.isAngleMetal (Some i));
    cbn [fst snd engine page scoreSystem steps];
    rewrite ?LedgerFacts.get_addScore, Hg; cbn [hits filter List.length String.eqb];
    (split; [f_equal; cbn; lia|eexists; reflexivity]).
Qed.

Lemma nvidia_step_shows_3_for_4_witness :
  let h :=
    {| userAgent := userAgent Hosts.windows_no_CSS;
       maxTouchPoints := maxTouchPoints Hosts.windows_no_CSS;
       matchMedia := matchMedia Hosts.windows_no_CSS;
       style_has := style_has Hosts.windows_no_CSS;
       window_has := window_has Hosts.windows_no_CSS;
       safari_has := safari_has Hosts.windows_no_CSS;
       navigator_has := navigator_has Hosts.windows_no_CSS;
       navigator_standalone := false;
       CSS_supports := fun _ _ => Returns true;
       devicePixelRatio := devicePixelRatio Hosts.windows_no_CSS;
       screen_size := screen_size Hosts.windows_no_CSS;
       screen_avail := screen_avail Hosts.windows_no_CSS;
       screen_colorDepth := 24;
       screen_orientation := Some 0;
       gl_strings :=
         Returns (Some ("Google Inc. (NVIDIA)",
                        "ANGLE (NVIDIA, NVIDIA GeForce RTX 3060 Direct3D11 vs_5_0 ps_5_0, D3D11)"));
       new_NDEFReader := new_NDEFReader Hosts.windows_no_CSS;
       decodingInfo := decodingInfo Hosts.windows_no_CSS;
       localStorage_setItem := Returns tt |} in
  let w' := snd (DeviceDetectionEngine.performWebGLDetection h DeviceDetectorApp.new) in
  get (scoreSystem (engine w')) "Windows" = Some (0 + 4)
  /\ exists before,
       steps (page w')
       = before ++ [{| ok := true; title := "NVIDIA GPU检测"; weight := Some 3;
                       targets := ["Windows"; "Linux"] |}].
Proof.
  intros h.
  apply (nvidia_step_shows_3_for_4 h DeviceDetectorApp.new
           {| vendor := "Google Inc. (NVIDIA)";
              renderer := "ANGLE (NVIDIA, NVIDIA GeForce RTX 3060 Direct3D11 vs_5_0 ps_5_0, D3D11)" |}
           0).
  - reflexivity.
  - vm_compute. reflexivity.
  - reflexivity.
Defined.

(** X25.  The two NFC probes agree up to old iOS: when [checkNFCCapabilities]
    finds an NFC interface, [hasNFCSupport] answers true, unless the user
    agent names an iPhone or iPad with an OS version below 11. *)
Theorem nfc_interface_means_nfc_support (h : Host) :
  hasAPI (NFC.checkNFCCapabilities h) = true ->
  NFC.hasNFCSupport h = true
  \/ exists v, match_os_version (toLowerCase (userAgent h)) = Some v /\ v < 11
               /\ (includes (toLowerCase (userAgent h)) "iphone"
                   || includes (toLowerCase (userAgent h)) "ipad") = true.
Proof.
  unfold NFC.checkNFCCapabilities, NFC.hasNFCSupport. intros H.
  destruct (includes (toLowerCase (userAgent h)) "android"); [left; reflexivity|].
  destruct (includes (toLowerCase (userAgent h)) "iphone"
            || includes (toLowerCase (userAgent h)) "ipad").
  - destruct (match_os_version (toLowerCase (userAgent h))) as [v|].
    + destruct (Z.leb_spec 11 v) as [L|L]; [left; reflexivity|].
      right. exists v. repeat split. exact L.
    + left. destruct (window_has h "NDEFReader"); [reflexivity|].
      cbn in H. destruct (navigator_has h "nfc"); [reflexivity|discriminate].
  - left. destruct (window_has h "NDEFReader"); [reflexivity|].
    cbn in H. destruct (navigator_has h "nfc"); [reflexivity|discriminate].
Qed.

Lemma nfc_interface_means_nfc_support_witness :
  NFC.hasNFCSupport Hosts.android_phone = true
  \/ exists v, match_os_version (toLowerCase (userAgent Hosts.android_phone)) = Some v
               /\ v < 11
               /\ (includes (toLowerCase (userAgent Hosts.android_phone)) "iphone"
                   || includes (toLowerCase (userAgent Hosts.android_phone)) "ipad") = true.
Proof.
  apply (nfc_interface_means_nfc_support Hosts.android_phone). reflexivity.
Defined.

End ProbeProperties.

(** ** Scores and listed steps *)

Section AccountProperties.
Import JSString JSObject DeviceDetectionEngine AccountFacts.

(** X26.  The list of steps accounts for the scores, up to two known
    omissions: when the engine's [startDetection] returns, the total of the
    scores has grown by what the steps listed in the run show (each weight,
    once for each target), plus one point each for Windows and Linux when
    the GPU is an NVIDIA one, plus the two points of the NFC support inferred
    from an Android or iPhone user agent, for which no step is listed. *)
Theorem listed_steps_account_for_scores (h : Host) (w w' : World) (r : TopOS) :
  keys (scoreSystem (engine w)) = OSScoreSystem.OS_names ->
  startDetection h w = (Returns r, w') ->
  OSScoreSystem.totalOf (scoreSystem (engine w'))
  - OSScoreSystem.totalOf (scoreSystem (engine w))
  = listed (steps (page w')) - listed (steps (page w)) + unlisted h.
Proof.
  intros Hk Hrun. destruct (acc_startDetection h w Hk) as [_ G].
  specialize (G r). rewrite Hrun in G. specialize (G eq_refl).
  cbn [snd] in G. unfold gap in G. lia.
Qed.

Lemma listed_steps_account_for_scores_witness :
  OSScoreSystem.totalOf
    (scoreSystem (engine (snd (startDetection Hosts.android_phone DeviceDetectorApp.new))))
  - OSScoreSystem.totalOf (scoreSystem (engine DeviceDetectorApp.new))
  = listed (steps (page (snd (startDetection Hosts.android_phone DeviceDetectorApp.new))))
    - listed (steps (page DeviceDetectorApp.new))
    + unlisted Hosts.android_phone.
Proof.
  eapply (listed_steps_account_for_scores Hosts.android_phone DeviceDetectorApp.new).
  - reflexivity.
  - vm_compute. reflexivity.
Defined.

(** X27.  A user agent that names Android is never counted as Linux: the
    analysis of the user agent then adds 8 to Android and leaves the score
    of Linux as it is, also when the user agent contains the word Linux. *)
Theorem android_user_agent_is_not_linux (h : Host) (w : World) (vl va : Z) :
  includes (toLowerCase (userAgent h)) "android" = true ->
  get (scoreSystem (engine w)) "Linux" = Some vl ->
  get (scoreSystem (engine w)) "Android" = Some va ->
  let w' := snd (performUserAgentAnalysis h w) in
  get (scoreSystem (engine w')) "Linux" = Some vl
  /\ get (scoreSystem (engine w')) "Android" = Some (va + 8).
Proof.
  intros Ha Hl Hd. cbv zeta. unfold performUserAgentAnalysis. rewrite Ha.
  unfold when, fire, addScore, Dom.addStep, update_engine, update_page, bind, ret.
  repeat match goal with
         | |- context [includes ?s ?p] => destruct (includes s p)
         end;
    cbn [negb andb orb fst snd engine page scoreSystem];
    rewrite ?LedgerFacts.get_addScore, ?Hl, ?Hd;
    cbn [hits filter List.length String.eqb];
    (split; f_equal; cbn; lia).
Qed.

Lemma android_user_agent_is_not_linux_witness :
  let w' := snd (performUserAgentAnalysis Hosts.android_phone DeviceDetectorApp.new) in
  get (scoreSystem (engine w')) "Linux" = Some 0
  /\ get (scoreSystem (engine w')) "Android" = Some (0 + 8).
Proof.
  apply (android_user_agent_is_not_linux Hosts.android_phone DeviceDetectorApp.new 0 0).
  - vm_compute. reflexivity.
  - reflexivity.
  - reflexivity.
Defined.

End AccountProperties.
